(** * flickr-archive-metadata: a shallow embedding of [flickr_client.py] and
    [downloader.py], and the properties of the per-photo archival pipeline.

    Python values are parsed-JSON trees, exceptions are values of [exn],
    pure expressions live in the [result] monad and effectful code in the
    state-and-exception monad [M] over a [world] (files, directories, the
    process-wide user cache, the clock and the trace of effects).

    Conventions of the model:
    - the remote service, HTTP downloads, the disk, the wall clock and the
      textual form of exceptions and containers are oracles of a [runtime];
      the service, the network and the disk are asked with the current
      clock, so that they may fail at one moment and not at another;
    - durations are in milliseconds; the leading newlines of log lines are
      left out;
    - a string is a sequence of code points below 256, and [int()] reads
      it as CPython 3.11 does, white space and digit limit included; floats
      and [bytes] values are outside the value model;
    - a download is a [stream]: the response arrives whole, or the
      connection breaks after a part of the body, once the file is open;
    - [while True] in the walk is a fixpoint on fuel. *)

From Stdlib Require Import ZArith Ascii String List Bool Lia Sorted Permutation.
From stdpp Require Import base option gmap strings pretty list fin_maps.

Local Open Scope string_scope.
Local Open Scope list_scope.
Local Open Scope Z_scope.

(* ===================================================================== *)
(** ** Python values *)
(* ===================================================================== *)

(** The values the [parsed-json] transport hands back (floats left out). *)
#[warnings="-register-all"]
Inductive json : Type :=
| JNull
| JBool (b : bool)
| JInt (z : Z)
| JStr (s : string)
| JList (l : list json)
| JDict (d : list (string * json)).

Inductive exn : Type :=
| KeyError (k : string)
| TypeError
| ValueError
| AttributeError
| OverflowError
| OSError
| FileNotFoundError
| FlickrError (msg : string)
| Exception_ (msg : string).

Inductive result (A : Type) : Type :=
| Ok (a : A)
| Raise (e : exn).
Arguments Ok {A} a.
Arguments Raise {A} e.

#[export] Instance result_ret : MRet result := fun _ a => Ok a.
#[export] Instance result_bind : MBind result := fun _ _ f r =>
  match r with Ok a => f a | Raise e => Raise e end.
#[export] Instance result_fmap : FMap result := fun _ _ f r =>
  match r with Ok a => Ok (f a) | Raise e => Raise e end.

(** [r >>> f >>> g]: an attribute chain such as [x.get(..).get(..)]. *)
Definition and_then {A B} (r : result A) (f : A -> result B) : result B :=
  match r with Ok a => f a | Raise e => Raise e end.
Notation "r >>> f" := (and_then r f) (at level 50, left associativity).

Definition is_ok {A} (r : result A) : bool :=
  match r with Ok _ => true | Raise _ => false end.

(** [mapR f l]: a comprehension or a [key=] pass; the first failure wins. *)
Fixpoint mapR {A B} (f : A -> result B) (l : list A) : result (list B) :=
  match l with
  | [] => Ok []
  | x :: l' => y ← f x; ys ← mapR f l'; Ok (y :: ys)
  end.

(* --------------------------------------------------------------------- *)
(** *** Strings *)

Abbreviation ascii_eqb := Ascii.eqb (only parsing).

Fixpoint occurs (c : ascii) (s : string) : bool :=
  match s with
  | EmptyString => false
  | String a s' => ascii_eqb a c || occurs c s'
  end.

(** [s.split(c)[-1]] *)
Fixpoint last_piece (c : ascii) (s : string) : string :=
  match s with
  | EmptyString => EmptyString
  | String a s' =>
      if occurs c s' then last_piece c s'
      else if ascii_eqb a c then s' else s
  end.

(** [s.split(c)[0]] *)
Fixpoint first_piece (c : ascii) (s : string) : string :=
  match s with
  | EmptyString => EmptyString
  | String a s' => if ascii_eqb a c then EmptyString else String a (first_piece c s')
  end.

Fixpoint starts_with (p s : string) : bool :=
  match p, s with
  | EmptyString, _ => true
  | String a p', String b s' => ascii_eqb a b && starts_with p' s'
  | String _ _, EmptyString => false
  end.

(** [needle in hay] on two strings *)
Fixpoint is_substring (needle hay : string) : bool :=
  starts_with needle hay ||
  match hay with
  | EmptyString => false
  | String _ hay' => is_substring needle hay'
  end.

Fixpoint ends_with_slash (s : string) : bool :=
  match s with
  | EmptyString => false
  | String a EmptyString => ascii_eqb a "/"
  | String _ s' => ends_with_slash s'
  end.

(** [os.path.join(a, b)] for two [str] arguments (posixpath). *)
Definition path_join (a b : string) : string :=
  if starts_with "/" b then b
  else if (String.eqb a "" || ends_with_slash a)%bool then a +:+ b
  else a +:+ "/" +:+ b.

(* --------------------------------------------------------------------- *)
(** *** [int()] *)

(** The white space [int()] skips around a literal: tab to carriage
    return, the space, and the two Latin-1 spaces U+0085 and U+00A0.  The
    separators U+001C to U+001F, which [str.strip] removes, are not among
    them: [int] rejects a literal padded with one. *)
Definition is_space (a : ascii) : bool :=
  let n := nat_of_ascii a in
  ((9 <=? n)%nat && (n <=? 13)%nat) || (n =? 32)%nat || (n =? 133)%nat || (n =? 160)%nat.

Definition digit_of (a : ascii) : option Z :=
  let n := nat_of_ascii a in
  if ((48 <=? n)%nat && (n <=? 57)%nat)%bool then Some (Z.of_nat n - 48) else None.

Fixpoint lstrip (s : string) : string :=
  match s with
  | String a s' => if is_space a then lstrip s' else s
  | EmptyString => EmptyString
  end.

Fixpoint all_space (s : string) : bool :=
  match s with
  | EmptyString => true
  | String a s' => is_space a && all_space s'
  end.

Fixpoint rstrip (s : string) : string :=
  match s with
  | EmptyString => EmptyString
  | String a s' => if all_space s then EmptyString else String a (rstrip s')
  end.

Inductive numstate := NStart | NDigit | NUnderscore.

(** Decimal digits, single underscores allowed between digits. *)
Fixpoint digits_val (st : numstate) (acc : Z) (s : string) : option Z :=
  match s with
  | EmptyString => match st with NDigit => Some acc | _ => None end
  | String a s' =>
      match digit_of a with
      | Some d => digits_val NDigit (10 * acc + d) s'
      | None =>
          if ascii_eqb a "_"
          then match st with NDigit => digits_val NUnderscore acc s' | _ => None end
          else None
      end
  end.

(** [sys.get_int_max_str_digits()]: the longest literal [int()] converts,
    in digits; the program leaves CPython's default in place. *)
Definition MAX_STR_DIGITS : nat := 4300.

Fixpoint digit_count (s : string) : nat :=
  match s with
  | EmptyString => 0
  | String a s' => (match digit_of a with Some _ => 1 | None => 0 end) + digit_count s'
  end.

(** [int(s)] for a [str]: white space around, an optional sign, then the
    digits, no more than [MAX_STR_DIGITS] of them. *)
Definition parse_int (s : string) : option Z :=
  match rstrip (lstrip s) with
  | EmptyString => None
  | String a s' as literal =>
      let signed := ascii_eqb a "-" || ascii_eqb a "+" in
      let body := if signed then s' else literal in
      if (MAX_STR_DIGITS <? digit_count body)%nat then None
      else if ascii_eqb a "-" then Z.opp <$> digits_val NStart 0 body
      else digits_val NStart 0 body
  end.

(** [int(v)].  A [float], which [int()] truncates, is not a value of this
    model. *)
Definition py_int (v : json) : result Z :=
  match v with
  | JInt z => Ok z
  | JBool b => Ok (if b then 1 else 0)
  | JStr s => match parse_int s with Some z => Ok z | None => Raise ValueError end
  | JNull | JList _ | JDict _ => Raise TypeError
  end.

(* --------------------------------------------------------------------- *)
(** *** Dictionaries, truth, membership, iteration *)

Fixpoint assoc {A} (k : string) (d : list (string * A)) : option A :=
  match d with
  | [] => None
  | (k', v) :: d' => if String.eqb k k' then Some v else assoc k d'
  end.

(** [d[k] = v] on a dict: replace in place, or append at the end. *)
Fixpoint assoc_set {A} (k : string) (v : A) (d : list (string * A)) : list (string * A) :=
  match d with
  | [] => [(k, v)]
  | (k', v') :: d' => if String.eqb k k' then (k, v) :: d' else (k', v') :: assoc_set k v d'
  end.

(** [v[k]] with a string key *)
Definition sub (k : string) (v : json) : result json :=
  match v with
  | JDict d => match assoc k d with Some x => Ok x | None => Raise (KeyError k) end
  | _ => Raise TypeError
  end.

(** [v.get(k, dflt)] *)
Definition get (k : string) (dflt : json) (v : json) : result json :=
  match v with
  | JDict d => Ok (default dflt (assoc k d))
  | _ => Raise AttributeError
  end.

(** [v.get(k)] *)
Definition get1 (k : string) (v : json) : result json := get k JNull v.

(** [bool(v)] *)
Definition truthy (v : json) : bool :=
  match v with
  | JNull => false
  | JBool b => b
  | JInt z => negb (Z.eqb z 0)
  | JStr s => negb (String.eqb s "")
  | JList l => match l with [] => false | _ => true end
  | JDict d => match d with [] => false | _ => true end
  end.

(** [v == k] for a string literal [k] *)
Definition eq_str (k : string) (v : json) : bool :=
  match v with JStr s => String.eqb s k | _ => false end.

(** [k in v] for a string literal [k] *)
Definition contains (k : string) (v : json) : result bool :=
  match v with
  | JDict d => Ok (bool_decide (is_Some (assoc k d)))
  | JList l => Ok (existsb (eq_str k) l)
  | JStr s => Ok (is_substring k s)
  | JNull | JBool _ | JInt _ => Raise TypeError
  end.

Fixpoint chars (s : string) : list json :=
  match s with
  | EmptyString => []
  | String a s' => JStr (String a EmptyString) :: chars s'
  end.

(** [for x in v] *)
Definition iter (v : json) : result (list json) :=
  match v with
  | JList l => Ok l
  | JDict d => Ok (map (fun kv => JStr (fst kv)) d)
  | JStr s => Ok (chars s)
  | JNull | JBool _ | JInt _ => Raise TypeError
  end.

(* ===================================================================== *)
(** ** The world: remote service, disk, clock, trace *)
(* ===================================================================== *)

(** The remote operations [flickr_client.py] invokes on the transport. *)
Inductive request : Type :=
| people_getPhotos (user_id : json) (per_page page : Z)
| photos_getInfo (photo_id : json)
| photos_comments_getList (photo_id : json)
| photos_getFavorites (photo_id : json) (per_page : Z)
| photos_getExif (photo_id : json)
| photos_getSizes (photo_id : json)
| photos_geo_getLocation (photo_id : json)
| favorites_getList (user_id : json) (per_page page : Z)
| stats_getPhotoStats (photo_id : json)
| photos_getAllContexts (photo_id : json)
| photosets_getList (user_id : json) (per_page : Z)
| people_getInfo (user_id : json).

(** What a GET with [stream=True] delivers once the status line is in: the
    body chunk by chunk, either all of it, or the part received before the
    connection broke. *)
Inductive stream : Type :=
| Whole (body : string)
| Broken (received : string) (e : exn).

(** The chunks [iter_content] has yielded when the loop is left. *)
Definition received_of (r : stream) : string :=
  match r with Whole body => body | Broken received _ => received end.

(** What a file holds: a [json.dump]ed value, downloaded bytes, text, or
    whatever was there when a write was cut short. *)
Inductive content : Type :=
| CJson (j : json)
| CBytes (b : string)
| CText (s : string)
| CPartial.

(** A write either succeeds, fails before the file is created or
    truncated, or fails after. *)
Inductive disk_outcome : Type := DiskOk | DiskRefused | DiskCut.

(** The observable effects, in the order they happen.  [EvWrite] marks
    the attempt to open a file for writing, whether or not it succeeds. *)
Inductive event : Type :=
| EvSleep (ms : Z)
| EvPrint (msg : string)
| EvCall (r : request)
| EvHttpGet (url : string)
| EvWrite (path : string).

(** Everything the program does not define itself.  The oracles are
    indexed by the clock, so the same request may fail once and succeed
    later. *)
Record runtime : Type := Runtime {
  flickr : nat -> request -> result json;
  http_get : nat -> string -> result stream;
  disk : nat -> string -> disk_outcome;
  now_iso : nat -> string;
  fromtimestamp_iso : Z -> result string;
  exn_text : exn -> string;
  py_repr : json -> string;
  USER_ID : json                     (* config.py *)
}.

Record world : Type := World {
  files : gmap string content;
  dirs : gset string;
  USER_CACHE : list (json * json);
  clock : nat;
  trace : list event
}.

Definition M (A : Type) : Type := world -> result A * world.

#[export] Instance M_ret : MRet M := fun _ a w => (Ok a, w).
#[export] Instance M_bind : MBind M := fun _ _ f m w =>
  match m w with
  | (Ok a, w') => f a w'
  | (Raise e, w') => (Raise e, w')
  end.

Definition lift {A} (r : result A) : M A := fun w => (r, w).
Definition raise {A} (e : exn) : M A := fun w => (Raise e, w).

(** [try: m except: h] with a bare or [Exception] handler *)
Definition try_except {A} (m : M A) (h : exn -> M A) : M A := fun w =>
  match m w with
  | (Ok a, w') => (Ok a, w')
  | (Raise e, w') => h e w'
  end.

Fixpoint mapM {A B} (f : A -> M B) (l : list A) : M (list B) :=
  match l with
  | [] => mret []
  | x :: l' => y ← f x; ys ← mapM f l'; mret (y :: ys)
  end.

Definition emit (e : event) : M unit := fun w =>
  (Ok tt, World (files w) (dirs w) (USER_CACHE w) (clock w) (trace w ++ [e])).

(** Read the clock for one oracle query and advance it. *)
Definition tick : M nat := fun w =>
  (Ok (clock w), World (files w) (dirs w) (USER_CACHE w) (S (clock w)) (trace w)).

Definition sleep (ms : Z) : M unit := emit (EvSleep ms).
Definition print (msg : string) : M unit := emit (EvPrint msg).

Definition set_file (path : string) (c : content) : M unit := fun w =>
  (Ok tt, World (<[path := c]> (files w)) (dirs w) (USER_CACHE w) (clock w) (trace w)).

Definition add_dirs (ds : list string) : M unit := fun w =>
  (Ok tt, World (files w) (list_to_set ds ∪ dirs w) (USER_CACHE w) (clock w) (trace w)).

Definition cache_put (k v : json) : M unit := fun w =>
  (Ok tt, World (files w) (dirs w) (USER_CACHE w ++ [(k, v)]) (clock w) (trace w)).

(** [str(v)] inside an f-string *)
Definition py_str (rt : runtime) (v : json) : string :=
  match v with
  | JStr s => s
  | JInt z => pretty z
  | JBool true => "True"
  | JBool false => "False"
  | JNull => "None"
  | JList _ | JDict _ => py_repr rt v
  end.

(** [len(v)] *)
Definition py_len (v : json) : result Z :=
  match v with
  | JList l => Ok (Z.of_nat (length l))
  | JDict d => Ok (Z.of_nat (length d))
  | JStr s => Ok (Z.of_nat (String.length s))
  | JNull | JBool _ | JInt _ => Raise TypeError
  end.

(* ===================================================================== *)
(** ** flickr_client.py *)
(* ===================================================================== *)

(** One invocation of a transport method such as [flickr.photos.getInfo]. *)
Definition call (rt : runtime) (r : request) : M json :=
  t ← tick; _ ← emit (EvCall r); lift (flickr rt t r).

Definition transient (msg : string) : bool :=
  is_substring "201" msg || is_substring "not currently available" msg.

(** The body of [wrapper]: [for attempt in range(max_retries)]. *)
Fixpoint retry_loop (rt : runtime) (func : M json) (max_retries : nat)
    (attempts : list nat) : M json :=
  match attempts with
  | [] => mret JNull                       (* return None *)
  | attempt :: rest =>
      try_except func (fun e =>
        match e with
        | FlickrError msg =>
            if transient msg && (attempt <? max_retries - 1)%nat then
              let wait_time := (Z.of_nat attempt + 1) * 5 in
              _ ← print ("  API temporarily unavailable, waiting " +:+
                          pretty wait_time +:+ " seconds...");
              _ ← sleep (wait_time * 1000);
              retry_loop rt func max_retries rest
            else raise e
        | _ =>
            if (attempt <? max_retries - 1)%nat then
              _ ← print ("  Error: " +:+ exn_text rt e +:+ ", retrying...");
              _ ← sleep 2000;
              retry_loop rt func max_retries rest
            else raise e
        end)
  end.

Definition retry_on_error (rt : runtime) (func : M json) : M json :=
  let max_retries := 3%nat in
  retry_loop rt func max_retries (seq 0 max_retries).

Definition get_photos (rt : runtime) (user_id : json) (per_page page : Z) : M json :=
  call rt (people_getPhotos user_id per_page page).

Definition get_photo_info (rt : runtime) (photo_id : json) : M json :=
  call rt (photos_getInfo photo_id).

Definition get_photo_comments (rt : runtime) (photo_id : json) : M json :=
  try_except (call rt (photos_comments_getList photo_id))
    (fun _ => mret (JDict [("comments", JDict [("comment", JList [])])])).

Definition get_photo_favorites (rt : runtime) (photo_id : json) : M json :=
  try_except (call rt (photos_getFavorites photo_id 500))
    (fun _ => mret (JDict [("photo", JDict [("person", JList [])])])).

Definition get_photo_exif (rt : runtime) (photo_id : json) : M json :=
  try_except (call rt (photos_getExif photo_id))
    (fun _ => mret (JDict [("photo", JDict [("exif", JList [])])])).

Definition get_photo_sizes (rt : runtime) (photo_id : json) : M json :=
  call rt (photos_getSizes photo_id).

Definition get_photo_geo (rt : runtime) (photo_id : json) : M json :=
  try_except (call rt (photos_geo_getLocation photo_id)) (fun _ => mret JNull).

Definition get_favorites (rt : runtime) (user_id : json) (per_page page : Z) : M json :=
  call rt (favorites_getList user_id per_page page).

Definition get_photo_stats (rt : runtime) (photo_id : json) : M json :=
  try_except (call rt (stats_getPhotoStats photo_id)) (fun _ => mret JNull).

Definition get_photo_contexts (rt : runtime) (photo_id : json) : M json :=
  try_except (call rt (photos_getAllContexts photo_id))
    (fun _ => mret (JDict [("set", JList [])])).

Definition get_photosets (rt : runtime) (user_id : json) : M json :=
  call rt (photosets_getList user_id 500).

Definition get_user_info (rt : runtime) (user_id : json) : M json :=
  try_except (call rt (people_getInfo user_id)) (fun _ => mret JNull).

(* ===================================================================== *)
(** ** downloader.py: files and the user cache *)
(* ===================================================================== *)

Definition RATE_DELAY : Z := 1200.    (* milliseconds *)

(** [p[:p.rfind('/') + 1]] *)
Fixpoint head_to_last_slash (p : string) : string :=
  match p with
  | EmptyString => EmptyString
  | String a p' =>
      if occurs "/" p' then String a (head_to_last_slash p')
      else if ascii_eqb a "/" then "/" else EmptyString
  end.

Fixpoint all_slash (s : string) : bool :=
  match s with
  | EmptyString => true
  | String a s' => ascii_eqb a "/" && all_slash s'
  end.

Fixpoint rstrip_slash (s : string) : string :=
  match s with
  | EmptyString => EmptyString
  | String a s' => if all_slash s then EmptyString else String a (rstrip_slash s')
  end.

(** [os.path.dirname] *)
Definition dirname (p : string) : string :=
  let head := head_to_last_slash p in
  if negb (String.eqb head "") && negb (all_slash head) then rstrip_slash head else head.

(** The directories [os.makedirs(d)] makes sure exist: [d] and its parents. *)
Fixpoint parents (pre d : string) : list string :=
  match d with
  | EmptyString => [pre]
  | String a d' =>
      (if ascii_eqb a "/" && negb (String.eqb pre "") then [pre] else [])
        ++ parents (pre +:+ String a EmptyString) d'
  end.

(** [os.makedirs(d, exist_ok=True)] *)
Definition makedirs (rt : runtime) (d : string) : M unit :=
  if String.eqb d "" then raise FileNotFoundError
  else
    t ← tick;
    match disk rt t d with
    | DiskOk => add_dirs (parents "" d)
    | _ => raise OSError
    end.

(** [with open(path, 'w') as f: f.write(c)] *)
Definition open_write (rt : runtime) (path : string) (c : nat -> content) : M unit :=
  _ ← emit (EvWrite path);
  t ← tick;
  match disk rt t path with
  | DiskOk => set_file path (c t)
  | DiskRefused => raise OSError
  | DiskCut => _ ← set_file path CPartial; raise OSError
  end.

(** [os.path.exists] *)
Definition path_exists (path : string) : M bool := fun w =>
  (Ok (bool_decide (is_Some (files w !! path)) || bool_decide (path ∈ dirs w)), w).

Definition save_json (rt : runtime) (data : json) (path : string) : M unit :=
  _ ← makedirs rt (dirname path);
  open_write rt path (fun _ => CJson data).

(** Lines 72-84.  [requests.get] and [raise_for_status] come first and may
    raise before anything is touched; the file is then opened and the chunks
    written as they arrive, so a connection that breaks in the middle of the
    body leaves the file with the part received. *)
Definition download_photo (rt : runtime) (url : json) (path : string) : M bool :=
  try_except
    (response ← match url with
                | JStr u => _ ← emit (EvHttpGet u); t ← tick; lift (http_get rt t u)
                | _ => raise (Exception_ "Invalid URL")
                end;
     _ ← makedirs rt (dirname path);
     _ ← open_write rt path (fun _ => CBytes (received_of response));
     match response with
     | Whole _ => mret true
     | Broken _ e => raise e
     end)
    (fun e =>
       _ ← print ("  Error downloading photo: " +:+ exn_text rt e);
       mret false).

(** Keys of [USER_CACHE]: lists and dicts are unhashable. *)
Definition hashable (v : json) : bool :=
  match v with JList _ | JDict _ => false | _ => true end.

Definition key_eqb (a b : json) : bool :=
  match a, b with
  | JNull, JNull => true
  | JStr s, JStr t => String.eqb s t
  | JInt x, JInt y => Z.eqb x y
  | JBool x, JBool y => Bool.eqb x y
  | JInt x, JBool y | JBool y, JInt x => Z.eqb x (if y then 1 else 0)
  | _, _ => false
  end.

Fixpoint cache_find (k : json) (c : list (json * json)) : option json :=
  match c with
  | [] => None
  | (k', v) :: c' => if key_eqb k k' then Some v else cache_find k c'
  end.

Definition cache_lookup (k : json) : M (option json) := fun w =>
  if hashable k then (Ok (cache_find k (USER_CACHE w)), w) else (Raise TypeError, w).

Definition placeholder_avatar : string := "https://www.flickr.com/images/buddyicon.gif".

Definition get_cached_user_info (rt : runtime) (user_id : json) : M json :=
  hit ← cache_lookup user_id;
  match hit with
  | Some entry => mret entry
  | None =>
      user_info ← get_user_info rt user_id;
      has_person ← lift (if truthy user_info then contains "person" user_info else Ok false);
      entry ← lift (
        if (has_person : bool) then
          person ← sub "person" user_info;
          iconserver ← get "iconserver" (JStr "0") person;
          iconfarm ← get "iconfarm" (JStr "1") person;
          nsid ← get "nsid" (JStr "") person;
          has_icon ← (if truthy iconserver
                      then n ← py_int iconserver; Ok (Z.ltb 0 n) else Ok false);
          let avatar_url :=
            if (has_icon : bool) then
              "https://farm" +:+ py_str rt iconfarm +:+ ".staticflickr.com/" +:+
              py_str rt iconserver +:+ "/buddyicons/" +:+ py_str rt nsid +:+ ".jpg"
            else placeholder_avatar in
          realname ← get "realname" (JDict []) person >>> get "_content" (JStr "");
          username ← get "username" (JDict []) person >>> get "_content" (JStr "");
          let display_name := if truthy realname then realname else username in
          is_pro ← get "ispro" (JInt 0) person;
          profile_url ← get "profileurl" (JDict []) person >>> get "_content" (JStr "");
          Ok (JDict [("display_name", display_name); ("username", username);
                     ("realname", realname); ("avatar_url", JStr avatar_url);
                     ("is_pro", is_pro); ("profile_url", profile_url)])
        else
          Ok (JDict [("display_name", user_id); ("username", user_id);
                     ("realname", JStr ""); ("avatar_url", JStr placeholder_avatar);
                     ("is_pro", JInt 0);
                     ("profile_url",
                      JStr ("https://www.flickr.com/people/" +:+ py_str rt user_id +:+ "/"))]));
      _ ← cache_put user_id entry;
      mret entry
  end.

(* ===================================================================== *)
(** ** downloader.py: [process_photo] *)
(* ===================================================================== *)

(** [sorted(l, key=..., reverse=True)]: descending and stable. *)
Fixpoint insert_desc (x : Z * json) (l : list (Z * json)) : list (Z * json) :=
  match l with
  | [] => [x]
  | y :: l' => if fst y <=? fst x then x :: y :: l' else y :: insert_desc x l'
  end.

Definition sort_desc (l : list (Z * json)) : list (Z * json) :=
  foldr insert_desc [] l.

Definition sorted_by (key : json -> result Z) (l : list json) : result (list json) :=
  keyed ← mapR (fun s => k ← key s; Ok (k, s)) l;
  Ok (map snd (sort_desc keyed)).

(** [lambda s: int(s.get('width') or 0)] (video branch) *)
Definition poster_key (s : json) : result Z :=
  w ← get1 "width" s;
  py_int (if truthy w then w else JInt 0).

(** [lambda s: int(s.get('width', 0))] (photo branch) *)
Definition width_key (s : json) : result Z :=
  w ← get "width" (JInt 0) s;
  py_int w.

(** [x.get(k, {}).get('_content', dflt)] *)
Definition get_content (k : string) (dflt : json) (x : json) : result json :=
  get k (JDict []) x >>> get "_content" dflt.

(** The dict literal bound to [metadata]. *)
Definition build_metadata (rt : runtime) (photo_id : json) (info : json) : result json :=
  p ← sub "photo" info;
  title ← get_content "title" (JStr "") p;
  description ← get_content "description" (JStr "") p;
  date_uploaded ← get "dateuploaded" (JStr "") p;
  du ← get1 "dateuploaded" p;
  formatted ← (if truthy du
               then ts ← (get "dateuploaded" (JInt 0) p >>> py_int);
                    JStr <$> fromtimestamp_iso rt ts
               else Ok JNull);
  date_taken ← (get "dates" (JDict []) p >>> get "taken" (JStr ""));
  tags ← (get "tags" (JDict []) p >>> get "tag" (JList []) >>> iter >>> mapR (sub "raw"));
  views ← (get "views" (JInt 0) p >>> py_int);
  owner ← get "owner" (JDict []) p;
  urls ← (get "urls" (JDict []) p >>> get "url" (JList []));
  media ← get "media" (JStr "photo") p;
  sviews ← (get "views" (JInt 0) p >>> py_int);
  scomments ← (get_content "comments" (JInt 0) p >>> py_int);
  sfavorites ← (get "isfavorite" (JInt 0) p >>> py_int);
  Ok (JDict [("id", photo_id); ("title", title); ("description", description);
             ("date_uploaded", date_uploaded); ("date_uploaded_formatted", formatted);
             ("date_taken", date_taken); ("tags", JList tags); ("views", JInt views);
             ("owner", owner); ("urls", urls); ("location", JNull); ("media", media);
             ("stats", JDict [("views", JInt sviews); ("comments", JInt scomments);
                              ("favorites", JInt sfavorites)])]).

(** [metadata[k] = v] *)
Definition set_key (k : string) (v : json) (metadata : json) : json :=
  match metadata with
  | JDict d => JDict (assoc_set k v d)
  | other => other
  end.

(** Lines 129-140: the geolocation lookup. *)
Definition add_location (rt : runtime) (photo_id : json) (metadata : json) : M json :=
  geo_data ← get_photo_geo rt photo_id;
  present ← lift (if truthy geo_data then contains "photo" geo_data else Ok false);
  if (present : bool) then
    lift (loc ← (sub "photo" geo_data >>> sub "location");
          latitude ← get1 "latitude" loc;
          longitude ← get1 "longitude" loc;
          accuracy ← get1 "accuracy" loc;
          locality ← get "locality" (JDict []) loc;
          county ← get "county" (JDict []) loc;
          region ← get "region" (JDict []) loc;
          country ← get "country" (JDict []) loc;
          Ok (set_key "location"
                (JDict [("latitude", latitude); ("longitude", longitude);
                        ("accuracy", accuracy); ("locality", locality);
                        ("county", county); ("region", region); ("country", country)])
                metadata))
  else mret metadata.

Definition album_of (photoset : json) : result json :=
  id ← get1 "id" photoset;
  title ← get1 "title" photoset;
  primary ← get1 "primary" photoset;
  secret ← get1 "secret" photoset;
  server ← get1 "server" photoset;
  farm ← get1 "farm" photoset;
  Ok (JDict [("id", id); ("title", title); ("primary", primary);
             ("secret", secret); ("server", server); ("farm", farm)]).

(** Lines 142-155: album memberships. *)
Definition add_albums (rt : runtime) (photo_id : json) (metadata : json) : M json :=
  contexts ← get_photo_contexts rt photo_id;
  albums ← lift (has_set ← contains "set" contexts;
                 if (has_set : bool)
                 then sub "set" contexts >>> iter >>> mapR album_of
                 else Ok []);
  mret (set_key "albums" (JList albums) metadata).

Definition comment_of (rt : runtime) (comment : json) : M json :=
  author_id ← lift (get1 "author" comment);
  comment_obj ← lift (
    id ← get1 "id" comment;
    author_name ← get1 "authorname" comment;
    date_created ← get1 "datecreate" comment;
    permalink ← get1 "permalink" comment;
    text ← get "_content" (JStr "") comment;
    Ok (JDict [("id", id); ("author", author_id); ("author_name", author_name);
               ("date_created", date_created); ("permalink", permalink);
               ("text", text)]));
  if truthy author_id then
    user_info ← get_cached_user_info rt author_id;
    lift (avatar ← sub "avatar_url" user_info;
          is_pro ← sub "is_pro" user_info;
          display_name ← sub "display_name" user_info;
          Ok (set_key "author_display_name" display_name
                (set_key "author_is_pro" is_pro
                   (set_key "author_avatar_url" avatar comment_obj))))
  else mret comment_obj.

(** Lines 163-186. *)
Definition archive_comments (rt : runtime) (photo_id : json) (photo_dir : string) : M unit :=
  comments_data ← get_photo_comments rt photo_id;
  raw ← lift (has ← contains "comments" comments_data;
              has' ← (if (has : bool)
                      then sub "comments" comments_data >>> contains "comment"
                      else Ok false);
              if (has' : bool)
              then sub "comments" comments_data >>> sub "comment" >>> iter
              else Ok []);
  comments ← mapM (comment_of rt) raw;
  save_json rt (JList comments) (path_join photo_dir "comments.json").

Definition favorite_of (rt : runtime) (person : json) : M json :=
  nsid ← lift (get1 "nsid" person);
  fav_obj ← lift (
    username ← get1 "username" person;
    favedate ← get1 "favedate" person;
    Ok (JDict [("nsid", nsid); ("username", username); ("favedate", favedate)]));
  if truthy nsid then
    user_info ← get_cached_user_info rt nsid;
    lift (display_name ← sub "display_name" user_info;
          realname ← sub "realname" user_info;
          avatar ← sub "avatar_url" user_info;
          is_pro ← sub "is_pro" user_info;
          profile_url ← sub "profile_url" user_info;
          Ok (set_key "profile_url" profile_url
                (set_key "is_pro" is_pro
                   (set_key "avatar_url" avatar
                      (set_key "realname" realname
                         (set_key "display_name" display_name fav_obj))))))
  else mret fav_obj.

(** Lines 188-210. *)
Definition archive_favorites (rt : runtime) (photo_id : json) (photo_dir : string) : M unit :=
  faves_data ← get_photo_favorites rt photo_id;
  raw ← lift (has ← contains "photo" faves_data;
              has' ← (if (has : bool)
                      then sub "photo" faves_data >>> contains "person"
                      else Ok false);
              if (has' : bool)
              then sub "photo" faves_data >>> sub "person" >>> iter
              else Ok []);
  favorites ← mapM (favorite_of rt) raw;
  save_json rt (JList favorites) (path_join photo_dir "favorites.json").

Definition exif_of (item : json) : result json :=
  tag ← get1 "tag" item;
  label ← get1 "label" item;
  raw ← get_content "raw" (JStr "") item;
  Ok (JDict [("tag", tag); ("label", label); ("raw", raw)]).

(** Lines 212-222. *)
Definition archive_exif (rt : runtime) (photo_id : json) (photo_dir : string) : M unit :=
  exif_data ← get_photo_exif rt photo_id;
  exif ← lift (has ← contains "photo" exif_data;
               has' ← (if (has : bool)
                       then sub "photo" exif_data >>> contains "exif"
                       else Ok false);
               if (has' : bool)
               then sub "photo" exif_data >>> sub "exif" >>> iter >>> mapR exif_of
               else Ok []);
  save_json rt (JList exif) (path_join photo_dir "exif.json").

(** Lines 231-235: the photo-page URLs of a video. *)
Definition video_urls_of (p : json) : result (list json) :=
  has ← contains "urls" p;
  has' ← (if (has : bool) then sub "urls" p >>> contains "url" else Ok false);
  if (has' : bool) then
    urls ← sub "urls" p >>> sub "url" >>> iter;
    picked ← mapR (fun url =>
                     ty ← get1 "type" url;
                     if eq_str "photopage" ty
                     then c ← get1 "_content" url; Ok [c]
                     else Ok []) urls;
    Ok (concat picked)
  else Ok [].

(** Lines 227-268: the video branch; returns the augmented [metadata]. *)
Definition archive_video (rt : runtime) (photo_id : json) (photo_dir : string)
    (info metadata : json) : M json :=
  _ ← print "    This is a video - attempting to download";
  video_urls ← lift (sub "photo" info >>> video_urls_of);
  sizes ← get_photo_sizes rt photo_id;
  size_list ← lift (sub "sizes" sizes >>> sub "size");
  _ ← (if truthy size_list then
         sorted_sizes ← lift (iter size_list >>> sorted_by poster_key);
         match sorted_sizes with
         | thumb :: _ =>
             thumb_url ← lift (sub "source" thumb);
             ok ← download_photo rt thumb_url (path_join photo_dir "poster.jpg");
             if (ok : bool) then print "    Downloaded video poster frame" else mret tt
         | [] => mret tt
         end
       else mret tt);
  _ ← save_json rt
        (JDict [("is_video", JBool true); ("video_urls", JList video_urls);
                ("note", JStr "Videos must be downloaded manually from Flickr");
                ("all_sizes", size_list)])
        (path_join photo_dir "sizes.json");
  mret (set_key "video_info"
          (JDict [("download_note", JStr "Video file must be downloaded manually from Flickr");
                  ("flickr_urls", JList video_urls)])
          metadata).

(** Lines 275-278: [for size in ...: if size['label'] == 'Original': ...; break] *)
Fixpoint find_original (l : list json) : result (option json) :=
  match l with
  | [] => Ok None
  | size :: l' =>
      label ← sub "label" size;
      if eq_str "Original" label then Ok (Some size) else find_original l'
  end.

(** [bool(original)], where [original] may still be [None] *)
Definition truthy_opt (original : option json) : bool :=
  match original with Some o => truthy o | None => false end.

(** Lines 272-287: which size the photo branch downloads. *)
Definition select_original (size_list : json) : result (option json) :=
  items ← iter size_list;
  original ← find_original items;
  if negb (truthy_opt original) && truthy size_list then
    sorted_sizes ← sorted_by width_key items;
    Ok (head sorted_sizes)
  else Ok original.

Definition allowed_ext : list string := ["jpg"; "jpeg"; "png"; "gif"].

(** Lines 292-294. *)
Definition file_ext (photo_url : string) : string :=
  let ext := first_piece "?" (last_piece "." photo_url) in
  if existsb (String.eqb ext) allowed_ext then ext else "jpg".

(** Lines 270-304: the photo branch. *)
Definition archive_original (rt : runtime) (photo_id : json) (photo_dir : string) : M unit :=
  sizes ← get_photo_sizes rt photo_id;
  size_list ← lift (sub "sizes" sizes >>> sub "size");
  original ← lift (select_original size_list);
  match original with
  | Some o =>
      if truthy o then
        photo_url ← lift (sub "source" o);
        ext ← lift (match photo_url with
                    | JStr u => Ok (file_ext u)
                    | _ => Raise AttributeError
                    end);
        ok ← download_photo rt photo_url (path_join photo_dir ("original." +:+ ext));
        _ ← (if (ok : bool) then print "    Downloaded photo" else mret tt);
        save_json rt (JDict [("original", o); ("all_sizes", size_list)])
          (path_join photo_dir "sizes.json")
      else mret tt
  | None => mret tt
  end.

(** Lines 97-222: the records fetched for every photo, written as they come. *)
Definition archive_records (rt : runtime) (photo photo_id : json) (photo_dir : string)
    (is_favorite : bool) : M (json * json) :=
  _ ← print ("  Processing photo " +:+ py_str rt photo_id +:+ "...");
  info ← get_photo_info rt photo_id;
  metadata ← lift (build_metadata rt photo_id info);
  metadata ← lift (if is_favorite
                   then owner_name ← get "ownername" (JStr "") photo;
                        Ok (set_key "owner_name" owner_name metadata)
                   else Ok metadata);
  metadata ← add_location rt photo_id metadata;
  metadata ← add_albums rt photo_id metadata;
  _ ← save_json rt metadata (path_join photo_dir "metadata.json");
  _ ← archive_comments rt photo_id photo_dir;
  _ ← archive_favorites rt photo_id photo_dir;
  _ ← archive_exif rt photo_id photo_dir;
  mret (info, metadata).

(** Lines 224-304: the branch on the media kind. *)
Definition archive_media (rt : runtime) (photo_id : json) (photo_dir : string)
    (info metadata : json) : M unit :=
  media ← lift (sub "photo" info >>> get "media" (JStr "photo"));
  if eq_str "video" media then
    _ ← archive_video rt photo_id photo_dir info metadata; mret tt
  else archive_original rt photo_id photo_dir.

(** Lines 97-304: everything between the resumability check and the marker. *)
Definition archive_steps (rt : runtime) (photo photo_id : json) (photo_dir : string)
    (is_favorite : bool) : M unit :=
  '(info, metadata) ← archive_records rt photo photo_id photo_dir is_favorite;
  archive_media rt photo_id photo_dir info metadata.

(** Lines 306-308. *)
Definition write_marker (rt : runtime) (photo_dir : string) : M unit :=
  open_write rt (path_join photo_dir "complete.flag") (fun t => CText (now_iso rt t)).

Definition process_photo (rt : runtime) (photo : json) (base_dir : string)
    (is_favorite : bool) : M unit :=
  photo_id ← lift (sub "id" photo);
  _ ← sleep RATE_DELAY;
  photo_dir ← lift (match photo_id with
                    | JStr s => Ok (path_join base_dir s)
                    | _ => Raise TypeError
                    end);
  done ← path_exists (path_join photo_dir "complete.flag");
  if (done : bool) then
    print ("  Skipping " +:+ py_str rt photo_id +:+ " - already processed")
  else
    _ ← archive_steps rt photo photo_id photo_dir is_favorite;
    _ ← write_marker rt photo_dir;
    sleep 500.

(* ===================================================================== *)
(** ** downloader.py: the owned-photos walk *)
(* ===================================================================== *)

Definition DATA_DIR : string := "flickr_archive".
Definition PHOTOS_DIR : string := path_join DATA_DIR "my_photos".
Definition FAVORITES_DIR : string := path_join DATA_DIR "favorited_photos".

Fixpoint strip_prefix (p s : string) : option string :=
  match p, s with
  | EmptyString, _ => Some s
  | String a p', String b s' => if ascii_eqb a b then strip_prefix p' s' else None
  | String _ _, EmptyString => None
  end.

(** The name under which path [p] shows up in directory [d], if it does. *)
Definition entry_of (d p : string) : option string :=
  match strip_prefix (if ends_with_slash d then d else d +:+ "/") p with
  | Some rest => if String.eqb rest "" || occurs "/" rest then None else Some rest
  | None => None
  end.

(** [os.listdir] *)
Definition listdir (d : string) : M (list string) := fun w =>
  if bool_decide (d ∈ dirs w)
  then (Ok (omap (entry_of d) (elements (dirs w ∪ dom (files w)))), w)
  else (Raise FileNotFoundError, w).

(** [photo_id in processed_ids], a set of names *)
Definition in_names (photo_id : json) (processed_ids : list string) : result bool :=
  match photo_id with
  | JStr s => Ok (existsb (String.eqb s) processed_ids)
  | JList _ | JDict _ => Raise TypeError
  | _ => Ok false
  end.

(** [page >= v] for an [int] page *)
Definition py_ge (page : Z) (v : json) : result bool :=
  match v with
  | JInt z => Ok (z <=? page)
  | JBool b => Ok ((if b then 1 else 0) <=? page)
  | _ => Raise TypeError
  end.

(** Lines 329-335: [for i, photo in enumerate(photos, 1)]. *)
Fixpoint photo_loop (rt : runtime) (processed_ids : list string) (photos_data : json)
    (total_processed : Z) (i : Z) (photos : list json) : M unit :=
  match photos with
  | [] => mret tt
  | photo :: rest =>
      photo_id ← lift (sub "id" photo);
      seen ← lift (in_names photo_id processed_ids);
      _ ← (if (seen : bool) then mret tt
           else
             total ← lift (sub "photos" photos_data >>> sub "total");
             _ ← print ("[" +:+ pretty (total_processed + i) +:+ "/" +:+
                        py_str rt total +:+ "]");
             process_photo rt photo PHOTOS_DIR false);
      photo_loop rt processed_ids photos_data total_processed (i + 1) rest
  end.

(** Lines 319-341: [while True]; [None] when the fuel runs out first. *)
Fixpoint download_pages (rt : runtime) (fuel : nat) (processed_ids : list string)
    (page total_processed : Z) : M (option Z) :=
  match fuel with
  | O => mret None
  | S fuel' =>
      _ ← print ("Fetching page " +:+ pretty page +:+ "...");
      photos_data ← get_photos rt (USER_ID rt) 100 page;
      photos ← lift (sub "photos" photos_data >>> sub "photo");
      if negb (truthy photos) then mret (Some total_processed)
      else
        n ← lift (py_len photos);
        _ ← print ("Found " +:+ pretty n +:+ " photos on page " +:+ pretty page);
        items ← lift (iter photos);
        _ ← photo_loop rt processed_ids photos_data total_processed 1 items;
        pages ← lift (sub "photos" photos_data >>> sub "pages");
        stop ← lift (py_ge page pages);
        if (stop : bool) then mret (Some (total_processed + n))
        else download_pages rt fuel' processed_ids (page + 1) (total_processed + n)
  end.

Definition download_my_photos (rt : runtime) (fuel : nat) : M (option unit) :=
  _ ← print ("Downloading photos for user " +:+ py_str rt (USER_ID rt));
  processed_ids ← listdir PHOTOS_DIR;
  r ← download_pages rt fuel processed_ids 1 0;
  match r with
  | Some total_processed =>
      _ ← print ("Completed downloading " +:+ pretty total_processed +:+ " photos");
      mret (Some tt)
  | None => mret None
  end.

(* ===================================================================== *)
(** ** downloader.py: the favorites walk, the index and the entry point *)
(* ===================================================================== *)

(** Lines 362-364: every listed favorite goes through [process_photo]. *)
Fixpoint favorite_loop (rt : runtime) (faves_data : json)
    (total_processed : Z) (i : Z) (photos : list json) : M unit :=
  match photos with
  | [] => mret tt
  | photo :: rest =>
      total ← lift (sub "photos" faves_data >>> sub "total");
      _ ← print ("[Fav " +:+ pretty (total_processed + i) +:+ "/" +:+
                 py_str rt total +:+ "]");
      _ ← process_photo rt photo FAVORITES_DIR true;
      favorite_loop rt faves_data total_processed (i + 1) rest
  end.

(** Lines 352-370: [while True]; [None] when the fuel runs out first. *)
Fixpoint favorite_pages (rt : runtime) (fuel : nat) (page total_processed : Z)
    : M (option Z) :=
  match fuel with
  | O => mret None
  | S fuel' =>
      _ ← print ("Fetching favorites page " +:+ pretty page +:+ "...");
      faves_data ← get_favorites rt (USER_ID rt) 100 page;
      photos ← lift (sub "photos" faves_data >>> sub "photo");
      if negb (truthy photos) then mret (Some total_processed)
      else
        n ← lift (py_len photos);
        _ ← print ("Found " +:+ pretty n +:+ " favorites on page " +:+ pretty page);
        items ← lift (iter photos);
        _ ← favorite_loop rt faves_data total_processed 1 items;
        pages ← lift (sub "photos" faves_data >>> sub "pages");
        stop ← lift (py_ge page pages);
        if (stop : bool) then mret (Some (total_processed + n))
        else favorite_pages rt fuel' (page + 1) (total_processed + n)
  end.

Definition download_favorites (rt : runtime) (fuel : nat) : M (option unit) :=
  _ ← print ("Downloading favorited photos for user " +:+ py_str rt (USER_ID rt));
  r ← favorite_pages rt fuel 1 0;
  match r with
  | Some total_processed =>
      _ ← print ("Completed downloading " +:+ pretty total_processed +:+
                 " favorited photos");
      mret (Some tt)
  | None => mret None
  end.

(** [json.load] on what a file holds; [loads] parses text.  A dump that was
    cut short does not parse. *)
Definition json_load (loads : string -> result json) (c : content) : result json :=
  match c with
  | CJson j => Ok j
  | CBytes s | CText s => loads s
  | CPartial => Raise ValueError
  end.

(** What the file at [path] parses to; there may be no such file. *)
Definition load_file (loads : string -> result json) (path : string) : M json := fun w =>
  match files w !! path with
  | Some c => (json_load loads c, w)
  | None => (Raise OSError, w)
  end.

(** [with open(path, 'r') as f: json.load(f)] *)
Definition read_json (rt : runtime) (loads : string -> result json) (path : string)
    : M json :=
  t ← tick;
  match disk rt t path with
  | DiskOk => load_file loads path
  | _ => raise OSError
  end.

(** The summary of an owned photo (lines 386-395). *)
Definition photo_summary (photo_id : string) (metadata : json) : result json :=
  title ← get "title" (JStr "") metadata;
  date_taken ← get "date_taken" (JStr "") metadata;
  date_uploaded ← get "date_uploaded" (JStr "") metadata;
  tags ← get "tags" (JList []) metadata;
  media ← get "media" (JStr "photo") metadata;
  views ← get "views" (JInt 0) metadata;
  albums ← get "albums" (JList []) metadata;
  Ok (JDict [("id", JStr photo_id); ("title", title); ("date_taken", date_taken);
             ("date_uploaded", date_uploaded); ("tags", tags); ("media", media);
             ("views", views); ("albums", albums)]).

(** The summary of a favorite (lines 407-413). *)
Definition favorite_summary (photo_id : string) (metadata : json) : result json :=
  title ← get "title" (JStr "") metadata;
  owner_name ← get "owner_name" (JStr "") metadata;
  date_taken ← get "date_taken" (JStr "") metadata;
  tags ← get "tags" (JList []) metadata;
  Ok (JDict [("id", JStr photo_id); ("title", title); ("owner_name", owner_name);
             ("date_taken", date_taken); ("tags", tags)]).

(** [for photo_id in os.listdir(base_dir)]: one summary per subdirectory that
    holds a metadata file. *)
Fixpoint index_loop (rt : runtime) (loads : string -> result json)
    (summary : string -> json -> result json) (base_dir : string)
    (names : list string) : M (list json) :=
  match names with
  | [] => mret []
  | photo_id :: rest =>
      let metadata_path := path_join (path_join base_dir photo_id) "metadata.json" in
      there ← path_exists metadata_path;
      if (there : bool) then
        metadata ← read_json rt loads metadata_path;
        entry ← lift (summary photo_id metadata);
        entries ← index_loop rt loads summary base_dir rest;
        mret (entry :: entries)
      else index_loop rt loads summary base_dir rest
  end.

(** [if os.path.exists(base_dir): for photo_id in os.listdir(base_dir): ...] *)
Definition index_of (rt : runtime) (loads : string -> result json)
    (summary : string -> json -> result json) (base_dir : string) : M (list json) :=
  there ← path_exists base_dir;
  if (there : bool) then
    names ← listdir base_dir;
    index_loop rt loads summary base_dir names
  else mret [].

(** One entry of the albums index (lines 424-435). *)
Definition album_info (album : json) : result json :=
  id ← get1 "id" album;
  title ← get_content "title" (JStr "") album;
  description ← get_content "description" (JStr "") album;
  primary ← get1 "primary" album;
  photos ← get1 "photos" album;
  videos ← get1 "videos" album;
  count_photos ← get1 "count_photos" album;
  count_videos ← get1 "count_videos" album;
  date_create ← get1 "date_create" album;
  date_update ← get1 "date_update" album;
  Ok (JDict [("id", id); ("title", title); ("description", description);
             ("primary", primary); ("photos", photos); ("videos", videos);
             ("count_photos", count_photos); ("count_videos", count_videos);
             ("date_create", date_create); ("date_update", date_update)]).

(** The key of a [USER_CACHE] entry as [json.dump] writes it. *)
Definition key_text (rt : runtime) (k : json) : string :=
  match k with
  | JBool true => "true"
  | JBool false => "false"
  | JNull => "null"
  | other => py_str rt other
  end.

Definition cache_json (rt : runtime) (cache : list (json * json)) : json :=
  JDict (map (fun kv => (key_text rt (fst kv), snd kv)) cache).

Definition read_cache : M (list (json * json)) := fun w => (Ok (USER_CACHE w), w).

(** Lines 374-445. *)
Definition create_index (rt : runtime) (loads : string -> result json) : M unit :=
  _ ← print "Creating index files...";
  my_photos_index ← index_of rt loads photo_summary PHOTOS_DIR;
  _ ← save_json rt (JList my_photos_index) (path_join DATA_DIR "my_photos_index.json");
  favorites_index ← index_of rt loads favorite_summary FAVORITES_DIR;
  _ ← save_json rt (JList favorites_index) (path_join DATA_DIR "favorites_index.json");
  _ ← print "Creating albums index...";
  albums_data ← get_photosets rt (USER_ID rt);
  albums_index ← lift (
    has ← contains "photosets" albums_data;
    has' ← (if (has : bool)
            then sub "photosets" albums_data >>> contains "photoset"
            else Ok false);
    if (has' : bool)
    then sub "photosets" albums_data >>> sub "photoset" >>> iter >>> mapR album_info
    else Ok []);
  _ ← save_json rt (JList albums_index) (path_join DATA_DIR "albums_index.json");
  _ ← print ("Created index for " +:+ pretty (Z.of_nat (length my_photos_index)) +:+
             " photos, " +:+ pretty (Z.of_nat (length favorites_index)) +:+
             " favorites, and " +:+ pretty (Z.of_nat (length albums_index)) +:+ " albums");
  cache ← read_cache;
  match cache with
  | [] => mret tt
  | _ :: _ =>
      _ ← save_json rt (cache_json rt cache) (path_join DATA_DIR "users_cache.json");
      print ("Saved info for " +:+ pretty (Z.of_nat (length cache)) +:+
             " users to users_cache.json")
  end.

(** Lines 447-461: the entry point.  [None] when a walk ran out of fuel. *)
Definition main (rt : runtime) (loads : string -> result json) (fuel : nat)
    : M (option unit) :=
  _ ← print "Flickr Archive Downloader";
  _ ← print "==================================================";
  _ ← makedirs rt PHOTOS_DIR;
  _ ← makedirs rt FAVORITES_DIR;
  mine ← download_my_photos rt fuel;
  match mine with
  | None => mret None
  | Some _ =>
      faves ← download_favorites rt fuel;
      match faves with
      | None => mret None
      | Some _ =>
          _ ← create_index rt loads;
          _ ← print "Archive complete!";
          _ ← print ("Data saved to: " +:+ DATA_DIR);
          mret (Some tt)
      end
  end.

(* ===================================================================== *)
(** ** Vocabulary of the properties *)
(* ===================================================================== *)

(* --------------------------------------------------------------------- *)
(** *** The file extension, in the spec's words *)

(** [s.split(c, 1)[1]], or empty when [c] does not occur *)
Fixpoint rest_after (c : ascii) (s : string) : string :=
  match s with
  | EmptyString => EmptyString
  | String a s' => if ascii_eqb a c then s' else rest_after c s'
  end.

Definition constrain_ext (ext : string) : string :=
  if existsb (String.eqb ext) allowed_ext then ext else "jpg".

(** Following the spec's words: the extension of the URL's final path
    segment once the query string is stripped, [jpg] when that segment has
    no extension or one outside the allowed set. *)
Definition spec_ext (url : string) : string :=
  let segment := last_piece "/" (first_piece "?" url) in
  if occurs "." segment then constrain_ext (last_piece "." segment) else "jpg".

(* --------------------------------------------------------------------- *)
(** *** Sizes *)

(** The width a size entry declares, read off the entry itself and not
    through the code's sort key: 0 when the entry has no [width], the
    integer when it is one, and [z] when it is the decimal numeral of [z],
    as [pretty] prints it, no longer than the longest literal [int()]
    converts. *)
Definition declared_width (s : json) (z : Z) : Prop :=
  match s with
  | JDict d =>
      match assoc "width" d with
      | None => z = 0
      | Some (JInt w) => w = z
      | Some (JStr t) => t = pretty z /\ (String.length t <= MAX_STR_DIGITS)%nat
      | Some _ => False
      end
  | _ => False
  end.

(** A size entry that carries a label, and not the label [Original]. *)
Definition other_label (s : json) : Prop :=
  exists l, sub "label" s = Ok l /\ l <> JStr "Original".

(** A printable character that occurs in no integer literal: anything from
    [!] to [~] but the digits, the two signs and the underscore. *)
Definition foreign_char (a : ascii) : bool :=
  let n := nat_of_ascii a in
  (33 <=? n)%nat && (n <=? 126)%nat &&
  negb ((48 <=? n)%nat && (n <=? 57)%nat) &&
  negb (ascii_eqb a "+") && negb (ascii_eqb a "-") && negb (ascii_eqb a "_").

Fixpoint has_foreign (s : string) : bool :=
  match s with
  | EmptyString => false
  | String a s' => foreign_char a || has_foreign s'
  end.

(** A string that is no numeral: it is empty, or has a letter, a dot or
    another such character in it. *)
Definition non_numeric (t : string) : Prop := t = "" \/ has_foreign t = true.

(** A width [int()] has no reading for: [None], or a string that is no
    numeral. *)
Definition unreadable_width (d : list (string * json)) : Prop :=
  assoc "width" d = Some JNull \/
  exists t, assoc "width" d = Some (JStr t) /\ non_numeric t.

Fixpoint all_digits (s : string) : bool :=
  match s with
  | EmptyString => true
  | String a s' => bool_decide (is_Some (digit_of a)) && all_digits s'
  end.

(** The order [sorted(..., reverse=True)] establishes on keyed elements. *)
Definition desc (a b : Z * json) : Prop := fst b <= fst a.

(* --------------------------------------------------------------------- *)
(** *** The retry policy, traces and worlds *)

(** The failures [wrapper] answers with another attempt. *)
Definition retryable (o : result json) : bool :=
  match o with
  | Ok _ => false
  | Raise (FlickrError msg) => transient msg
  | Raise _ => true
  end.

(** The pause before the attempt that follows attempt number [attempt]. *)
Definition backoff (attempt : nat) (o : result json) : Z :=
  match o with
  | Raise (FlickrError _) => (Z.of_nat attempt + 1) * 5 * 1000
  | _ => 2000
  end.

Definition retry_message (rt : runtime) (attempt : nat) (e : exn) : string :=
  match e with
  | FlickrError _ =>
      "  API temporarily unavailable, waiting " +:+
      pretty ((Z.of_nat attempt + 1) * 5) +:+ " seconds..."
  | _ => "  Error: " +:+ exn_text rt e +:+ ", retrying..."
  end.

Definition sleeps_of (es : list event) : list Z :=
  omap (fun e => match e with EvSleep ms => Some ms | _ => None end) es.

Definition calls_of (es : list event) : list request :=
  omap (fun e => match e with EvCall r => Some r | _ => None end) es.

Definition writes_of (es : list event) : list string :=
  omap (fun e => match e with EvWrite p => Some p | _ => None end) es.

Definition gets_of (es : list event) : list string :=
  omap (fun e => match e with EvHttpGet u => Some u | _ => None end) es.

(** The world once more events have been appended and the clock advanced. *)
Definition advance (ticks : nat) (es : list event) (w : world) : world :=
  World (files w) (dirs w) (USER_CACHE w) (ticks + clock w) (trace w ++ es).

(** The world once [path] holds [c]. *)
Definition with_file (path : string) (c : content) (w : world) : world :=
  World (<[path := c]> (files w)) (dirs w) (USER_CACHE w) (clock w) (trace w).

(* --------------------------------------------------------------------- *)
(** *** Footprints *)

(** [touches ps http e]: if [e] is a write, it is to a path of [ps]; if it is
    a download, [http] allows it. *)
Definition touches (ps : list string) (http : bool) (e : event) : Prop :=
  match e with
  | EvWrite p => In p ps
  | EvHttpGet _ => http = true
  | EvSleep _ | EvPrint _ | EvCall _ => True
  end.

(** [confined allowed must m]: whatever [m] returns, it only appends
    events that are [allowed], it leaves alone every file it is not allowed
    to write, and when it returns normally the events of [must] have
    happened, in this order. *)
Definition confined {A} (allowed : event -> Prop) (must : list event) (m : M A) : Prop :=
  forall w, exists es,
    trace (snd (m w)) = trace w ++ es /\
    Forall allowed es /\
    (forall q, ~ allowed (EvWrite q) -> files (snd (m w)) !! q = files w !! q) /\
    (is_ok (fst (m w)) = true -> sublist must es).

(** The files of one photo's archive unit. *)
Definition record_paths (photo_dir : string) : list string :=
  [path_join photo_dir "metadata.json"; path_join photo_dir "comments.json";
   path_join photo_dir "favorites.json"; path_join photo_dir "exif.json"].

Definition media_paths (photo_dir : string) : list string :=
  path_join photo_dir "sizes.json" :: path_join photo_dir "poster.jpg" ::
  map (fun ext => path_join photo_dir ("original." +:+ ext)) allowed_ext.

(** The expected order of the pipeline's landmarks before the marker. *)
Definition landmarks (photo_id : json) (photo_dir : string) : list event :=
  (EvWrite <$> record_paths photo_dir) ++ [EvCall (photos_getSizes photo_id)].

(* --------------------------------------------------------------------- *)
(** *** Archive state *)

(** A photo whose completion marker file exists under [base_dir]. *)
Definition completed (base_dir : string) (fs : gmap string content) (photo : json) : Prop :=
  exists pid c,
    sub "id" photo = Ok (JStr pid) /\
    fs !! path_join (path_join base_dir pid) "complete.flag" = Some c.

(** No completion marker under [base_dir] for photo [pid]: [process_photo]
    will not skip it. *)
Definition unarchived (base_dir pid : string) (w : world) : Prop :=
  files w !! path_join (path_join base_dir pid) "complete.flag" = None /\
  path_join (path_join base_dir pid) "complete.flag" ∉ dirs w.

(** Pauses, log lines and page listings: what a walk over photos that are
    all archived may still do. *)
Definition listing_only (e : event) : Prop :=
  match e with
  | EvSleep _ | EvPrint _ | EvCall (people_getPhotos _ _ _) => True
  | _ => False
  end.

(** From any world holding the files [fs], [m] only advances the clock and
    appends listing events. *)
Definition listing_run {A} (fs : gmap string content) (m : M A) : Prop :=
  forall w, files w = fs ->
    exists n es, snd (m w) = advance n es w /\ Forall listing_only es.

(** [md'] agrees with [md] on every key outside [ks]. *)
Definition same_except (ks : list string) (md md' : json) : Prop :=
  forall k, ~ In k ks -> sub k md' = sub k md.

(** The stats sub-record the dict literal of [process_photo] builds from
    [info['photo']]: views, the comment count, and the [isfavorite] flag. *)
Definition stats_of (p : json) (stats : json) : Prop :=
  exists v c f,
    get "views" (JInt 0) p >>> py_int = Ok v /\
    get_content "comments" (JInt 0) p >>> py_int = Ok c /\
    get "isfavorite" (JInt 0) p >>> py_int = Ok f /\
    stats = JDict [("views", JInt v); ("comments", JInt c); ("favorites", JInt f)].

(** The entry [get_cached_user_info] stores for a user it cannot fetch. *)
Definition fallback_user (rt : runtime) (user_id : json) : json :=
  JDict [("display_name", user_id); ("username", user_id);
         ("realname", JStr ""); ("avatar_url", JStr placeholder_avatar);
         ("is_pro", JInt 0);
         ("profile_url",
          JStr ("https://www.flickr.com/people/" +:+ py_str rt user_id +:+ "/"))].

(* --------------------------------------------------------------------- *)
(** *** Sample inputs, for the concrete runs *)

Definition sample_size (label : string) (width : json) (source : string) : json :=
  JDict [("label", JStr label); ("width", width); ("source", JStr source)].

Definition sample_info (media : string) (isfavorite : Z) : json :=
  JDict [("photo", JDict [
    ("title", JDict [("_content", JStr "Sunset")]);
    ("dateuploaded", JStr "1500000000");
    ("views", JStr "42");
    ("media", JStr media);
    ("isfavorite", JInt isfavorite);
    ("comments", JDict [("_content", JStr "3")]);
    ("urls", JDict [("url", JList [JDict [
       ("type", JStr "photopage");
       ("_content", JStr "https://www.flickr.com/photos/u/1/")]])])])].

Definition sample_faves : json :=
  JDict [("photo", JDict [("person",
    JList [JDict [("nsid", JStr "u1")]; JDict [("nsid", JStr "u2")]])])].

(** A service that knows one photo, of the given media kind and sizes, which
    two users have favorited; every other lookup fails.  The disk and the
    network never fail. *)
Definition sample_rt (media : string) (sizes : json) : runtime := {|
  flickr := fun _ r =>
    match r with
    | photos_getInfo _ => Ok (sample_info media 0)
    | photos_getSizes _ => Ok (JDict [("sizes", JDict [("size", sizes)])])
    | photos_getFavorites _ _ => Ok sample_faves
    | _ => Raise (FlickrError "1: not found")
    end;
  http_get := fun _ _ => Ok (Whole "bytes");
  disk := fun _ _ => DiskOk;
  now_iso := fun _ => "2024-01-01T00:00:00";
  fromtimestamp_iso := fun _ => Ok "2017-07-14T02:40:00";
  exn_text := fun _ => "error";
  py_repr := fun _ => "";
  USER_ID := JStr "me" |}.

Definition sample_photo : json := JDict [("id", JStr "1")].

Definition empty_world : world := World ∅ ∅ [] 0 [].

(** A service that is unavailable on the first query and fine afterwards. *)
Definition flaky_rt (msg : string) : runtime := {|
  flickr := fun t _ =>
    match t with
    | O => Raise (FlickrError msg)
    | S _ => Ok (sample_info "photo" 0)
    end;
  http_get := fun _ _ => Ok (Whole "bytes");
  disk := fun _ _ => DiskOk;
  now_iso := fun _ => "2024-01-01T00:00:00";
  fromtimestamp_iso := fun _ => Ok "2017-07-14T02:40:00";
  exn_text := fun _ => "error";
  py_repr := fun _ => "";
  USER_ID := JStr "me" |}.

(** A service that lists one owned photo, on a single page. *)
Definition listing_rt : runtime := {|
  flickr := fun _ r =>
    match r with
    | people_getPhotos _ _ _ =>
        Ok (JDict [("photos", JDict [("photo", JList [sample_photo]);
                                     ("pages", JInt 1); ("total", JInt 1)])])
    | photos_getInfo _ => Ok (sample_info "photo" 0)
    | _ => Raise (FlickrError "1: not found")
    end;
  http_get := fun _ _ => Ok (Whole "bytes");
  disk := fun _ _ => DiskOk;
  now_iso := fun _ => "2024-01-01T00:00:00";
  fromtimestamp_iso := fun _ => Ok "2017-07-14T02:40:00";
  exn_text := fun _ => "error";
  py_repr := fun _ => "";
  USER_ID := JStr "me" |}.

(** An archive in which that photo is complete. *)
Definition archived_world : world :=
  World {[ path_join (path_join PHOTOS_DIR "1") "complete.flag" := CText "2023-12-31T10:00:00" ]}
        {[ DATA_DIR; PHOTOS_DIR; path_join PHOTOS_DIR "1" ]} [] 0 [].

(* --------------------------------------------------------------------- *)
(** *** The user cache *)

(** The fields every cached user entry is read for. *)
Definition user_fields : list string :=
  ["display_name"; "username"; "realname"; "avatar_url"; "is_pro"; "profile_url"].

Definition user_entry_ok (entry : json) : Prop :=
  Forall (fun k => is_ok (sub k entry) = true) user_fields.

(** [m] only appends entries to [USER_CACHE], each with all its fields. *)
Definition cache_grows {A} (m : M A) : Prop :=
  forall w, exists ext,
    USER_CACHE (snd (m w)) = USER_CACHE w ++ ext /\
    Forall (fun kv => user_entry_ok (snd kv)) ext.

(* --------------------------------------------------------------------- *)
(** *** Media kinds and the files of each *)

(** [info['photo'].get('media', 'photo') == 'video'] *)
Definition reported_video (info : json) : bool :=
  match sub "photo" info >>> get "media" (JStr "photo") with
  | Ok media => eq_str "video" media
  | Raise _ => false
  end.

Definition video_paths (photo_dir : string) : list string :=
  [path_join photo_dir "sizes.json"; path_join photo_dir "poster.jpg"].

Definition original_paths (photo_dir : string) : list string :=
  path_join photo_dir "sizes.json" ::
  map (fun ext => path_join photo_dir ("original." +:+ ext)) allowed_ext.

(** Everything a run of [process_photo] may write for a photo of the given
    kind. *)
Definition unit_paths (video : bool) (photo_dir : string) : list string :=
  record_paths photo_dir ++
  (if video then video_paths photo_dir else original_paths photo_dir) ++
  [path_join photo_dir "complete.flag"].

(* --------------------------------------------------------------------- *)
(** *** The walks *)

(** A listed photo whose directory already exists under [PHOTOS_DIR]. *)
Definition on_disk (ds : gset string) (photo : json) : Prop :=
  exists pid,
    sub "id" photo = Ok (JStr pid) /\ pid <> "" /\ occurs "/" pid = false /\
    path_join PHOTOS_DIR pid ∈ ds.

(** Log lines and page listings of the owned-photos walk. *)
Definition walk_only (e : event) : Prop :=
  match e with
  | EvPrint _ | EvCall (people_getPhotos _ _ _) => True
  | _ => False
  end.

(** Pauses, log lines and page listings of the favorites walk. *)
Definition favorites_listing_only (e : event) : Prop :=
  match e with
  | EvSleep _ | EvPrint _ | EvCall (favorites_getList _ _ _) => True
  | _ => False
  end.

(** The [k] consecutive page numbers from [first] on. *)
Definition page_numbers (first : Z) (k : nat) : list Z :=
  map (fun i => first + Z.of_nat i) (seq 0 k).

(** An archive interrupted while that photo was being processed: its
    directory exists, but holds no completion marker. *)
Definition interrupted_world : world :=
  World ∅ {[ DATA_DIR; PHOTOS_DIR; path_join PHOTOS_DIR "1" ]} [] 0 [].

(** From any world holding the files [fs], [m] only advances the clock and
    appends events that are [allowed]. *)
Definition frame_run {A} (allowed : event -> Prop) (fs : gmap string content)
    (m : M A) : Prop :=
  forall w, files w = fs ->
    exists n es, snd (m w) = advance n es w /\ Forall allowed es.

(** Pauses and log lines. *)
Definition pause_or_log (e : event) : Prop :=
  match e with
  | EvSleep _ | EvPrint _ => True
  | _ => False
  end.

(** An archive in which that photo is a completed favorite. *)
Definition favorites_world : world :=
  World {[ path_join (path_join FAVORITES_DIR "1") "complete.flag" :=
             CText "2023-12-31T10:00:00" ]}
        {[ DATA_DIR; FAVORITES_DIR; path_join FAVORITES_DIR "1" ]} [] 0 [].

(** A service that lists that one favorite, on a single page. *)
Definition favorites_rt : runtime := {|
  flickr := fun _ r =>
    match r with
    | favorites_getList _ _ _ =>
        Ok (JDict [("photos", JDict [("photo", JList [sample_photo]);
                                     ("pages", JInt 1); ("total", JInt 1)])])
    | _ => Raise (FlickrError "1: not found")
    end;
  http_get := fun _ _ => Ok (Whole "bytes");
  disk := fun _ _ => DiskOk;
  now_iso := fun _ => "2024-01-01T00:00:00";
  fromtimestamp_iso := fun _ => Ok "2017-07-14T02:40:00";
  exn_text := fun _ => "error";
  py_repr := fun _ => "";
  USER_ID := JStr "me" |}.

(* --------------------------------------------------------------------- *)
(** *** The index *)

Definition my_photos_index_path : string := path_join DATA_DIR "my_photos_index.json".
Definition favorites_index_path : string := path_join DATA_DIR "favorites_index.json".
Definition albums_index_path : string := path_join DATA_DIR "albums_index.json".
Definition users_cache_path : string := path_join DATA_DIR "users_cache.json".

Definition index_paths : list string :=
  [my_photos_index_path; favorites_index_path; albums_index_path; users_cache_path].

(** What [create_index] may do: log, list the user's albums, and open one
    of the four index files for writing. *)
Definition index_only (rt : runtime) (e : event) : Prop :=
  match e with
  | EvPrint _ => True
  | EvCall r => r = photosets_getList (USER_ID rt) 500
  | EvWrite p => In p index_paths
  | EvSleep _ | EvHttpGet _ => False
  end.

(** The metadata file of the photo stored under [base_dir] as [photo_id]. *)
Definition metadata_path (base_dir photo_id : string) : string :=
  path_join (path_join base_dir photo_id) "metadata.json".

(** An archive in which that photo's metadata dump was cut short. *)
Definition cut_world : world :=
  World {[ metadata_path PHOTOS_DIR "1" := CPartial ]}
        {[ DATA_DIR; PHOTOS_DIR; path_join PHOTOS_DIR "1" ]} [] 0 [].

(** [entry] is the summary of what the metadata file of [photo_id] parses
    to. *)
Definition summarises (loads : string -> result json)
    (summary : string -> json -> result json) (base_dir : string)
    (fs : gmap string content) (photo_id : string) (entry : json) : Prop :=
  exists c metadata,
    fs !! metadata_path base_dir photo_id = Some c /\
    json_load loads c = Ok metadata /\
    summary photo_id metadata = Ok entry.

(** [os.path.exists] of the metadata file, when it is a file. *)
Definition has_metadata (base_dir : string) (fs : gmap string content)
    (photo_id : string) : bool :=
  bool_decide (is_Some (fs !! metadata_path base_dir photo_id)).

(** An archive in which that photo has its metadata but no completion
    marker. *)
Definition unfinished_world : world :=
  World {[ metadata_path PHOTOS_DIR "1" := CJson (JDict [("title", JStr "Dawn")]) ]}
        {[ DATA_DIR; PHOTOS_DIR; path_join PHOTOS_DIR "1" ]} [] 0 [].

(** A service with nothing to list: no photos, no favorites, no albums. *)
Definition bare_rt : runtime := {|
  flickr := fun _ r =>
    match r with
    | people_getPhotos _ _ _ | favorites_getList _ _ _ =>
        Ok (JDict [("photos", JDict [("photo", JList []);
                                     ("pages", JInt 1); ("total", JInt 0)])])
    | photosets_getList _ _ => Ok (JDict [("photosets", JDict [("photoset", JList [])])])
    | _ => Raise (FlickrError "1: not found")
    end;
  http_get := fun _ _ => Ok (Whole "bytes");
  disk := fun _ _ => DiskOk;
  now_iso := fun _ => "2024-01-01T00:00:00";
  fromtimestamp_iso := fun _ => Ok "2017-07-14T02:40:00";
  exn_text := fun _ => "error";
  py_repr := fun _ => "";
  USER_ID := JStr "me" |}.

(* --------------------------------------------------------------------- *)
(** *** Comments and favorites *)

(** [entry] carries the fields of the listed [comment]. *)
Definition archived_comment (comment entry : json) : Prop :=
  sub "id" entry = get1 "id" comment /\
  sub "author" entry = get1 "author" comment /\
  sub "author_name" entry = get1 "authorname" comment /\
  sub "date_created" entry = get1 "datecreate" comment /\
  sub "permalink" entry = get1 "permalink" comment /\
  sub "text" entry = get "_content" (JStr "") comment.

(** [entry] carries the fields of the listed [person]. *)
Definition archived_favorite (person entry : json) : Prop :=
  sub "nsid" entry = get1 "nsid" person /\
  sub "username" entry = get1 "username" person /\
  sub "favedate" entry = get1 "favedate" person.

(** A service on which a photo has two comments, one of them anonymous. *)
Definition comments_rt : runtime := {|
  flickr := fun _ r =>
    match r with
    | photos_comments_getList _ =>
        Ok (JDict [("comments", JDict [("comment",
              JList [JDict [("id", JStr "c1"); ("author", JStr "u1");
                            ("authorname", JStr "Ann"); ("_content", JStr "Nice")];
                     JDict [("id", JStr "c2"); ("_content", JStr "Hm")]])])])
    | photos_getFavorites _ _ =>
        Ok (JDict [("photo", JDict [("person",
              JList [JDict [("nsid", JStr "u2"); ("username", JStr "bob")]])])])
    | _ => Raise (FlickrError "1: not found")
    end;
  http_get := fun _ _ => Ok (Whole "bytes");
  disk := fun _ _ => DiskOk;
  now_iso := fun _ => "2024-01-01T00:00:00";
  fromtimestamp_iso := fun _ => Ok "2017-07-14T02:40:00";
  exn_text := fun _ => "error";
  py_repr := fun _ => "";
  USER_ID := JStr "me" |}.

(* ===================================================================== *)
(** ** Properties: Python primitives *)
(* ===================================================================== *)

Example parse_int_ex :
  parse_int " 1_200 " = Some 1200 /\ parse_int "-7" = Some (-7) /\
  parse_int "abc" = None /\ parse_int "" = None /\ parse_int "1__0" = None /\
  parse_int "+ 5" = None /\ parse_int "5_" = None /\ parse_int "1.0" = None.
Proof. repeat split; reflexivity. Qed.

(** The separators U+001C to U+001F are not skipped, the Latin-1 spaces
    are. *)
Example parse_int_space_ex :
  parse_int (String (ascii_of_nat 28) "5") = None /\
  parse_int (String (ascii_of_nat 31) "5") = None /\
  parse_int (String (ascii_of_nat 11) "5") = Some 5 /\
  parse_int (String (ascii_of_nat 160) "5") = Some 5.
Proof. repeat split; reflexivity. Qed.

(** The digit limit: a literal of 4300 digits is read, with its sign and
    the white space around it; one of 4301 digits is not, leading zeros
    counting as digits. *)
Example parse_int_limit_ex :
  bool_decide (is_Some (parse_int (string_of_list_ascii (replicate 4300 "1"%char))))
  = true /\
  bool_decide (is_Some (parse_int (" -" +:+ string_of_list_ascii (replicate 4300 "1"%char)
                                   +:+ " ")))
  = true /\
  parse_int (string_of_list_ascii (replicate 4301 "1"%char)) = None /\
  parse_int (string_of_list_ascii (replicate 4301 "0"%char)) = None.
Proof. repeat split; vm_compute; reflexivity. Qed.

(* --------------------------------------------------------------------- *)
(** *** [int()] on decimal numerals *)

Lemma digit_not_space a : is_Some (digit_of a) -> is_space a = false.
Proof.
  destruct a as [[] [] [] [] [] [] [] []]; vm_compute; intros [? H]; done.
Qed.

Lemma digit_not_sign a :
  is_Some (digit_of a) -> Ascii.eqb a "-" = false /\ Ascii.eqb a "+" = false.
Proof.
  destruct a as [[] [] [] [] [] [] [] []]; vm_compute; intros [? H]; done.
Qed.

Lemma digit_of_pretty d :
  (d < 10)%N -> digit_of (pretty_N_char d) = Some (Z.of_N d).
Proof.
  intros Hd.
  assert (d = 0 \/ d = 1 \/ d = 2 \/ d = 3 \/ d = 4 \/ d = 5 \/ d = 6 \/ d = 7 \/
          d = 8 \/ d = 9)%N as H by lia.
  repeat destruct H as [->|H]; try reflexivity. by subst d.
Qed.

Lemma all_digits_lstrip t : all_digits t = true -> lstrip t = t.
Proof.
  destruct t as [|a t]; [done|]. cbn [all_digits lstrip].
  intros [Ha _]%andb_true_iff. apply bool_decide_eq_true in Ha.
  by rewrite (digit_not_space a Ha).
Qed.

Lemma all_digits_rstrip t : all_digits t = true -> rstrip t = t.
Proof.
  induction t as [|a t IH]; [done|]. cbn [all_digits].
  intros [Ha Ht]%andb_true_iff. apply bool_decide_eq_true in Ha.
  cbn [rstrip all_space]. rewrite (digit_not_space a Ha). cbn [andb].
  by rewrite IH.
Qed.

Lemma digit_count_length t : (digit_count t <= String.length t)%nat.
Proof.
  induction t as [|a t IH]; simpl; [lia|]. destruct (digit_of a); lia.
Qed.

(** The numeral of [x] is made of digits. *)
Lemma pretty_go_digits x s : all_digits s = true -> all_digits (pretty_N_go x s) = true.
Proof.
  revert s. induction (N.lt_wf_0 x) as [x _ IH]; intros s Hs.
  assert (x = 0 \/ 0 < x)%N as [->|Hx] by lia; [by rewrite pretty_N_go_0|].
  rewrite pretty_N_go_step by done. apply IH; [by apply N.div_lt|].
  cbn [all_digits]. rewrite Hs, andb_true_r. apply bool_decide_eq_true.
  rewrite digit_of_pretty by (by apply N.mod_lt). by eexists.
Qed.

(** Reading the numeral of [x] gives [x] back. *)
Lemma digits_val_pretty x st s :
  (0 < x)%N ->
  digits_val st 0 (pretty_N_go x s) = digits_val NDigit (Z.of_N x) s.
Proof.
  revert st s. induction (N.lt_wf_0 x) as [x _ IH]; intros st s Hx.
  rewrite pretty_N_go_step by done.
  assert (Hd : digit_of (pretty_N_char (x `mod` 10)) = Some (Z.of_N (x `mod` 10))).
  { apply digit_of_pretty. by apply N.mod_lt. }
  pose proof (N.div_mod x 10 ltac:(done)) as Hdm.
  destruct (N.eq_0_gt_0_cases (x `div` 10)) as [H0|Hpos].
  - rewrite H0, pretty_N_go_0. cbn [digits_val]. rewrite Hd. f_equal. lia.
  - rewrite IH by (done || by apply N.div_lt). cbn [digits_val]. rewrite Hd.
    f_equal. lia.
Qed.

Lemma parse_int_digits t z :
  all_digits t = true -> (String.length t <= MAX_STR_DIGITS)%nat ->
  digits_val NStart 0 t = Some z ->
  parse_int t = Some z /\ parse_int (String "-" t) = Some (- z).
Proof.
  intros Hd Hlen Hval.
  assert (Hcount : (MAX_STR_DIGITS <? digit_count t)%nat = false).
  { apply Nat.ltb_ge. pose proof (digit_count_length t). lia. }
  split.
  - unfold parse_int. rewrite (all_digits_lstrip t Hd), (all_digits_rstrip t Hd).
    destruct t as [|a t']; [done|].
    cbn [all_digits] in Hd. apply andb_true_iff in Hd as [Ha _].
    apply bool_decide_eq_true in Ha. destruct (digit_not_sign a Ha) as [-> ->].
    cbn [orb]. cbv zeta. by rewrite Hcount.
  - unfold parse_int. cbn [lstrip]. change (is_space "-") with false. cbv iota.
    cbn [rstrip all_space]. change (is_space "-") with false. cbn [andb].
    rewrite (all_digits_rstrip t Hd).
    change (Ascii.eqb "-" "-") with true. cbn [orb]. cbv zeta.
    rewrite Hcount, Hval. reflexivity.
Qed.

(** [int()] reads back the decimal numeral of any integer, as long as the
    numeral is within the digit limit. *)
Lemma parse_int_pretty z :
  (String.length (pretty z) <= MAX_STR_DIGITS)%nat -> parse_int (pretty z) = Some z.
Proof.
  destruct z as [|p|p].
  - intros _. reflexivity.
  - change (pretty (Z.pos p)) with (pretty_N_go (N.pos p) "").
    intros Hlen. apply parse_int_digits; [by apply pretty_go_digits|done|].
    by rewrite digits_val_pretty.
  - change (pretty (Z.neg p)) with (String "-" (pretty_N_go (N.pos p) "")).
    intros Hlen. change (Z.neg p) with (- Z.pos p).
    apply parse_int_digits; [by apply pretty_go_digits|simpl in Hlen; lia|].
    by rewrite digits_val_pretty.
Qed.

(* --------------------------------------------------------------------- *)
(** *** [int()] on strings that are no numerals *)

Lemma foreign_not_numeral a :
  foreign_char a = true ->
  is_space a = false /\ digit_of a = None /\
  Ascii.eqb a "-" = false /\ Ascii.eqb a "+" = false /\ Ascii.eqb a "_" = false.
Proof.
  destruct a as [[] [] [] [] [] [] [] []]; vm_compute; intros H; done.
Qed.

Lemma has_foreign_lstrip t : has_foreign t = true -> has_foreign (lstrip t) = true.
Proof.
  induction t as [|a t IH]; [done|]. cbn [has_foreign lstrip]. intros H.
  destruct (is_space a) eqn:Ea; [|done].
  apply IH. destruct (foreign_char a) eqn:Ef; [|done].
  apply foreign_not_numeral in Ef as [Ef _]. congruence.
Qed.

Lemma has_foreign_not_space t : has_foreign t = true -> all_space t = false.
Proof.
  induction t as [|a t IH]; [done|]. cbn [has_foreign all_space]. intros H.
  destruct (foreign_char a) eqn:Ef.
  - apply foreign_not_numeral in Ef as [-> _]. done.
  - rewrite IH by done. apply andb_false_r.
Qed.

Lemma has_foreign_rstrip t : has_foreign t = true -> has_foreign (rstrip t) = true.
Proof.
  induction t as [|a t IH]; [done|]. intros H.
  cbn [rstrip]. rewrite (has_foreign_not_space _ H).
  cbn [has_foreign] in *. destruct (foreign_char a); [done|]. by apply IH.
Qed.

Lemma digits_val_foreign st acc t : has_foreign t = true -> digits_val st acc t = None.
Proof.
  revert st acc. induction t as [|a t IH]; intros st acc; [done|].
  cbn [has_foreign digits_val]. intros H.
  destruct (foreign_char a) eqn:Ef.
  - apply foreign_not_numeral in Ef as (_ & -> & _ & _ & ->). done.
  - destruct (digit_of a); [by apply IH|].
    destruct (Ascii.eqb a "_"); [|done]. destruct st; try done. by apply IH.
Qed.

(** [int()] raises on a string that is no numeral. *)
Lemma parse_int_non_numeric t : non_numeric t -> parse_int t = None.
Proof.
  intros [->|H]; [done|].
  apply has_foreign_lstrip, has_foreign_rstrip in H.
  unfold parse_int. destruct (rstrip (lstrip t)) as [|a t']; [done|].
  cbv zeta. destruct (_ <? _)%nat; [done|].
  assert (Hbody : forall st acc,
    digits_val st acc (if Ascii.eqb a "-" || Ascii.eqb a "+" then t' else String a t')
    = None).
  { intros st acc. apply digits_val_foreign.
    destruct (Ascii.eqb a "-" || Ascii.eqb a "+") eqn:Es; [|done].
    cbn [has_foreign] in H. destruct (foreign_char a) eqn:Ef; [|done].
    apply foreign_not_numeral in Ef as (_ & _ & E1 & E2 & _).
    rewrite E1, E2 in Es. done. }
  rewrite Hbody. by destruct (Ascii.eqb a "-").
Qed.

Example last_piece_ex :
  last_piece "." "a.b.c" = "c" /\ last_piece "." "abc" = "abc" /\
  first_piece "?" "webp?x=1" = "webp" /\ last_piece "." "a." = "".
Proof. repeat split; reflexivity. Qed.

(* ===================================================================== *)
(** ** Properties: running the monad *)
(* ===================================================================== *)

Lemma call_run rt r w :
  call rt r w = (flickr rt (clock w) r, advance 1 [EvCall r] w).
Proof. reflexivity. Qed.

Lemma advance_advance n1 es1 n2 es2 w :
  advance n2 es2 (advance n1 es1 w) = advance (n2 + n1) (es1 ++ es2) w.
Proof. unfold advance. simpl. f_equal; [lia|by rewrite app_assoc]. Qed.

Lemma bind_run {A B} (m : M A) (k : A -> M B) w :
  (m ≫= k) w =
  match m w with
  | (Ok a, w1) => k a w1
  | (Raise e, w1) => (Raise e, w1)
  end.
Proof. reflexivity. Qed.

Lemma ret_run {A} (a : A) w : (mret a : M A) w = (Ok a, w).
Proof. reflexivity. Qed.

Lemma lift_run {A} (r : result A) w : lift r w = (r, w).
Proof. reflexivity. Qed.

Lemma print_run msg w : print msg w = (Ok tt, advance 0 [EvPrint msg] w).
Proof. reflexivity. Qed.

Lemma sleep_run ms w : sleep ms w = (Ok tt, advance 0 [EvSleep ms] w).
Proof. reflexivity. Qed.

Lemma open_write_run rt path c w :
  open_write rt path c w =
  match disk rt (clock w) path with
  | DiskOk => (Ok tt, with_file path (c (clock w)) (advance 1 [EvWrite path] w))
  | DiskRefused => (Raise OSError, advance 1 [EvWrite path] w)
  | DiskCut => (Raise OSError, with_file path CPartial (advance 1 [EvWrite path] w))
  end.
Proof.
  unfold open_write, mbind, M_bind, emit, tick. simpl.
  by destruct (disk rt (clock w) path).
Qed.

(* ===================================================================== *)
(** ** Properties: the file extension (lines 290-296) *)
(* ===================================================================== *)

Lemma occurs_pieces c d s :
  occurs c s = occurs c (first_piece d s) || occurs c (rest_after d s)
               || (occurs d s && ascii_eqb d c).
Proof.
  induction s as [|a s IH]; simpl; [done|].
  destruct (Ascii.eqb a d) eqn:E; simpl.
  - apply Ascii.eqb_eq in E. subst a.
    destruct (Ascii.eqb d c), (occurs c s); done.
  - rewrite IH. destruct (Ascii.eqb a c) eqn:E'; simpl; [done|]. done.
Qed.

Lemma first_piece_free c s : occurs c (first_piece c s) = false.
Proof.
  induction s as [|a s IH]; simpl; [done|].
  destruct (Ascii.eqb a c) eqn:E; simpl; [done|].
  by rewrite E.
Qed.

(** With no dot in the query string, cutting at the last dot and at the
    first question mark commute. *)
Lemma ext_commute url :
  occurs "." (rest_after "?" url) = false ->
  first_piece "?" (last_piece "." url) = last_piece "." (first_piece "?" url).
Proof.
  induction url as [|a s IH]; simpl; [done|]. intros H.
  destruct (Ascii.eqb a "?") eqn:Eq.
  - apply Ascii.eqb_eq in Eq. subst a. rewrite H. simpl. done.
  - specialize (IH H).
    pose proof (occurs_pieces "." "?" s) as Hs. rewrite H in Hs.
    simpl (Ascii.eqb "?" ".") in Hs.
    rewrite andb_false_r, !orb_false_r in Hs.
    simpl. rewrite <- Hs. destruct (occurs "." s).
    + done.
    + destruct (Ascii.eqb a ".") eqn:Ed; simpl; [done|].
      by rewrite Eq.
Qed.

Lemma last_piece_segment p :
  occurs "." (last_piece "/" p) = true ->
  last_piece "." p = last_piece "." (last_piece "/" p).
Proof.
  induction p as [|a s IH]; simpl; [done|].
  destruct (occurs "/" s) eqn:Es.
  - intros H. specialize (IH H). destruct (occurs "." s) eqn:Ed; [done|].
    exfalso. clear IH. revert Es Ed H. clear. induction s as [|b s IH]; simpl; [done|].
    destruct (Ascii.eqb b ".") eqn:Eb; simpl; [done|].
    intros H1 H2. rewrite H2 in IH.
    destruct (occurs "/" s) eqn:Es.
    + intros H. by apply IH.
    + rewrite orb_false_r in H1. rewrite H1. by rewrite H2.
  - destruct (Ascii.eqb a "/") eqn:Ea.
    + intros H. rewrite H. apply Ascii.eqb_eq in Ea. subst a. simpl.
      destruct s; [done|]. simpl in *. done.
    + done.
Qed.

Lemma last_piece_keeps_slash p :
  occurs "/" p = true -> occurs "." (last_piece "/" p) = false ->
  occurs "/" (last_piece "." p) = true.
Proof.
  induction p as [|a s IH]; simpl; [done|].
  destruct (occurs "/" s) eqn:Es.
  - intros _ H. specialize (IH eq_refl H).
    destruct (occurs "." s) eqn:Ed; [done|].
    destruct (Ascii.eqb a "."); simpl; [done|]. by rewrite Es, orb_true_r.
  - rewrite orb_false_r. intros Ea. rewrite Ea.
    apply Ascii.eqb_eq in Ea. subst a. intros H. rewrite H. simpl. done.
Qed.

Lemma allowed_ext_no_slash e :
  existsb (String.eqb e) allowed_ext = true -> occurs "/" e = false.
Proof.
  unfold allowed_ext. simpl. rewrite !orb_true_iff.
  intros [H|[H|[H|[H|H]]]]; try done; apply String.eqb_eq in H; by subst e.
Qed.

Lemma constrain_ext_allowed e : In (constrain_ext e) allowed_ext.
Proof.
  unfold constrain_ext. destruct (existsb _ _) eqn:E; [|simpl; tauto].
  apply existsb_exists in E as (x & Hx & Hex). apply String.eqb_eq in Hex. by subst x.
Qed.

Lemma file_ext_unfold url :
  file_ext url = constrain_ext (first_piece "?" (last_piece "." url)).
Proof. reflexivity. Qed.

Lemma file_ext_allowed url : In (file_ext url) allowed_ext.
Proof. rewrite file_ext_unfold. apply constrain_ext_allowed. Qed.

(** The input on which C7 fails: a query string with a dot in it. *)
Example file_ext_query_dot :
  file_ext "https://live.staticflickr.com/1/1_o.jpg?a=b.gif" = "gif" /\
  spec_ext "https://live.staticflickr.com/1/1_o.jpg?a=b.gif" = "jpg".
Proof. split; reflexivity. Qed.

(** C7 (the code departs from it): the extension is that of the URL's final
    path segment with the query string stripped, as the claim says, whenever
    the URL has a slash before any question mark and no dot after its first
    question mark, and it is always one of jpg, jpeg, png, gif.  But the
    code cuts at the last dot of the whole URL before it cuts at the
    question mark, so a dot inside the query string decides the extension:
    [.../1_o.jpg?a=b.gif] gives [gif] where the claim gives [jpg], and
    [.../123_o.png?v=1.0] gives [jpg] where the claim gives [png].  The two
    URLs of the spec yield [jpg] and [png]. *)
Theorem file_ext_spec (url : string) :
  (occurs "/" (first_piece "?" url) = true ->
   occurs "." (rest_after "?" url) = false ->
   file_ext url = spec_ext url) /\
  In (file_ext url) allowed_ext /\
  (file_ext "https://live.staticflickr.com/1/1_o.jpg?a=b.gif" = "gif" /\
   spec_ext "https://live.staticflickr.com/1/1_o.jpg?a=b.gif" = "jpg") /\
  (file_ext "https://live.staticflickr.com/1/123_o.png?v=1.0" = "jpg" /\
   spec_ext "https://live.staticflickr.com/1/123_o.png?v=1.0" = "png") /\
  file_ext "https://live.staticflickr.com/1/123_abcdef_o.webp?x=1" = "jpg" /\
  file_ext "https://live.staticflickr.com/1/123_o.png" = "png".
Proof.
  split; [|split; [apply file_ext_allowed|repeat split; reflexivity]].
  intros Hslash Hquery. rewrite file_ext_unfold, (ext_commute _ Hquery).
  unfold spec_ext. set (p := first_piece "?" url) in *.
  destruct (occurs "." (last_piece "/" p)) eqn:Hseg.
  - by rewrite (last_piece_segment _ Hseg).
  - pose proof (last_piece_keeps_slash _ Hslash Hseg) as Hk.
    unfold constrain_ext. destruct (existsb _ _) eqn:E; [|done].
    apply allowed_ext_no_slash in E. congruence.
Qed.

Lemma file_ext_spec_witness :
  file_ext "https://x.org/a/1_o.gif?s=2" = spec_ext "https://x.org/a/1_o.gif?s=2".
Proof.
  apply (proj1 (file_ext_spec "https://x.org/a/1_o.gif?s=2")); reflexivity.
Defined.

(* ===================================================================== *)
(** ** Properties: sorting and the choice of a size (lines 242-287) *)
(* ===================================================================== *)

Section Sorting.

Lemma insert_desc_perm x l : Permutation (x :: l) (insert_desc x l).
Proof.
  induction l as [|y l IH]; simpl; [done|].
  destruct (fst y <=? fst x); [done|].
  rewrite perm_swap. by constructor.
Qed.

Lemma sort_desc_perm l : Permutation l (sort_desc l).
Proof.
  induction l as [|x l IH]; simpl; [done|].
  rewrite <- insert_desc_perm. by constructor.
Qed.

Lemma insert_desc_sorted x l :
  StronglySorted desc l -> StronglySorted desc (insert_desc x l).
Proof.
  induction 1 as [|y l Hl IH Hy]; simpl.
  - repeat constructor.
  - destruct (fst y <=? fst x) eqn:E.
    + apply Z.leb_le in E. constructor; [by constructor|].
      constructor; [done|]. eapply Forall_impl; [exact Hy|].
      unfold desc. intros z Hz. lia.
    + apply Z.leb_gt in E. constructor; [done|].
      rewrite <- insert_desc_perm. constructor; [unfold desc; lia|done].
Qed.

Lemma sort_desc_sorted l : StronglySorted desc (sort_desc l).
Proof.
  induction l as [|x l IH]; simpl; [constructor|]. by apply insert_desc_sorted.
Qed.

(** The first element of the sorted list carries a largest key. *)
Lemma sort_desc_head l x t :
  sort_desc l = x :: t -> In x l /\ forall y, In y l -> fst y <= fst x.
Proof.
  intros E. pose proof (sort_desc_perm l) as Hp.
  pose proof (sort_desc_sorted l) as Hs. rewrite E in Hp, Hs.
  split.
  - apply (Permutation_in x (Permutation_sym Hp)). by left.
  - intros y Hy. apply (Permutation_in y Hp) in Hy as [->|Hy]; [lia|].
    apply StronglySorted_inv in Hs as [_ Hall].
    rewrite Forall_forall in Hall. apply Hall. by apply list_elem_of_In.
Qed.

Lemma sort_desc_nonempty l : l <> [] -> sort_desc l <> [].
Proof.
  intros Hl E. pose proof (sort_desc_perm l) as Hp. rewrite E in Hp.
  by apply Permutation_nil_r in Hp.
Qed.

End Sorting.

Lemma mapR_ok {A B} (f : A -> result B) l ys :
  mapR f l = Ok ys -> Forall2 (fun x y => f x = Ok y) l ys.
Proof.
  revert ys. induction l as [|x l IH]; simpl; intros ys.
  - intros [= <-]. constructor.
  - destruct (f x) as [y|] eqn:Ex; simpl; [|done].
    destruct (mapR f l) as [ys'|] eqn:El; simpl; [|done].
    intros [= <-]. constructor; [done|]. by apply IH.
Qed.

Lemma mapR_is_ok {A B} (f : A -> result B) l :
  is_ok (mapR f l) = forallb (fun x => is_ok (f x)) l.
Proof.
  induction l as [|x l IH]; simpl; [done|].
  destruct (f x); simpl; [|done]. rewrite <- IH. by destruct (mapR f l).
Qed.


(** [sorted(...)] succeeds exactly when the key does on every element. *)
Lemma sorted_by_is_ok key l :
  is_ok (sorted_by key l) = forallb (fun s => is_ok (key s)) l.
Proof.
  unfold sorted_by. rewrite <- (mapR_is_ok key l).
  induction l as [|x l IH]; simpl; [done|].
  destruct (key x); simpl; [|done].
  destruct (mapR (fun s => k ← key s; Ok (k, s)) l), (mapR key l); simpl in *; done.
Qed.

(** On success the head of [sorted(..., reverse=True)] is an element with
    a largest key. *)
Lemma sorted_by_head key l :
  l <> [] -> forallb (fun s => is_ok (key s)) l = true ->
  exists s ks rest, sorted_by key l = Ok (s :: rest) /\ In s l /\ key s = Ok ks /\
    forall o, In o l -> exists ko, key o = Ok ko /\ ko <= ks.
Proof.
  intros Hne Hall. unfold sorted_by.
  destruct (mapR (fun s => k ← key s; Ok (k, s)) l) as [keyed|e] eqn:Ek; simpl.
  - apply mapR_ok in Ek.
    assert (Hkeyed : forall o, In o l -> exists ko, In (ko, o) keyed /\ key o = Ok ko).
    { clear Hne Hall. induction Ek as [|x y l ys Hxy _ IH]; [done|].
      intros o [->|Ho].
      - destruct (key o) as [ko|] eqn:Eo; simpl in Hxy; [|done].
        injection Hxy as <-. exists ko. split; [by left|done].
      - destruct (IH o Ho) as (ko & Hin & Eo). exists ko. split; [by right|done]. }
    assert (Hback : forall k o, In (k, o) keyed -> In o l /\ key o = Ok k).
    { clear Hne Hall Hkeyed. induction Ek as [|x y l ys Hxy _ IH]; [done|].
      intros k o [->|Ho].
      - destruct (key x) as [kx|] eqn:Ex; simpl in Hxy; [|done].
        injection Hxy as <- <-. split; [by left|done].
      - destruct (IH k o Ho). split; [by right|done]. }
    destruct (sort_desc keyed) as [|[ks s] t] eqn:Es.
    + exfalso. apply (sort_desc_nonempty keyed); [|done].
      intros ->. inversion Ek. by subst.
    + apply sort_desc_head in Es as [Hin Hmax].
      destruct (Hback _ _ Hin) as [Hs Eks].
      exists s, ks, (map snd t). split; [done|]. split; [done|]. split; [done|].
      intros o Ho. destruct (Hkeyed o Ho) as (ko & Hin' & Eo).
      exists ko. split; [done|]. exact (Hmax _ Hin').
  - exfalso. pose proof (sorted_by_is_ok key l) as H. unfold sorted_by in H.
    rewrite Ek in H. simpl in H. congruence.
Qed.

Lemma has_label_truthy lbl s : is_ok (sub lbl s) = true -> truthy s = true.
Proof.
  destruct s as [| | | | |d]; simpl; try done. by destruct d.
Qed.

Lemma other_label_not_original s :
  other_label s -> exists l, sub "label" s = Ok l /\ eq_str "Original" l = false.
Proof.
  intros (l & Hl & Hne). exists l. split; [done|].
  destruct l as [| | |t| |]; simpl; try done.
  destruct (String.eqb t "Original") eqn:E; [|done].
  apply String.eqb_eq in E. by subst t.
Qed.

(** The loop of lines 275-278 stops at the first entry labelled
    [Original]. *)
Lemma find_original_first pre o post :
  Forall other_label pre -> sub "label" o = Ok (JStr "Original") ->
  find_original (pre ++ o :: post) = Ok (Some o).
Proof.
  intros Hpre Ho. induction Hpre as [|x pre Hx _ IH]; cbn [app find_original].
  - by rewrite Ho.
  - destruct (other_label_not_original x Hx) as (l & Hl & He).
    rewrite Hl. cbn [mbind result_bind]. rewrite He. exact IH.
Qed.

Lemma find_original_absent items :
  Forall other_label items -> find_original items = Ok None.
Proof.
  induction 1 as [|x l Hx _ IH]; cbn [find_original]; [done|].
  destruct (other_label_not_original x Hx) as (lbl & Hl & He).
  rewrite Hl. cbn [mbind result_bind]. by rewrite He.
Qed.

Lemma pretty_nonempty (z : Z) :
  (String.length (pretty z) <= MAX_STR_DIGITS)%nat -> pretty z <> "".
Proof. intros Hlen E. apply parse_int_pretty in Hlen. by rewrite E in Hlen. Qed.

(** Both sort keys read a declared width as what it declares. *)
Lemma declared_width_keys s z :
  declared_width s z -> width_key s = Ok z /\ poster_key s = Ok z.
Proof.
  destruct s as [| | | | |d]; try done. unfold declared_width, width_key, poster_key, get1.
  simpl. destruct (assoc "width" d) as [[| |w|t| |]|]; simpl; try done.
  - intros ->. split; [done|]. destruct (Z.eqb z 0) eqn:E; simpl; [|done].
    apply Z.eqb_eq in E. by subst z.
  - intros [-> Hlen]. rewrite (parse_int_pretty z Hlen).
    destruct (String.eqb (pretty z) "") eqn:E; simpl.
    + apply String.eqb_eq in E. by destruct (pretty_nonempty z Hlen).
    + by rewrite (parse_int_pretty z Hlen).
  - by intros ->.
Qed.

Lemma unreadable_width_raises d :
  unreadable_width d ->
  is_ok (width_key (JDict d)) = false /\
  (assoc "width" d = Some JNull ->
     width_key (JDict d) = Raise TypeError /\ poster_key (JDict d) = Ok 0) /\
  (forall t, assoc "width" d = Some (JStr t) ->
     width_key (JDict d) = Raise ValueError /\
     poster_key (JDict d) = if String.eqb t "" then Ok 0 else Raise ValueError).
Proof.
  unfold width_key, poster_key, get1. simpl.
  intros [Hd|(t & Hd & Ht)]; rewrite Hd; simpl.
  - split; [done|]. split; [done|]. intros t' [=].
  - rewrite (parse_int_non_numeric t Ht). split; [done|]. split; [intros [=]|].
    intros t' [= <-]. split; [done|].
    destruct (String.eqb t ""); simpl; [done|]. by rewrite (parse_int_non_numeric t Ht).
Qed.

(** C6, as stated, fails on lists it covers: an entry without a label
    ahead of the Original makes the search raise [KeyError], and a width
    that is [None] makes the fallback raise [TypeError]; neither list is
    empty. *)
Lemma unlabelled_size_counterexample :
  select_original
    (JList [JDict [("width", JInt 1600)];
            JDict [("label", JStr "Original"); ("width", JInt 640)]])
  = Raise (KeyError "label") /\
  select_original
    (JList [JDict [("label", JStr "Large"); ("width", JNull)];
            JDict [("label", JStr "Small"); ("width", JInt 240)]])
  = Raise TypeError.
Proof. split; reflexivity. Qed.

(** C6 (amended): on a non-empty list of sizes, the photo branch selects
    the first entry labelled [Original], whatever the widths are and
    whatever follows it, provided every entry ahead of it carries a label.
    With no Original, every entry carrying a label and declaring its width
    as an integer or a decimal numeral (a missing width counting as 0), it
    selects an entry whose declared width is the largest.  With no Original
    and widths 800, 1200, 400 it selects the entry of width 1200, and of the
    numerals "240" and "1024" the second. *)
Theorem select_original_spec (items : list json) (Hne : items <> []) :
  (forall pre o post,
     items = pre ++ o :: post ->
     Forall other_label pre ->
     sub "label" o = Ok (JStr "Original") ->
     select_original (JList items) = Ok (Some o)) /\
  (Forall other_label items ->
   Forall (fun s => exists z, declared_width s z) items ->
   exists o zo,
     select_original (JList items) = Ok (Some o) /\ In o items /\
     declared_width o zo /\
     forall s z, In s items -> declared_width s z -> z <= zo) /\
  select_original
    (JList [JDict [("label", JStr "Medium"); ("width", JInt 800)];
            JDict [("label", JStr "Large"); ("width", JInt 1200)];
            JDict [("label", JStr "Small"); ("width", JInt 400)]])
  = Ok (Some (JDict [("label", JStr "Large"); ("width", JInt 1200)])) /\
  select_original
    (JList [JDict [("label", JStr "Small"); ("width", JStr "240")];
            JDict [("label", JStr "Large"); ("width", JStr "1024")]])
  = Ok (Some (JDict [("label", JStr "Large"); ("width", JStr "1024")])).
Proof.
  split; [|split; [|split; reflexivity]].
  - intros pre o post -> Hpre Ho. unfold select_original. cbn [iter mbind result_bind].
    rewrite (find_original_first pre o post Hpre Ho). cbn [mbind result_bind truthy_opt].
    rewrite (has_label_truthy "label" o) by (by rewrite Ho). reflexivity.
  - intros Hlabel Hwidth. unfold select_original. cbn [iter mbind result_bind].
    rewrite (find_original_absent items Hlabel). cbn [mbind result_bind truthy_opt negb andb].
    destruct items as [|x l]; [done|]. cbn [truthy].
    destruct (sorted_by_head width_key (x :: l)) as (o & ko & rest & Es & Hin & Eo & Hmax);
      [done| |].
    { apply forallb_forall. intros s Hs. rewrite Forall_forall in Hwidth.
      destruct (Hwidth s) as [z Hz]; [by apply list_elem_of_In|].
      by rewrite (proj1 (declared_width_keys s z Hz)). }
    rewrite Es. exists o, ko. split; [done|]. split; [done|].
    assert (Hread : forall s z, declared_width s z -> width_key s = Ok z).
    { intros s z Hz. apply (declared_width_keys s z Hz). }
    split.
    + rewrite Forall_forall in Hwidth.
      destruct (Hwidth o) as [z Hz]; [by apply list_elem_of_In|].
      rewrite (Hread o z Hz) in Eo. by injection Eo as <-.
    + intros s z Hs Hz. destruct (Hmax s Hs) as (ks & Eks & Hle).
      rewrite (Hread s z Hz) in Eks. by injection Eks as <-.
Qed.

Lemma select_original_spec_witness :
  select_original
    (JList [JDict [("label", JStr "Large"); ("width", JInt 1600)];
            JDict [("label", JStr "Original"); ("width", JInt 640)];
            JDict [("width", JNull)]])
  = Ok (Some (JDict [("label", JStr "Original"); ("width", JInt 640)])).
Proof.
  apply (proj1 (select_original_spec
    [JDict [("label", JStr "Large"); ("width", JInt 1600)];
     JDict [("label", JStr "Original"); ("width", JInt 640)];
     JDict [("width", JNull)]] ltac:(discriminate))
    [JDict [("label", JStr "Large"); ("width", JInt 1600)]]
    (JDict [("label", JStr "Original"); ("width", JInt 640)])
    [JDict [("width", JNull)]]).
  - reflexivity.
  - constructor; [|constructor]. exists (JStr "Large"). split; [reflexivity|discriminate].
  - reflexivity.
Defined.

(** C10, as stated, fails: the video branch does not treat a non-numeric
    width string as 0; [int(s.get('width') or 0)] raises on it as well, and
    the run aborts before any marker is written. *)
Lemma poster_key_non_numeric_counterexample :
  poster_key (sample_size "Thumbnail" (JStr "abc") "https://x/t.jpg") = Raise ValueError /\
  let run := process_photo
               (sample_rt "video" (JList [sample_size "Thumbnail" (JStr "abc") "https://x/t.jpg"]))
               sample_photo PHOTOS_DIR false empty_world in
  fst run = Raise ValueError /\
  files (snd run) !! path_join (path_join PHOTOS_DIR "1") "complete.flag" = None.
Proof. split; [reflexivity|]. split; vm_compute; reflexivity. Qed.

(** C10 (amended): over size entries that are dicts, both selections are
    total when every width that is present is an integer or the decimal
    numeral of one.  In the photo branch a present [None] makes [int()]
    raise [TypeError] and a string that is no numeral [ValueError]: with no
    Original among the entries the selection raises, and the exception
    leaves the branch uncaught, right after the sizes call.  The poster-frame
    selection of the video branch reads a [None] or empty width as 0 and
    does not raise on it, but on a non-empty string that is no numeral it
    raises [ValueError] just as the photo branch does. *)
Theorem width_selection_total (ds : list (list (string * json))) :
  (Forall (fun d => exists z, declared_width (JDict d) z) ds ->
     is_ok (sorted_by width_key (map JDict ds)) = true /\
     is_ok (sorted_by poster_key (map JDict ds)) = true) /\
  (forall d, In d ds -> unreadable_width d ->
     is_ok (sorted_by width_key (map JDict ds)) = false /\
     (Forall other_label (map JDict ds) ->
      is_ok (select_original (JList (map JDict ds))) = false)) /\
  (forall d, assoc "width" d = Some JNull ->
     width_key (JDict d) = Raise TypeError /\ poster_key (JDict d) = Ok 0) /\
  (forall d t, assoc "width" d = Some (JStr t) -> non_numeric t ->
     width_key (JDict d) = Raise ValueError /\
     poster_key (JDict d) = if String.eqb t "" then Ok 0 else Raise ValueError) /\
  (forall rt photo_id photo_dir w sizes e,
     flickr rt (clock w) (photos_getSizes photo_id) = Ok sizes ->
     sub "sizes" sizes >>> sub "size" = Ok (JList (map JDict ds)) ->
     select_original (JList (map JDict ds)) = Raise e ->
     archive_original rt photo_id photo_dir w =
     (Raise e, advance 1 [EvCall (photos_getSizes photo_id)] w)).
Proof.
  split; [|split; [|split; [|split]]].
  - intros Hall. rewrite !sorted_by_is_ok, !forallb_forall.
    split; intros s Hs; apply in_map_iff in Hs as (d & <- & Hd);
      rewrite Forall_forall in Hall;
      destruct (Hall d) as [z Hz]; try (by apply list_elem_of_In);
      destruct (declared_width_keys _ _ Hz) as [E1 E2]; by rewrite ?E1, ?E2.
  - intros d Hd Hbad.
    assert (Hsort : is_ok (sorted_by width_key (map JDict ds)) = false).
    { rewrite sorted_by_is_ok. apply not_true_is_false. rewrite forallb_forall.
      intros Hall. specialize (Hall (JDict d) (in_map JDict _ _ Hd)).
      destruct (unreadable_width_raises d Hbad) as [E _]. congruence. }
    split; [done|]. intros Hlabel. unfold select_original. cbn [iter mbind result_bind].
    rewrite (find_original_absent _ Hlabel). cbn [mbind result_bind truthy_opt negb andb].
    destruct ds as [|d0 ds']; [done|]. cbn [map truthy] in *.
    by destruct (sorted_by width_key (JDict d0 :: map JDict ds')).
  - intros d Hd. destruct (unreadable_width_raises d (or_introl Hd)) as (_ & H & _).
    by apply H.
  - intros d t Hd Ht.
    destruct (unreadable_width_raises d (or_intror (ex_intro _ t (conj Hd Ht))))
      as (_ & _ & H).
    by apply H.
  - intros rt photo_id photo_dir w sizes e Hsizes Hlist Hsel.
    unfold archive_original, get_photo_sizes.
    rewrite bind_run, call_run, Hsizes, bind_run, lift_run, Hlist.
    by rewrite bind_run, lift_run, Hsel.
Qed.

Lemma width_selection_total_witness :
  is_ok (sorted_by width_key
           [JDict [("label", JStr "Small"); ("width", JStr "240")];
            JDict [("label", JStr "Large"); ("width", JInt 1024)];
            JDict [("label", JStr "Thumbnail")]]) = true /\
  is_ok (sorted_by poster_key
           [JDict [("label", JStr "Small"); ("width", JStr "240")];
            JDict [("label", JStr "Large"); ("width", JInt 1024)];
            JDict [("label", JStr "Thumbnail")]]) = true.
Proof.
  apply (proj1 (width_selection_total
           [[("label", JStr "Small"); ("width", JStr "240")];
            [("label", JStr "Large"); ("width", JInt 1024)];
            [("label", JStr "Thumbnail")]])).
  repeat constructor.
  - exists 240. split; [reflexivity|]. vm_compute. lia.
  - by exists 1024.
  - by exists 0.
Defined.

(* ===================================================================== *)
(** ** Properties: the gateway (flickr_client.py) *)
(* ===================================================================== *)

(** One turn of the loop in [wrapper]. *)
Lemma retry_loop_step rt r m attempt rest w :
  retry_loop rt (call rt r) m (attempt :: rest) w =
  match flickr rt (clock w) r with
  | Ok v => (Ok v, advance 1 [EvCall r] w)
  | Raise e =>
      if retryable (Raise e) && (attempt <? m - 1)%nat
      then retry_loop rt (call rt r) m rest
             (advance 1 [EvCall r; EvPrint (retry_message rt attempt e);
                         EvSleep (backoff attempt (Raise e))] w)
      else (Raise e, advance 1 [EvCall r] w)
  end.
Proof.
  simpl. unfold try_except. rewrite call_run.
  destruct (flickr rt (clock w) r) as [v|e]; [done|].
  assert (Hw : forall msg ms,
    advance 0 [EvSleep ms] (advance 0 [EvPrint msg] (advance 1 [EvCall r] w)) =
    advance 1 [EvCall r; EvPrint msg; EvSleep ms] w).
  { intros. by rewrite !advance_advance. }
  destruct e; simpl; try (destruct (attempt <? m - 1)%nat; simpl; [|done];
    unfold mbind, M_bind, print, sleep, emit; simpl; by rewrite <- Hw).
  destruct (transient msg); simpl; [|done].
  destruct (attempt <? m - 1)%nat; simpl; [|done].
  unfold mbind, M_bind, print, sleep, emit; simpl. by rewrite <- Hw.
Qed.

(** C3 (amended): a transport call placed under [retry_on_error] is
    attempted between one and three times.  Each attempt but the last
    failed with a transient [FlickrError] (pause 5 s after the first
    attempt, 10 s after the second) or with an exception that is not a
    [FlickrError] (pause 2 s); a [FlickrError] that is not transient is not
    retried; and the outcome of the last attempt, success or failure, is
    what the caller gets. *)
Theorem retry_on_error_spec (rt : runtime) (r : request) (w : world) :
  exists n es,
    (1 <= n <= 3)%nat /\
    snd (retry_on_error rt (call rt r) w) = advance n es w /\
    calls_of es = replicate n r /\
    fst (retry_on_error rt (call rt r) w) = flickr rt (n - 1 + clock w) r /\
    (forall i, (i < n - 1)%nat -> retryable (flickr rt (i + clock w) r) = true) /\
    ((n < 3)%nat -> retryable (flickr rt (n - 1 + clock w) r) = false) /\
    sleeps_of es = map (fun i => backoff i (flickr rt (i + clock w) r)) (seq 0 (n - 1)).
Proof.
  unfold retry_on_error. simpl seq.
  rewrite retry_loop_step.
  destruct (flickr rt (clock w) r) as [v0|e0] eqn:E0.
  { exists 1%nat, [EvCall r]. simpl. rewrite E0.
    repeat split; try done; try lia; intros i Hi; lia. }
  destruct (retryable (Raise e0)) eqn:R0; simpl andb; cbv iota.
  2:{ exists 1%nat, [EvCall r]. simpl. rewrite E0.
      repeat split; try done; try lia; intros i Hi; lia. }
  rewrite retry_loop_step. simpl clock.
  destruct (flickr rt (S (clock w)) r) as [v1|e1] eqn:E1.
  { exists 2%nat, [EvCall r; EvPrint (retry_message rt 0 e0);
                    EvSleep (backoff 0 (Raise e0)); EvCall r].
    simpl. rewrite E0, E1. rewrite advance_advance.
    repeat split; try done; try lia.
    intros i Hi. assert (i = 0)%nat as -> by lia. simpl. by rewrite E0. }
  destruct (retryable (Raise e1)) eqn:R1; simpl andb; cbv iota.
  2:{ exists 2%nat, [EvCall r; EvPrint (retry_message rt 0 e0);
                      EvSleep (backoff 0 (Raise e0)); EvCall r].
      simpl. rewrite E0, E1. rewrite advance_advance.
      repeat split; try done; try lia.
      intros i Hi. assert (i = 0)%nat as -> by lia. simpl. by rewrite E0. }
  rewrite retry_loop_step. simpl clock.
  exists 3%nat, [EvCall r; EvPrint (retry_message rt 0 e0);
                  EvSleep (backoff 0 (Raise e0)); EvCall r;
                  EvPrint (retry_message rt 1 e1);
                  EvSleep (backoff 1 (Raise e1)); EvCall r].
  simpl. rewrite E0, E1.
  destruct (flickr rt (S (S (clock w))) r) as [v2|e2] eqn:E2.
  - rewrite !advance_advance. repeat split; try done; try lia.
    intros i Hi. assert (i = 0 \/ i = 1)%nat as [-> | ->] by lia; simpl; congruence.
  - rewrite andb_false_r. rewrite !advance_advance. repeat split; try done; try lia.
    intros i Hi. assert (i = 0 \/ i = 1)%nat as [-> | ->] by lia; simpl; congruence.
Qed.

(** C3, as stated, fails twice over.  No function of [flickr_client.py] is
    placed under the decorator: [get_photo_info] gives up after a single
    attempt and no pause, where a retried call would have succeeded.  And
    under the decorator, a [FlickrError] that is not transient is raised
    again at once. *)
Lemma gateway_not_retried_counterexample :
  let rt := flaky_rt "201: Photo service not currently available" in
  let rt' := flaky_rt "1: Photo not found" in
  let r := photos_getInfo (JStr "1") in
  get_photo_info rt (JStr "1") empty_world =
    (Raise (FlickrError "201: Photo service not currently available"),
     advance 1 [EvCall r] empty_world) /\
  fst (retry_on_error rt (call rt r) empty_world) = Ok (sample_info "photo" 0) /\
  retry_on_error rt' (call rt' r) empty_world =
    (Raise (FlickrError "1: Photo not found"), advance 1 [EvCall r] empty_world).
Proof. repeat split; vm_compute; reflexivity. Qed.

Lemma try_except_call rt r (dflt : json) w :
  try_except (call rt r) (fun _ => mret dflt) w =
  (Ok (match flickr rt (clock w) r with Ok v => v | Raise _ => dflt end),
   advance 1 [EvCall r] w).
Proof.
  unfold try_except. rewrite call_run. by destruct (flickr rt (clock w) r).
Qed.

Lemma key_eqb_refl k : hashable k = true -> key_eqb k k = true.
Proof.
  destruct k as [|b|z|s| |]; simpl; try done; intros _.
  - by destruct b.
  - apply Z.eqb_refl.
  - apply String.eqb_refl.
Qed.

Lemma cache_find_app k c ext :
  cache_find k (c ++ ext) =
  match cache_find k c with Some v => Some v | None => cache_find k ext end.
Proof.
  induction c as [|[k' v'] c IH]; simpl; [done|]. by destruct (key_eqb k k').
Qed.

(** C4, as stated, fails: on failure the geo and user-info wrappers return
    [None], on which a membership test or a subscript raises, so their
    callers do need a null check. *)
Lemma geo_fallback_is_none_counterexample :
  let rt := sample_rt "photo" (JList []) in
  fst (get_photo_geo rt (JStr "1") empty_world) = Ok JNull /\
  fst (get_user_info rt (JStr "u1") empty_world) = Ok JNull /\
  contains "photo" JNull = Raise TypeError /\
  sub "person" JNull = Raise TypeError.
Proof. repeat split; reflexivity. Qed.

(** C4 (amended): when the transport call fails, the comments, favorites,
    EXIF and contexts wrappers return an empty dict shape that their callers
    traverse with no null check, finding no items; the geo and user-info
    wrappers return [None], and their callers test it for truth first:
    [process_photo] then leaves the location absent, and
    [get_cached_user_info], after that one failed call, returns the fallback
    entry built from the user id and stores it in the cache under that id,
    where later lookups find it. *)
Theorem gateway_fallback_shapes (rt : runtime) (id : json) (w : world) :
  let fails r := is_ok (flickr rt (clock w) r) = false in
  (fails (photos_comments_getList id) ->
     exists c, fst (get_photo_comments rt id w) = Ok c /\
       c = JDict [("comments", JDict [("comment", JList [])])] /\
       contains "comments" c = Ok true /\
       sub "comments" c >>> contains "comment" = Ok true /\
       sub "comments" c >>> sub "comment" >>> iter = Ok []) /\
  (fails (photos_getFavorites id 500) ->
     exists f, fst (get_photo_favorites rt id w) = Ok f /\
       f = JDict [("photo", JDict [("person", JList [])])] /\
       contains "photo" f = Ok true /\
       sub "photo" f >>> contains "person" = Ok true /\
       sub "photo" f >>> sub "person" >>> iter = Ok []) /\
  (fails (photos_getExif id) ->
     exists x, fst (get_photo_exif rt id w) = Ok x /\
       x = JDict [("photo", JDict [("exif", JList [])])] /\
       contains "photo" x = Ok true /\
       sub "photo" x >>> contains "exif" = Ok true /\
       sub "photo" x >>> sub "exif" >>> iter = Ok []) /\
  (fails (photos_getAllContexts id) ->
     exists c, fst (get_photo_contexts rt id w) = Ok c /\
       c = JDict [("set", JList [])] /\
       contains "set" c = Ok true /\ sub "set" c >>> iter = Ok []) /\
  (fails (photos_geo_getLocation id) ->
     fst (get_photo_geo rt id w) = Ok JNull /\
     truthy JNull = false /\
     forall metadata,
       add_location rt id metadata w =
       (Ok metadata, advance 1 [EvCall (photos_geo_getLocation id)] w)) /\
  (fails (people_getInfo id) ->
     fst (get_user_info rt id w) = Ok JNull /\
     (hashable id = true -> cache_find id (USER_CACHE w) = None ->
      exists w',
        get_cached_user_info rt id w = (Ok (fallback_user rt id), w') /\
        USER_CACHE w' = USER_CACHE w ++ [(id, fallback_user rt id)] /\
        cache_find id (USER_CACHE w') = Some (fallback_user rt id) /\
        trace w' = trace w ++ [EvCall (people_getInfo id)] /\
        files w' = files w /\ dirs w' = dirs w)).
Proof.
  intros fails. unfold fails, get_photo_comments, get_photo_favorites, get_photo_exif,
    get_photo_contexts, get_photo_geo, get_user_info.
  repeat split.
  - intros H. rewrite try_except_call.
    destruct (flickr rt (clock w) _); [done|]. eexists. by repeat split.
  - intros H. rewrite try_except_call.
    destruct (flickr rt (clock w) _); [done|]. eexists. by repeat split.
  - intros H. rewrite try_except_call.
    destruct (flickr rt (clock w) _); [done|]. eexists. by repeat split.
  - intros H. rewrite try_except_call.
    destruct (flickr rt (clock w) _); [done|]. eexists. by repeat split.
  - rewrite try_except_call. by destruct (flickr rt (clock w) _).
  - intros metadata. unfold add_location, get_photo_geo.
    rewrite bind_run, try_except_call.
    by destruct (flickr rt (clock w) _).
  - rewrite try_except_call. by destruct (flickr rt (clock w) _).
  - intros Hh Hc. unfold get_cached_user_info, cache_lookup, get_user_info.
    rewrite bind_run, Hh, Hc, bind_run, try_except_call.
    destruct (flickr rt (clock w) _); [done|].
    eexists. split; [reflexivity|]. simpl.
    split; [done|]. split; [|done].
    by rewrite cache_find_app, Hc; simpl; rewrite key_eqb_refl.
Qed.

Lemma gateway_fallback_shapes_witness :
  let rt := sample_rt "photo" (JList []) in
  fst (get_photo_geo rt (JStr "1") empty_world) = Ok JNull /\
  USER_CACHE (snd (get_cached_user_info rt (JStr "1") empty_world))
  = [(JStr "1", fallback_user rt (JStr "1"))].
Proof.
  intros rt.
  pose proof (gateway_fallback_shapes rt (JStr "1") empty_world)
    as (_ & _ & _ & _ & Hgeo & Huser).
  split.
  - apply Hgeo. reflexivity.
  - destruct (proj2 (Huser eq_refl) eq_refl eq_refl) as (w' & Hrun & Hcache & _).
    rewrite Hrun. exact Hcache.
Defined.

(* ===================================================================== *)
(** ** Properties: what a computation may touch *)
(* ===================================================================== *)

Section Confinement.

Context (allowed : event -> Prop).

Lemma confined_pure {A} (f : world -> result A) :
  confined allowed [] (fun w => (f w, w)).
Proof.
  intros w. exists []. simpl. rewrite app_nil_r.
  split; [done|]. split; [constructor|]. split; [done|]. intros _. constructor.
Qed.

Lemma confined_ret {A} (a : A) : confined allowed [] (mret a : M A).
Proof. apply (confined_pure (fun _ => Ok a)). Qed.

Lemma confined_lift {A} (r : result A) : confined allowed [] (lift r).
Proof. apply (confined_pure (fun _ => r)). Qed.

Lemma confined_raise {A} e : confined allowed [] (raise e : M A).
Proof. apply (confined_pure (fun _ => Raise e)). Qed.

Lemma confined_path_exists p : confined allowed [] (path_exists p).
Proof. apply (confined_pure (fun w => Ok _)). Qed.

Lemma confined_cache_lookup k : confined allowed [] (cache_lookup k).
Proof.
  intros w. exists []. unfold cache_lookup. destruct (hashable k); simpl;
    rewrite app_nil_r; (split; [done|]); (split; [constructor|]);
    (split; [done|]); intros _; constructor.
Qed.

Lemma confined_listdir d : confined allowed [] (listdir d).
Proof.
  intros w. exists []. unfold listdir. destruct (bool_decide _); simpl;
    rewrite app_nil_r; (split; [done|]); (split; [constructor|]);
    (split; [done|]); intros _; constructor.
Qed.

Lemma confined_tick : confined allowed [] tick.
Proof.
  intros w. exists []. simpl. rewrite app_nil_r.
  split; [done|]. split; [constructor|]. split; [done|]. intros _. constructor.
Qed.

Lemma confined_add_dirs ds : confined allowed [] (add_dirs ds).
Proof.
  intros w. exists []. simpl. rewrite app_nil_r.
  split; [done|]. split; [constructor|]. split; [done|]. intros _. constructor.
Qed.

Lemma confined_cache_put k v : confined allowed [] (cache_put k v).
Proof.
  intros w. exists []. simpl. rewrite app_nil_r.
  split; [done|]. split; [constructor|]. split; [done|]. intros _. constructor.
Qed.

Lemma confined_emit e : allowed e -> confined allowed [e] (emit e).
Proof.
  intros He w. exists [e]. simpl.
  split; [done|]. split; [by repeat constructor|]. split; [done|]. intros _. done.
Qed.

Lemma confined_set_file p c : allowed (EvWrite p) -> confined allowed [] (set_file p c).
Proof.
  intros Hp w. exists []. simpl. rewrite app_nil_r.
  split; [done|]. split; [constructor|]. split; [|intros _; constructor].
  intros q Hq. apply lookup_insert_ne. intros ->. by apply Hq.
Qed.

Lemma confined_bind {A B} must1 must2 (m : M A) (k : A -> M B) :
  confined allowed must1 m ->
  (forall a, confined allowed must2 (k a)) ->
  confined allowed (must1 ++ must2) (m ≫= k).
Proof.
  intros Hm Hk w. destruct (Hm w) as (es1 & Ht1 & Ha1 & Hf1 & Hs1).
  unfold mbind, M_bind. destruct (m w) as [[a|e] w1] eqn:Em; simpl in *.
  - destruct (Hk a w1) as (es2 & Ht2 & Ha2 & Hf2 & Hs2).
    exists (es1 ++ es2). split; [by rewrite Ht2, Ht1, app_assoc|].
    split; [by apply Forall_app|]. split.
    + intros q Hq. by rewrite Hf2, Hf1.
    + intros Hok. apply sublist_app; auto.
  - exists es1. split; [done|]. split; [done|]. split; [done|]. done.
Qed.

Lemma confined_weaken {A} must must' (m : M A) :
  sublist must must' -> confined allowed must' m -> confined allowed must m.
Proof.
  intros Hsub Hm w. destruct (Hm w) as (es & Ht & Ha & Hf & Hs).
  exists es. repeat (split; [done|]). intros Hok. by etrans; [|apply Hs].
Qed.

Lemma confined_drop {A} must (m : M A) :
  confined allowed must m -> confined allowed [] m.
Proof. apply confined_weaken, sublist_nil_l. Qed.

Lemma confined_try_except {A} must must' (m : M A) (h : exn -> M A) :
  confined allowed must m ->
  (forall e, confined allowed must' (h e)) ->
  confined allowed [] (try_except m h).
Proof.
  intros Hm Hh w. destruct (Hm w) as (es1 & Ht1 & Ha1 & Hf1 & Hs1).
  unfold try_except. destruct (m w) as [[a|e] w1] eqn:Em; simpl in *.
  - exists es1. repeat (split; [done|]). intros _. apply sublist_nil_l.
  - destruct (Hh e w1) as (es2 & Ht2 & Ha2 & Hf2 & Hs2).
    exists (es1 ++ es2). split; [by rewrite Ht2, Ht1, app_assoc|].
    split; [by apply Forall_app|]. split.
    + intros q Hq. by rewrite Hf2, Hf1.
    + intros _. apply sublist_nil_l.
Qed.

Lemma confined_mapM {A B} must (f : A -> M B) l :
  (forall x, confined allowed must (f x)) -> confined allowed [] (mapM f l).
Proof.
  intros Hf. induction l as [|x l IH]; simpl.
  - apply confined_ret.
  - apply (confined_weaken [] (must ++ ([] ++ []))); [apply sublist_nil_l|].
    apply confined_bind; [apply Hf|]. intros y.
    apply confined_bind; [apply IH|]. intros ys. apply confined_ret.
Qed.

End Confinement.

Lemma confined_mono {A} (al al' : event -> Prop) must (m : M A) :
  (forall e, al e -> al' e) -> confined al must m -> confined al' must m.
Proof.
  intros Himp Hm w. destruct (Hm w) as (es & Ht & Ha & Hf & Hs).
  exists es. split; [done|]. split; [by eapply Forall_impl|]. split; [|done].
  intros q Hq. apply Hf. intros Hal. by apply Hq, Himp.
Qed.

Lemma touches_mono ps ps' (http http' : bool) e :
  incl ps ps' -> (http = true -> http' = true) ->
  touches ps http e -> touches ps' http' e.
Proof. intros Hi Hh. destruct e; simpl; auto. Qed.

Lemma confined_bind_nil {A B} allowed (m : M A) (k : A -> M B) :
  confined allowed [] m ->
  (forall a, confined allowed [] (k a)) ->
  confined allowed [] (m ≫= k).
Proof. apply (confined_bind allowed [] []). Qed.

Lemma confined_bind_l {A B} allowed must (m : M A) (k : A -> M B) :
  confined allowed must m ->
  (forall a, confined allowed [] (k a)) ->
  confined allowed must (m ≫= k).
Proof.
  intros Hm Hk. pose proof (confined_bind allowed must [] m k Hm Hk) as H.
  by rewrite app_nil_r in H.
Qed.

Lemma confined_bind_r {A B} allowed must (m : M A) (k : A -> M B) :
  confined allowed [] m ->
  (forall a, confined allowed must (k a)) ->
  confined allowed must (m ≫= k).
Proof. apply (confined_bind allowed [] must). Qed.

(** Walks through a computation that promises no particular event. *)
Ltac quiet_with leaf :=
  repeat first
    [ solve [leaf]
    | apply confined_ret | apply confined_lift | apply confined_raise
    | apply confined_tick | apply confined_add_dirs | apply confined_cache_put
    | apply confined_cache_lookup | apply confined_path_exists
    | apply confined_listdir
    | (eapply confined_drop; apply confined_emit; solve [leaf])
    | (apply confined_set_file; solve [leaf])
    | (apply confined_bind_nil; [|intros ?])
    | (eapply confined_try_except; [|intros ?])
    | (eapply confined_mapM; intros ?)
    | match goal with
      | |- confined _ _ (if ?b then _ else _) => destruct b
      | |- confined _ _ (match ?x with _ => _ end) => destruct x
      end ].

Section Pipeline.

Context (rt : runtime) (allowed : event -> Prop).
Hypothesis quiet_allowed : forall e, touches [] false e -> allowed e.

Lemma allowed_sleep ms : allowed (EvSleep ms).
Proof. by apply quiet_allowed. Qed.

Lemma allowed_print msg : allowed (EvPrint msg).
Proof. by apply quiet_allowed. Qed.

Lemma allowed_call r : allowed (EvCall r).
Proof. by apply quiet_allowed. Qed.

Lemma confined_call r : confined allowed [EvCall r] (call rt r).
Proof.
  unfold call. apply confined_bind_r; [apply confined_tick|]. intros t.
  apply confined_bind_l; [apply confined_emit, allowed_call|]. intros _.
  apply confined_lift.
Qed.

Lemma confined_fallback r (dflt : json) :
  confined allowed [] (try_except (call rt r) (fun _ => mret dflt)).
Proof.
  eapply confined_try_except; [apply confined_call|]. intros _. apply confined_ret.
Qed.

Lemma confined_makedirs d : confined allowed [] (makedirs rt d).
Proof.
  unfold makedirs. destruct (String.eqb d ""); [apply confined_raise|].
  apply confined_bind_nil; [apply confined_tick|]. intros t.
  destruct (disk rt t d); first [apply confined_add_dirs | apply confined_raise].
Qed.

Lemma confined_open_write p c :
  allowed (EvWrite p) -> confined allowed [EvWrite p] (open_write rt p c).
Proof.
  intros Hp. unfold open_write.
  apply confined_bind_l; [by apply confined_emit|]. intros _.
  apply confined_bind_nil; [apply confined_tick|]. intros t.
  destruct (disk rt t p).
  - by apply confined_set_file.
  - apply confined_raise.
  - apply confined_bind_nil; [by apply confined_set_file|]. intros _.
    apply confined_raise.
Qed.

Lemma confined_save_json data p :
  allowed (EvWrite p) -> confined allowed [EvWrite p] (save_json rt data p).
Proof.
  intros Hp. unfold save_json.
  apply confined_bind_r; [apply confined_makedirs|]. intros _.
  by apply confined_open_write.
Qed.

Lemma confined_print msg : confined allowed [] (print msg).
Proof. eapply confined_drop. apply confined_emit, allowed_print. Qed.

Lemma confined_sleep ms : confined allowed [] (sleep ms).
Proof. eapply confined_drop. apply confined_emit, allowed_sleep. Qed.

Lemma confined_download_photo url p :
  allowed (EvWrite p) -> (forall u, allowed (EvHttpGet u)) ->
  confined allowed [] (download_photo rt url p).
Proof.
  intros Hp Hget. unfold download_photo.
  eapply confined_try_except.
  - apply confined_bind_nil.
    + destruct url; try apply confined_raise.
      apply confined_bind_nil; [eapply confined_drop, confined_emit, Hget|]. intros _.
      apply confined_bind_nil; [apply confined_tick|]. intros t. apply confined_lift.
    + intros response. apply confined_bind_nil; [apply confined_makedirs|]. intros _.
      apply confined_bind_nil; [eapply confined_drop; by apply confined_open_write|].
      intros _. destruct response; [apply confined_ret|apply confined_raise].
  - intros e. apply confined_bind_nil; [apply confined_print|]. intros _.
    apply confined_ret.
Qed.

Lemma confined_get_cached_user_info user_id :
  confined allowed [] (get_cached_user_info rt user_id).
Proof.
  unfold get_cached_user_info, get_user_info.
  quiet_with ltac:(first [apply confined_fallback]).
Qed.

Lemma confined_comment_of comment : confined allowed [] (comment_of rt comment).
Proof.
  unfold comment_of. quiet_with ltac:(first [apply confined_get_cached_user_info]).
Qed.

Lemma confined_favorite_of person : confined allowed [] (favorite_of rt person).
Proof.
  unfold favorite_of. quiet_with ltac:(first [apply confined_get_cached_user_info]).
Qed.

Lemma confined_add_location photo_id metadata :
  confined allowed [] (add_location rt photo_id metadata).
Proof.
  unfold add_location, get_photo_geo. quiet_with ltac:(first [apply confined_fallback]).
Qed.

Lemma confined_add_albums photo_id metadata :
  confined allowed [] (add_albums rt photo_id metadata).
Proof.
  unfold add_albums, get_photo_contexts. quiet_with ltac:(first [apply confined_fallback]).
Qed.

Lemma confined_bind_lift {A B} must (r : result A) (k : A -> M B) :
  (forall a, r = Ok a -> confined allowed must (k a)) ->
  confined allowed must (lift r ≫= k).
Proof.
  intros Hk w. unfold mbind, M_bind, lift. destruct r as [a|e]; simpl.
  - apply (Hk a eq_refl w).
  - exists []. rewrite app_nil_r. split; [done|]. split; [constructor|].
    split; [done|]. done.
Qed.

Lemma confined_archive_comments photo_id photo_dir :
  allowed (EvWrite (path_join photo_dir "comments.json")) ->
  confined allowed [EvWrite (path_join photo_dir "comments.json")]
    (archive_comments rt photo_id photo_dir).
Proof.
  intros Hp. unfold archive_comments, get_photo_comments.
  apply confined_bind_r; [apply confined_fallback|]. intros comments_data.
  apply confined_bind_r; [apply confined_lift|]. intros raw.
  apply confined_bind_r; [|intros comments; by apply confined_save_json].
  eapply confined_mapM. intros c. apply confined_comment_of.
Qed.

Lemma confined_archive_favorites photo_id photo_dir :
  allowed (EvWrite (path_join photo_dir "favorites.json")) ->
  confined allowed [EvWrite (path_join photo_dir "favorites.json")]
    (archive_favorites rt photo_id photo_dir).
Proof.
  intros Hp. unfold archive_favorites, get_photo_favorites.
  apply confined_bind_r; [apply confined_fallback|]. intros faves_data.
  apply confined_bind_r; [apply confined_lift|]. intros raw.
  apply confined_bind_r; [|intros favorites; by apply confined_save_json].
  eapply confined_mapM. intros c. apply confined_favorite_of.
Qed.

Lemma confined_archive_exif photo_id photo_dir :
  allowed (EvWrite (path_join photo_dir "exif.json")) ->
  confined allowed [EvWrite (path_join photo_dir "exif.json")]
    (archive_exif rt photo_id photo_dir).
Proof.
  intros Hp. unfold archive_exif, get_photo_exif.
  apply confined_bind_r; [apply confined_fallback|]. intros exif_data.
  apply confined_bind_r; [apply confined_lift|]. intros exif.
  by apply confined_save_json.
Qed.

Lemma confined_archive_records photo photo_id photo_dir is_favorite :
  (forall p, In p (record_paths photo_dir) -> allowed (EvWrite p)) ->
  confined allowed (EvWrite <$> record_paths photo_dir)
    (archive_records rt photo photo_id photo_dir is_favorite).
Proof.
  intros Hp. unfold archive_records, get_photo_info.
  apply confined_bind_r; [apply confined_print|]. intros _.
  apply confined_bind_r; [eapply confined_drop, confined_call|]. intros info.
  apply confined_bind_r; [apply confined_lift|]. intros md0.
  apply confined_bind_r; [apply confined_lift|]. intros md1.
  apply confined_bind_r; [apply confined_add_location|]. intros md2.
  apply confined_bind_r; [apply confined_add_albums|]. intros md3.
  apply (confined_bind allowed [_] [_; _; _]).
  { apply confined_save_json, Hp. simpl. tauto. }
  intros _. apply (confined_bind allowed [_] [_; _]).
  { apply confined_archive_comments, Hp. simpl. tauto. }
  intros _. apply (confined_bind allowed [_] [_]).
  { apply confined_archive_favorites, Hp. simpl. tauto. }
  intros _. apply confined_bind_l.
  { apply confined_archive_exif, Hp. simpl. tauto. }
  intros _. apply confined_ret.
Qed.

Lemma confined_archive_video photo_id photo_dir info metadata :
  (forall p, In p (media_paths photo_dir) -> allowed (EvWrite p)) ->
  (forall u, allowed (EvHttpGet u)) ->
  confined allowed [EvCall (photos_getSizes photo_id)]
    (archive_video rt photo_id photo_dir info metadata).
Proof.
  intros Hp Hget. unfold archive_video, get_photo_sizes.
  apply confined_bind_r; [apply confined_print|]. intros _.
  apply confined_bind_r; [apply confined_lift|]. intros video_urls.
  apply confined_bind_l; [apply confined_call|]. intros sizes.
  assert (allowed (EvWrite (path_join photo_dir "sizes.json"))) by (apply Hp; simpl; tauto).
  assert (allowed (EvWrite (path_join photo_dir "poster.jpg"))) by (apply Hp; simpl; tauto).
  quiet_with ltac:(first [ apply confined_print
                         | by apply confined_download_photo
                         | eapply confined_drop; by apply confined_save_json ]).
Qed.

Lemma confined_archive_original photo_id photo_dir :
  (forall p, In p (media_paths photo_dir) -> allowed (EvWrite p)) ->
  (forall u, allowed (EvHttpGet u)) ->
  confined allowed [EvCall (photos_getSizes photo_id)]
    (archive_original rt photo_id photo_dir).
Proof.
  intros Hp Hget. unfold archive_original, get_photo_sizes.
  apply confined_bind_l; [apply confined_call|]. intros sizes.
  assert (allowed (EvWrite (path_join photo_dir "sizes.json"))) by (apply Hp; simpl; tauto).
  apply confined_bind_nil; [apply confined_lift|]. intros size_list.
  apply confined_bind_nil; [apply confined_lift|]. intros [o|]; [|apply confined_ret].
  destruct (truthy o); [|apply confined_ret].
  apply confined_bind_nil; [apply confined_lift|]. intros photo_url.
  apply confined_bind_lift. intros ext Hext.
  assert (allowed (EvWrite (path_join photo_dir ("original." +:+ ext)))).
  { apply Hp. destruct photo_url; try done. injection Hext as <-.
    right. right.
    apply (in_map (fun e => path_join photo_dir ("original." +:+ e))), file_ext_allowed. }
  quiet_with ltac:(first [ apply confined_print
                         | by apply confined_download_photo
                         | eapply confined_drop; by apply confined_save_json ]).
Qed.

Lemma confined_archive_media photo_id photo_dir info metadata :
  (forall p, In p (media_paths photo_dir) -> allowed (EvWrite p)) ->
  (forall u, allowed (EvHttpGet u)) ->
  confined allowed [EvCall (photos_getSizes photo_id)]
    (archive_media rt photo_id photo_dir info metadata).
Proof.
  intros Hp Hget. unfold archive_media.
  apply confined_bind_r; [apply confined_lift|]. intros media.
  destruct (eq_str "video" media).
  - apply confined_bind_l; [by apply confined_archive_video|]. intros _.
    apply confined_ret.
  - by apply confined_archive_original.
Qed.

Lemma confined_archive_steps photo photo_id photo_dir is_favorite :
  (forall p, In p (record_paths photo_dir ++ media_paths photo_dir) -> allowed (EvWrite p)) ->
  (forall u, allowed (EvHttpGet u)) ->
  confined allowed
    ((EvWrite <$> record_paths photo_dir) ++ [EvCall (photos_getSizes photo_id)])
    (archive_steps rt photo photo_id photo_dir is_favorite).
Proof.
  intros Hp Hget. unfold archive_steps. apply confined_bind.
  - apply confined_archive_records. intros p Hin. apply Hp, in_or_app. by left.
  - intros [info metadata]. apply confined_archive_media; [|done].
    intros p Hin. apply Hp, in_or_app. by right.
Qed.

End Pipeline.

(* ===================================================================== *)
(** ** Properties: the completion marker *)
(* ===================================================================== *)

Lemma append_inj_l a x y : a +:+ x = a +:+ y -> x = y.
Proof. induction a as [|c a IH]; simpl; [done|]. intros [= H]. by apply IH. Qed.

Lemma path_join_inj d b1 b2 :
  starts_with "/" b1 = false -> starts_with "/" b2 = false ->
  path_join d b1 = path_join d b2 -> b1 = b2.
Proof.
  unfold path_join. intros -> ->.
  destruct (String.eqb d "" || ends_with_slash d)%bool; intros H.
  - by apply append_inj_l in H.
  - apply append_inj_l in H. by apply (append_inj_l "/") in H.
Qed.

Lemma marker_not_archived photo_dir :
  ~ In (path_join photo_dir "complete.flag")
       (record_paths photo_dir ++ media_paths photo_dir).
Proof.
  unfold record_paths, media_paths, allowed_ext. simpl.
  intros H. repeat destruct H as [H|H]; try done;
    apply path_join_inj in H; done.
Qed.

Lemma write_marker_run rt photo_dir w :
  let marker := path_join photo_dir "complete.flag" in
  write_marker rt photo_dir w =
  match disk rt (clock w) marker with
  | DiskOk => (Ok tt, with_file marker (CText (now_iso rt (clock w)))
                        (advance 1 [EvWrite marker] w))
  | DiskRefused => (Raise OSError, advance 1 [EvWrite marker] w)
  | DiskCut => (Raise OSError, with_file marker CPartial (advance 1 [EvWrite marker] w))
  end.
Proof.
  simpl. unfold write_marker, open_write, mbind, M_bind, emit, tick. simpl.
  by destruct (disk rt (clock w) _).
Qed.

Lemma process_photo_run rt photo pid base fav w :
  sub "id" photo = Ok (JStr pid) ->
  let photo_dir := path_join base pid in
  let marker := path_join photo_dir "complete.flag" in
  process_photo rt photo base fav w =
  if bool_decide (is_Some (files w !! marker)) || bool_decide (marker ∈ dirs w)
  then (Ok tt, advance 0 [EvSleep RATE_DELAY;
                          EvPrint ("  Skipping " +:+ pid +:+ " - already processed")] w)
  else (_ ← archive_steps rt photo (JStr pid) photo_dir fav;
        _ ← write_marker rt photo_dir;
        sleep 500) (advance 0 [EvSleep RATE_DELAY] w).
Proof.
  intros Hid. simpl. unfold process_photo.
  unfold mbind at 1, M_bind at 1, lift at 1. rewrite Hid.
  unfold mbind at 1, M_bind at 1, sleep at 1, emit at 1.
  unfold mbind at 1, M_bind at 1, lift at 1.
  unfold mbind at 1, M_bind at 1, path_exists at 1. simpl files. simpl dirs.
  destruct (bool_decide _ || bool_decide _); [|done].
  unfold print, emit, advance. simpl. by rewrite <- app_assoc.
Qed.

Lemma not_written es ps http p :
  Forall (touches ps http) es -> ~ In p ps -> ~ In (EvWrite p) es.
Proof.
  intros Hall Hp Hin. rewrite Forall_forall in Hall.
  apply Hp, (Hall (EvWrite p)). by apply list_elem_of_In.
Qed.

Lemma empty_world_unarchived base pid : unarchived base pid empty_world.
Proof. split; [done|]. apply not_elem_of_empty. Qed.

(** The archival of a photo that has no marker yet: the marker write comes
    after every other step, and a run that raises has not made it, or was
    refused by the disk while making it. *)
Lemma marker_step_last (rt : runtime) (photo : json) (pid base : string)
    (fav : bool) (w : world)
    (Hid : sub "id" photo = Ok (JStr pid))
    (Hnew : unarchived base pid w) :
  let photo_dir := path_join base pid in
  let marker := path_join photo_dir "complete.flag" in
  let run := process_photo rt photo base fav w in
  exists es,
    trace (snd run) = trace w ++ es /\
    match fst run with
    | Ok _ =>
        exists pre t,
          es = pre ++ [EvWrite marker; EvSleep 500] /\
          ~ In (EvWrite marker) pre /\
          sublist (landmarks (JStr pid) photo_dir) pre /\
          clock (snd run) = S t /\
          files (snd run) !! marker = Some (CText (now_iso rt t))
    | Raise e =>
        (~ In (EvWrite marker) es /\ files (snd run) !! marker = None) \/
        (exists pre t,
           es = pre ++ [EvWrite marker] /\
           ~ In (EvWrite marker) pre /\
           sublist (landmarks (JStr pid) photo_dir) pre /\
           clock (snd run) = S t /\ disk rt t marker <> DiskOk /\ e = OSError /\
           (files (snd run) !! marker = None \/
            files (snd run) !! marker = Some CPartial))
    end.
Proof.
  intros photo_dir marker run. subst run.
  rewrite (process_photo_run _ _ _ _ _ _ Hid). fold photo_dir. fold marker.
  destruct Hnew as [Hnone Hnodir]. fold photo_dir in Hnone, Hnodir.
  fold marker in Hnone, Hnodir.
  rewrite Hnone, (bool_decide_eq_false_2 (is_Some None)) by (by intros [? ?]).
  rewrite (bool_decide_eq_false_2 _ Hnodir). cbn [orb].
  set (w1 := advance 0 [EvSleep RATE_DELAY] w).
  set (al := touches (record_paths photo_dir ++ media_paths photo_dir) true).
  destruct (confined_archive_steps rt al (fun e H => touches_mono [] _ false true e
              ltac:(intros ? []) ltac:(done) H) photo (JStr pid) photo_dir fav
              ltac:(done) ltac:(done) w1) as (es1 & Ht1 & Hal1 & Hf1 & Hs1).
  assert (Hnot1 : ~ In (EvWrite marker) (EvSleep RATE_DELAY :: es1)).
  { intros [?|Hin]; [done|]. revert Hin.
    eapply not_written; [exact Hal1|]. apply marker_not_archived. }
  assert (Hkeep : files (snd (archive_steps rt photo (JStr pid) photo_dir fav w1)) !! marker
                  = None).
  { rewrite Hf1; [exact Hnone|]. apply marker_not_archived. }
  rewrite bind_run.
  destruct (archive_steps rt photo (JStr pid) photo_dir fav w1) as [[[]|e] w2] eqn:Esteps;
    simpl in Ht1, Hs1, Hkeep.
  - assert (Hland : sublist (landmarks (JStr pid) photo_dir) (EvSleep RATE_DELAY :: es1)).
    { apply sublist_cons. by apply Hs1. }
    rewrite bind_run, write_marker_run. fold photo_dir. fold marker.
    destruct (disk rt (clock w2) marker) eqn:Edisk.
    + rewrite sleep_run.
      exists (EvSleep RATE_DELAY :: es1 ++ [EvWrite marker; EvSleep 500]).
      split; [simpl; rewrite Ht1; simpl; by rewrite <- !app_assoc|].
      cbn [fst snd]. exists (EvSleep RATE_DELAY :: es1), (clock w2).
      split; [done|]. split; [done|]. split; [done|]. split; [done|].
      simpl. apply lookup_insert_eq.
    + exists (EvSleep RATE_DELAY :: es1 ++ [EvWrite marker]).
      split; [simpl; rewrite Ht1; simpl; by rewrite <- !app_assoc|].
      cbn [fst snd]. right. exists (EvSleep RATE_DELAY :: es1), (clock w2).
      split; [done|]. split; [done|]. split; [done|]. split; [done|].
      split; [by rewrite Edisk|]. split; [done|]. by left.
    + exists (EvSleep RATE_DELAY :: es1 ++ [EvWrite marker]).
      split; [simpl; rewrite Ht1; simpl; by rewrite <- !app_assoc|].
      cbn [fst snd]. right. exists (EvSleep RATE_DELAY :: es1), (clock w2).
      split; [done|]. split; [done|]. split; [done|]. split; [done|].
      split; [by rewrite Edisk|]. split; [done|]. right. simpl. apply lookup_insert_eq.
  - exists (EvSleep RATE_DELAY :: es1).
    split; [simpl; rewrite Ht1; simpl; by rewrite <- !app_assoc|].
    cbn [fst snd]. left. by split.
Qed.

(** C1: in [process_photo], for a photo with a string id, the marker write
    is the last persistence action.  A run that returns has either found a
    marker and skipped the photo, writing nothing, or it has written the
    metadata, comments, favorites and EXIF files and fetched the sizes, in
    this order, then has written the marker, once and after every other
    event, and has paused; the marker holds the time read when it was
    written.  A run that ends in an exception found no marker, and it has
    either not attempted the marker write at all, and then no marker exists,
    or it has completed every step before it and was refused by the disk at
    the marker write itself, which is then its last event. *)
Theorem marker_written_last (rt : runtime) (photo : json) (pid base : string)
    (fav : bool) (w : world)
    (Hid : sub "id" photo = Ok (JStr pid)) :
  let photo_dir := path_join base pid in
  let marker := path_join photo_dir "complete.flag" in
  let run := process_photo rt photo base fav w in
  exists es,
    trace (snd run) = trace w ++ es /\
    match fst run with
    | Ok _ =>
        (~ unarchived base pid w /\
         (exists msg, es = [EvSleep RATE_DELAY; EvPrint msg]) /\
         files (snd run) = files w) \/
        (unarchived base pid w /\
         exists pre t,
           es = pre ++ [EvWrite marker; EvSleep 500] /\
           ~ In (EvWrite marker) pre /\
           sublist (landmarks (JStr pid) photo_dir) pre /\
           clock (snd run) = S t /\
           files (snd run) !! marker = Some (CText (now_iso rt t)))
    | Raise e =>
        unarchived base pid w /\
        ((~ In (EvWrite marker) es /\ files (snd run) !! marker = None) \/
         (exists pre t,
            es = pre ++ [EvWrite marker] /\
            ~ In (EvWrite marker) pre /\
            sublist (landmarks (JStr pid) photo_dir) pre /\
            clock (snd run) = S t /\ disk rt t marker <> DiskOk /\ e = OSError /\
            (files (snd run) !! marker = None \/
             files (snd run) !! marker = Some CPartial)))
    end.
Proof.
  intros photo_dir marker run.
  assert (Hskip : ~ unarchived base pid w ->
    run = (Ok tt, advance 0 [EvSleep RATE_DELAY;
                             EvPrint ("  Skipping " +:+ pid +:+ " - already processed")] w)).
  { intros Hnot. subst run. rewrite (process_photo_run _ _ _ _ _ _ Hid).
    fold photo_dir. fold marker.
    destruct (bool_decide (is_Some (files w !! marker))) eqn:Ef; [done|].
    destruct (bool_decide (marker ∈ dirs w)) eqn:Ed; [done|].
    destruct Hnot. unfold unarchived. fold photo_dir. fold marker. split.
    - apply bool_decide_eq_false_1 in Ef. destruct (files w !! marker); [|done].
      destruct Ef. by eexists.
    - by apply bool_decide_eq_false_1 in Ed. }
  assert (Hcases : unarchived base pid w \/ ~ unarchived base pid w).
  { unfold unarchived. fold photo_dir. fold marker.
    destruct (files w !! marker); [right; by intros [? _]|].
    destruct (decide (marker ∈ dirs w)); [right; by intros [_ ?]|by left]. }
  destruct Hcases as [Hnew|Hold].
  - destruct (marker_step_last rt photo pid base fav w Hid Hnew) as (es & Htrace & Hrun).
    fold photo_dir in Htrace, Hrun. fold marker in Hrun. fold run in Htrace, Hrun.
    exists es. split; [exact Htrace|].
    destruct (fst run); [right|]; by split.
  - rewrite (Hskip Hold). eexists. split; [reflexivity|].
    left. split; [exact Hold|]. split; [by eexists|reflexivity].
Qed.

Lemma marker_written_last_witness :
  exists t,
    clock (snd (process_photo (sample_rt "photo" (JList [])) sample_photo PHOTOS_DIR
                  false empty_world)) = S t /\
    files (snd (process_photo (sample_rt "photo" (JList [])) sample_photo PHOTOS_DIR
                  false empty_world))
      !! path_join (path_join PHOTOS_DIR "1") "complete.flag"
    = Some (CText (now_iso (sample_rt "photo" (JList [])) t)).
Proof.
  pose proof (marker_written_last (sample_rt "photo" (JList [])) sample_photo "1"
                PHOTOS_DIR false empty_world eq_refl) as Hrun.
  cbv zeta in Hrun. destruct Hrun as (es & _ & Hrun).
  remember (process_photo (sample_rt "photo" (JList [])) sample_photo PHOTOS_DIR
              false empty_world) as run eqn:Erun.
  assert (fst run = Ok tt) as Hok by (rewrite Erun; vm_compute; reflexivity).
  rewrite Hok in Hrun.
  destruct Hrun as [[Hold _]|[_ (pre & t & _ & _ & _ & Hclock & Hfile)]].
  - destruct Hold. apply empty_world_unarchived.
  - exists t. split; [exact Hclock | exact Hfile].
Defined.

(* ===================================================================== *)
(** ** Properties: resuming (lines 92-95 and 313-343) *)
(* ===================================================================== *)

Lemma advance_zero w : advance 0 [] w = w.
Proof. destruct w. unfold advance. simpl. by rewrite app_nil_r. Qed.

Section Resume.

Context (rt : runtime) (fs : gmap string content).

Lemma listing_pure {A} (f : world -> result A) : listing_run fs (fun w => (f w, w)).
Proof. intros w _. exists 0%nat, []. simpl. by rewrite advance_zero. Qed.

Lemma listing_ret {A} (a : A) : listing_run fs (mret a : M A).
Proof. apply (listing_pure (fun _ => Ok a)). Qed.

Lemma listing_lift {A} (r : result A) : listing_run fs (lift r).
Proof. apply (listing_pure (fun _ => r)). Qed.

Lemma listing_listdir d : listing_run fs (listdir d).
Proof.
  intros w _. exists 0%nat, []. unfold listdir.
  destruct (bool_decide _); simpl; by rewrite advance_zero.
Qed.

Lemma listing_print msg : listing_run fs (print msg).
Proof. intros w _. exists 0%nat, [EvPrint msg]. split; [done|]. by repeat constructor. Qed.

Lemma listing_get_photos user_id per_page page :
  listing_run fs (get_photos rt user_id per_page page).
Proof.
  intros w _. exists 1%nat, [EvCall (people_getPhotos user_id per_page page)].
  unfold get_photos. rewrite call_run. split; [done|]. by repeat constructor.
Qed.

Lemma listing_bind {A B} (m : M A) (k : A -> M B) :
  listing_run fs m -> (forall a, listing_run fs (k a)) -> listing_run fs (m ≫= k).
Proof.
  intros Hm Hk w Hw. destruct (Hm w Hw) as (n1 & es1 & E1 & H1).
  unfold mbind, M_bind. destruct (m w) as [[a|e] w1]; simpl in E1; subst w1.
  - destruct (Hk a (advance n1 es1 w) Hw) as (n2 & es2 & E2 & H2).
    exists (n2 + n1)%nat, (es1 ++ es2). rewrite E2, advance_advance.
    split; [done|]. by apply Forall_app.
  - by exists n1, es1.
Qed.

Lemma listing_process_photo photo base fav :
  completed base fs photo -> listing_run fs (process_photo rt photo base fav).
Proof.
  intros (pid & c & Hid & Hmarker) w Hw.
  rewrite (process_photo_run _ _ _ _ _ _ Hid), Hw, Hmarker.
  rewrite bool_decide_eq_true_2 by (by eexists). simpl.
  eexists 0%nat, _. split; [reflexivity|]. by repeat constructor.
Qed.

Lemma listing_photo_loop processed_ids photos_data total_processed i photos :
  Forall (completed PHOTOS_DIR fs) photos ->
  listing_run fs (photo_loop rt processed_ids photos_data total_processed i photos).
Proof.
  intros Hall. revert i. induction Hall as [|photo photos Hphoto _ IH]; intros i; simpl.
  - apply listing_ret.
  - apply listing_bind; [apply listing_lift|]. intros photo_id.
    apply listing_bind; [apply listing_lift|]. intros seen.
    apply listing_bind; [|intros _; apply IH].
    destruct seen; [apply listing_ret|].
    apply listing_bind; [apply listing_lift|]. intros total.
    apply listing_bind; [apply listing_print|]. intros _.
    by apply listing_process_photo.
Qed.

Lemma listing_bind_lift {A B} (r : result A) (k : A -> M B) :
  (forall a, r = Ok a -> listing_run fs (k a)) -> listing_run fs (lift r ≫= k).
Proof.
  intros Hk w Hw. unfold mbind, M_bind, lift. destruct r as [a|e]; simpl.
  - by apply Hk.
  - exists 0%nat, []. by rewrite advance_zero.
Qed.

Lemma listing_bind_get_photos {B} user_id per_page page (k : json -> M B) :
  (forall t v, flickr rt t (people_getPhotos user_id per_page page) = Ok v ->
               listing_run fs (k v)) ->
  listing_run fs (get_photos rt user_id per_page page ≫= k).
Proof.
  intros Hk w Hw. unfold mbind, M_bind, get_photos. rewrite call_run.
  set (r := people_getPhotos user_id per_page page) in *.
  destruct (flickr rt (clock w) r) as [v|e] eqn:E.
  - destruct (Hk _ _ E (advance 1 [EvCall r] w) Hw) as (n & es & E2 & H2).
    exists (n + 1)%nat, ([EvCall r] ++ es). rewrite E2, advance_advance.
    split; [done|]. apply Forall_app. split; [by repeat constructor|done].
  - exists 1%nat, [EvCall r]. split; [done|]. by repeat constructor.
Qed.

(** Every photo the service lists for the user is already archived. *)
Hypothesis all_completed :
  forall t page resp photos items,
    flickr rt t (people_getPhotos (USER_ID rt) 100 page) = Ok resp ->
    sub "photos" resp >>> sub "photo" = Ok photos ->
    iter photos = Ok items ->
    Forall (completed PHOTOS_DIR fs) items.

Lemma listing_download_pages fuel processed_ids page total_processed :
  listing_run fs (download_pages rt fuel processed_ids page total_processed).
Proof.
  revert page total_processed. induction fuel as [|fuel IH]; intros page total; simpl.
  - apply listing_ret.
  - apply listing_bind; [apply listing_print|]. intros _.
    apply listing_bind_get_photos. intros t photos_data Hresp.
    apply listing_bind_lift. intros photos Hphotos.
    destruct (negb (truthy photos)); [apply listing_ret|].
    apply listing_bind; [apply listing_lift|]. intros n.
    apply listing_bind; [apply listing_print|]. intros _.
    apply listing_bind_lift. intros items Hitems.
    apply listing_bind.
    { apply listing_photo_loop. eapply all_completed; eauto. }
    intros _. apply listing_bind; [apply listing_lift|]. intros pages.
    apply listing_bind; [apply listing_lift|]. intros stop.
    destruct stop; [apply listing_ret|apply IH].
Qed.

Lemma listing_download_my_photos fuel : listing_run fs (download_my_photos rt fuel).
Proof.
  unfold download_my_photos.
  apply listing_bind; [apply listing_print|]. intros _.
  apply listing_bind; [apply listing_listdir|]. intros processed_ids.
  apply listing_bind; [apply listing_download_pages|]. intros [total|].
  - apply listing_bind; [apply listing_print|]. intros _. apply listing_ret.
  - apply listing_ret.
Qed.

End Resume.

(** C5, as stated, fails in its last clause: a re-run of the walk over a
    photo that is complete still calls the service, once for the page it
    lists the photo on. *)
Lemma rerun_fetches_listing_counterexample :
  completed PHOTOS_DIR (files archived_world) sample_photo /\
  calls_of (trace (snd (download_my_photos listing_rt 5 archived_world)))
  = [people_getPhotos (JStr "me") 100 1].
Proof.
  split; [|vm_compute; reflexivity].
  exists "1", (CText "2023-12-31T10:00:00"). split; reflexivity.
Qed.

(** C5 (amended): [process_photo] on a photo whose completion marker file
    exists pauses, logs and returns: it performs no remote fetch, writes no
    file and leaves files, directories and the user cache as they were.  And
    when every photo the service lists is in that state, the owned-photos
    walk, however far it gets, makes no remote call other than the page
    listings themselves and leaves the archive unchanged. *)
Theorem completed_photos_skipped (rt : runtime) (w : world) :
  (forall photo base fav, completed base (files w) photo ->
     exists msg,
       process_photo rt photo base fav w =
       (Ok tt, advance 0 [EvSleep RATE_DELAY; EvPrint msg] w)) /\
  (forall fuel,
     (forall t page resp photos items,
        flickr rt t (people_getPhotos (USER_ID rt) 100 page) = Ok resp ->
        sub "photos" resp >>> sub "photo" = Ok photos ->
        iter photos = Ok items ->
        Forall (completed PHOTOS_DIR (files w)) items) ->
     exists n es,
       snd (download_my_photos rt fuel w) = advance n es w /\
       Forall listing_only es).
Proof.
  split.
  - intros photo base fav (pid & c & Hid & Hmarker).
    rewrite (process_photo_run _ _ _ _ _ _ Hid), Hmarker.
    rewrite bool_decide_eq_true_2 by (by eexists). simpl. by eexists.
  - intros fuel Hall. by apply (listing_download_my_photos rt (files w) Hall fuel w).
Qed.

Lemma completed_photos_skipped_witness :
  (exists msg,
     process_photo listing_rt sample_photo PHOTOS_DIR false archived_world =
     (Ok tt, advance 0 [EvSleep RATE_DELAY; EvPrint msg] archived_world)) /\
  (exists n es,
     snd (download_my_photos listing_rt 5 archived_world) = advance n es archived_world /\
     Forall listing_only es).
Proof.
  destruct (completed_photos_skipped listing_rt archived_world) as [Hone Hwalk].
  split.
  - apply Hone. exists "1", (CText "2023-12-31T10:00:00"). split; reflexivity.
  - apply Hwalk. intros t page resp photos items Hresp Hphotos Hitems.
    simpl in Hresp. injection Hresp as <-. simpl in Hphotos. injection Hphotos as <-.
    simpl in Hitems. injection Hitems as <-.
    constructor; [|constructor].
    exists "1", (CText "2023-12-31T10:00:00"). split; reflexivity.
Defined.

(** The same walk, run: the listing is fetched once and nothing else happens. *)
Example rerun_walk_trace :
  download_my_photos listing_rt 5 archived_world =
  (Ok (Some tt),
   advance 1 [EvPrint "Downloading photos for user me";
              EvPrint "Fetching page 1...";
              EvCall (people_getPhotos (JStr "me") 100 1);
              EvPrint "Found 1 photos on page 1";
              EvPrint "Completed downloading 1 photos"] archived_world).
Proof. vm_compute. reflexivity. Qed.

(* ===================================================================== *)
(** ** Properties: the persisted metadata record *)
(* ===================================================================== *)

Lemma bind_ok {A B} (m : M A) (k : A -> M B) w b w' :
  (m ≫= k) w = (Ok b, w') ->
  exists a w1, m w = (Ok a, w1) /\ k a w1 = (Ok b, w').
Proof.
  unfold mbind, M_bind. destruct (m w) as [[a|e] w1]; [|done].
  intros H. by exists a, w1.
Qed.

Lemma lift_ok {A} (r : result A) w a w' : lift r w = (Ok a, w') -> r = Ok a /\ w' = w.
Proof. unfold lift. by intros [= -> ->]. Qed.

Lemma and_then_ok {A B} (r : result A) (f : A -> result B) b :
  r >>> f = Ok b -> exists a, r = Ok a /\ f a = Ok b.
Proof. destruct r as [a|e]; simpl; [|done]. intros H. by exists a. Qed.

Lemma result_bind_ok {A B} (r : result A) (f : A -> result B) b :
  r ≫= f = Ok b -> exists a, r = Ok a /\ f a = Ok b.
Proof. destruct r as [a|e]; simpl; [|done]. intros H. by exists a. Qed.

Lemma assoc_set_ne {A} k k' (v : A) d : k <> k' -> assoc k (assoc_set k' v d) = assoc k d.
Proof.
  intros Hne. induction d as [|[k0 v0] d IH]; simpl.
  - destruct (String.eqb k k') eqn:E; [|done]. by apply String.eqb_eq in E.
  - destruct (String.eqb k' k0) eqn:E0; simpl.
    + apply String.eqb_eq in E0. subst k0.
      destruct (String.eqb k k') eqn:E; [|done]. by apply String.eqb_eq in E.
    + by rewrite IH.
Qed.

Lemma sub_set_key_ne k k' v md : k <> k' -> sub k (set_key k' v md) = sub k md.
Proof. intros Hne. destruct md; simpl; try done. by rewrite assoc_set_ne. Qed.

Lemma same_except_refl ks md : same_except ks md md.
Proof. by intros k _. Qed.

Lemma same_except_set_key ks k v md md' :
  In k ks -> same_except ks md md' -> same_except ks md (set_key k v md').
Proof.
  intros Hk Hs k' Hk'. rewrite sub_set_key_ne; [by apply Hs|]. by intros ->.
Qed.

(** What the dict literal holds under [stats], and that it has no
    [video_info] entry. *)
Lemma build_metadata_stats rt photo_id info md0 :
  build_metadata rt photo_id info = Ok md0 ->
  exists p stats,
    sub "photo" info = Ok p /\ stats_of p stats /\
    sub "stats" md0 = Ok stats /\
    sub "video_info" md0 = Raise (KeyError "video_info").
Proof.
  unfold build_metadata. intros H.
  apply result_bind_ok in H as (p & Hp & H).
  repeat (apply result_bind_ok in H as (? & ? & H)).
  injection H as <-. exists p. eexists. split; [done|]. split; [|done].
  do 3 eexists. repeat split; eassumption.
Qed.

Lemma add_location_ok rt photo_id md w md' w' ks :
  In "location" ks ->
  add_location rt photo_id md w = (Ok md', w') -> same_except ks md md'.
Proof.
  intros Hin H. unfold add_location in H.
  apply bind_ok in H as (geo & w1 & _ & H).
  apply bind_ok in H as (present & w2 & _ & H).
  destruct present.
  - apply lift_ok in H as [H _].
    repeat (apply result_bind_ok in H as (? & _ & H)).
    injection H as <-. by apply same_except_set_key, same_except_refl.
  - injection H as <- _. apply same_except_refl.
Qed.

Lemma add_albums_ok rt photo_id md w md' w' ks :
  In "albums" ks ->
  add_albums rt photo_id md w = (Ok md', w') -> same_except ks md md'.
Proof.
  intros Hin H. unfold add_albums in H.
  apply bind_ok in H as (contexts & w1 & _ & H).
  apply bind_ok in H as (albums & w2 & _ & H).
  injection H as <- _. by apply same_except_set_key, same_except_refl.
Qed.


Lemma save_json_ok rt data p w w' :
  save_json rt data p w = (Ok tt, w') -> files w' !! p = Some (CJson data).
Proof.
  unfold save_json. intros H. apply bind_ok in H as ([] & w1 & _ & H).
  unfold open_write, mbind, M_bind, emit, tick in H. simpl in H.
  destruct (disk rt (clock w1) p); simpl in H; try done.
  injection H as <-. simpl. apply lookup_insert_eq.
Qed.

Lemma same_except_trans ks a b c :
  same_except ks a b -> same_except ks b c -> same_except ks a c.
Proof. intros H1 H2 k Hk. by rewrite H2, H1. Qed.

(** What a successful pass over lines 97-222 leaves behind. *)
Lemma archive_records_ok rt photo photo_id photo_dir fav w info md w2 :
  archive_records rt photo photo_id photo_dir fav w = (Ok (info, md), w2) ->
  flickr rt (clock w) (photos_getInfo photo_id) = Ok info /\
  (exists md0, build_metadata rt photo_id info = Ok md0 /\
               same_except ["owner_name"; "location"; "albums"] md0 md) /\
  files w2 !! path_join photo_dir "metadata.json" = Some (CJson md).
Proof.
  unfold archive_records. intros H.
  apply bind_ok in H as ([] & wa & Hprint & H). injection Hprint as <-.
  apply bind_ok in H as (info' & wb & Hinfo & H).
  unfold get_photo_info in Hinfo. rewrite call_run in Hinfo. simpl in Hinfo.
  injection Hinfo as Hinfo <-.
  apply bind_ok in H as (md0 & wc & Hmd0 & H). apply lift_ok in Hmd0 as [Hmd0 ->].
  apply bind_ok in H as (md1 & wc & Hmd1 & H). apply lift_ok in Hmd1 as [Hmd1 ->].
  apply bind_ok in H as (md2 & wd & Hmd2 & H).
  apply bind_ok in H as (md3 & we & Hmd3 & H).
  apply bind_ok in H as ([] & wf & Hsave & H).
  apply bind_ok in H as ([] & wg & Hcomments & H).
  apply bind_ok in H as ([] & wh & Hfaves & H).
  apply bind_ok in H as ([] & wi & Hexif & H).
  injection H as <- <- <-.
  split; [done|]. split.
  - exists md0. split; [done|].
    assert (same_except ["owner_name"; "location"; "albums"] md0 md1) as H01.
    { destruct fav.
      - apply result_bind_ok in Hmd1 as (o & _ & Hmd1). injection Hmd1 as <-.
        apply same_except_set_key, same_except_refl. simpl. tauto.
      - injection Hmd1 as <-. apply same_except_refl. }
    eapply same_except_trans; [exact H01|].
    eapply same_except_trans.
    + eapply add_location_ok; [|exact Hmd2]. simpl. tauto.
    + eapply add_albums_ok; [|exact Hmd3]. simpl. tauto.
  - apply save_json_ok in Hsave.
    set (q := path_join photo_dir "metadata.json") in *.
    set (al := touches [path_join photo_dir "comments.json";
                        path_join photo_dir "favorites.json";
                        path_join photo_dir "exif.json"] false).
    assert (Hq : ~ al (EvWrite q)).
    { unfold al, q. simpl. intros Hin. repeat destruct Hin as [Hin|Hin]; try done;
        apply path_join_inj in Hin; done. }
    assert (Hal : forall e, touches [] false e -> al e).
    { intros e. apply touches_mono; [intros ? []|done]. }
    destruct (confined_archive_comments rt al Hal photo_id photo_dir
                ltac:(simpl; tauto) wf) as (_ & _ & _ & Hf1 & _).
    destruct (confined_archive_favorites rt al Hal photo_id photo_dir
                ltac:(simpl; tauto) wg) as (_ & _ & _ & Hf2 & _).
    destruct (confined_archive_exif rt al Hal photo_id photo_dir
                ltac:(simpl; tauto) wh) as (_ & _ & _ & Hf3 & _).
    rewrite Hcomments in Hf1. rewrite Hfaves in Hf2. rewrite Hexif in Hf3.
    simpl in Hf1, Hf2, Hf3. by rewrite Hf3, Hf2, Hf1.
Qed.

Lemma unarchived_not_skipped base pid w :
  unarchived base pid w ->
  bool_decide (is_Some (files w !! path_join (path_join base pid) "complete.flag"))
  || bool_decide (path_join (path_join base pid) "complete.flag" ∈ dirs w) = false.
Proof.
  intros [Hf Hd]. rewrite Hf. apply orb_false_iff. split.
  - apply bool_decide_eq_false. by intros [? ?].
  - by apply bool_decide_eq_false.
Qed.

Lemma metadata_not_media photo_dir :
  ~ In (path_join photo_dir "metadata.json") (media_paths photo_dir).
Proof.
  unfold media_paths, allowed_ext. simpl.
  intros H. repeat destruct H as [H|H]; try done; apply path_join_inj in H; done.
Qed.

Lemma touches_quiet ps http e : touches [] false e -> touches ps http e.
Proof. apply touches_mono; [intros ? []|done]. Qed.

(** A run of [process_photo] that was not skipped and returned, taken
    apart. *)
Lemma process_photo_ok rt photo pid base fav w w' :
  sub "id" photo = Ok (JStr pid) ->
  unarchived base pid w ->
  process_photo rt photo base fav w = (Ok tt, w') ->
  let photo_dir := path_join base pid in
  let marker := path_join photo_dir "complete.flag" in
  exists info md w2 w3,
    archive_records rt photo (JStr pid) photo_dir fav (advance 0 [EvSleep RATE_DELAY] w)
      = (Ok (info, md), w2) /\
    archive_media rt (JStr pid) photo_dir info md w2 = (Ok tt, w3) /\
    disk rt (clock w3) marker = DiskOk /\
    w' = advance 0 [EvSleep 500]
           (with_file marker (CText (now_iso rt (clock w3)))
              (advance 1 [EvWrite marker] w3)).
Proof.
  intros Hid Hun Hrun. simpl.
  rewrite (process_photo_run _ _ _ _ _ _ Hid), (unarchived_not_skipped _ _ _ Hun) in Hrun.
  apply bind_ok in Hrun as ([] & w3 & Hsteps & Hrun).
  apply bind_ok in Hrun as ([] & w4 & Hmarker & Hsleep).
  unfold archive_steps in Hsteps.
  apply bind_ok in Hsteps as ([info md] & w2 & Hrec & Hmedia).
  exists info, md, w2, w3. split; [done|]. split; [done|].
  rewrite write_marker_run in Hmarker.
  destruct (disk rt (clock w3) _); try done. split; [done|].
  injection Hmarker as <-. by injection Hsleep as <-.
Qed.

(** The metadata file a completed run leaves is the record built before
    the media branch ran. *)
Lemma persisted_metadata rt photo pid base fav w w' :
  sub "id" photo = Ok (JStr pid) ->
  unarchived base pid w ->
  process_photo rt photo base fav w = (Ok tt, w') ->
  exists info md0 md,
    flickr rt (clock w) (photos_getInfo (JStr pid)) = Ok info /\
    build_metadata rt (JStr pid) info = Ok md0 /\
    same_except ["owner_name"; "location"; "albums"] md0 md /\
    files w' !! path_join (path_join base pid) "metadata.json" = Some (CJson md).
Proof.
  intros Hid Hun Hrun.
  destruct (process_photo_ok _ _ _ _ _ _ _ Hid Hun Hrun)
    as (info & md & w2 & w3 & Hrec & Hmedia & _ & ->).
  apply archive_records_ok in Hrec as (Hinfo & (md0 & Hmd0 & Hsame) & Hfile).
  exists info, md0, md. split; [done|]. split; [done|]. split; [done|].
  simpl. rewrite lookup_insert_ne.
  2:{ intros Heq. by apply path_join_inj in Heq. }
  destruct (confined_archive_media rt (touches (media_paths (path_join base pid)) true)
              (touches_quiet _ _) (JStr pid) (path_join base pid) info md
              ltac:(done) ltac:(done) w2) as (_ & _ & _ & Hf & _).
  rewrite Hmedia in Hf. simpl in Hf. rewrite Hf; [done|].
  apply metadata_not_media.
Qed.

(** C2 (the code departs from it): whenever [process_photo] archives a
    photo, of a video as of any other kind, the metadata.json it leaves has
    no [video_info] entry.  The record is written before the media branch
    runs; the advisory is added to the in-memory dict afterwards and that dict
    is never written again. *)
Theorem video_info_not_persisted (rt : runtime) (photo : json) (pid base : string)
    (fav : bool) (w w' : world)
    (Hid : sub "id" photo = Ok (JStr pid))
    (Hnew : unarchived base pid w)
    (Hrun : process_photo rt photo base fav w = (Ok tt, w')) :
  exists md,
    files w' !! path_join (path_join base pid) "metadata.json" = Some (CJson md) /\
    sub "video_info" md = Raise (KeyError "video_info").
Proof.
  destruct (persisted_metadata _ _ _ _ _ _ _ Hid Hnew Hrun)
    as (info & md0 & md & _ & Hmd0 & Hsame & Hfile).
  exists md. split; [done|].
  apply build_metadata_stats in Hmd0 as (_ & _ & _ & _ & _ & Hnone).
  rewrite Hsame; [done|]. simpl. intros [?|[?|[?|[]]]]; done.
Qed.

Lemma video_info_not_persisted_witness :
  let sizes := JList [sample_size "Thumbnail" (JInt 100) "https://x/1_t.jpg"] in
  let w' := snd (process_photo (sample_rt "video" sizes) sample_photo PHOTOS_DIR
                   false empty_world) in
  (exists md,
     files w' !! path_join (path_join PHOTOS_DIR "1") "metadata.json" = Some (CJson md) /\
     sub "video_info" md = Raise (KeyError "video_info")) /\
  (exists sz,
     files w' !! path_join (path_join PHOTOS_DIR "1") "sizes.json" = Some (CJson sz) /\
     sub "note" sz = Ok (JStr "Videos must be downloaded manually from Flickr")).
Proof.
  intros sizes w'. split.
  - apply (video_info_not_persisted (sample_rt "video" sizes) sample_photo "1"
             PHOTOS_DIR false empty_world w' eq_refl (empty_world_unarchived _ _)).
    vm_compute. reflexivity.
  - eexists. split; vm_compute; reflexivity.
Defined.

(** C8, as stated, fails: the [favorites] entry of the stats is the
    [isfavorite] flag of the photo info, not the number of users who
    favorited the photo.  Here two users did, and the stats say 0. *)
Lemma stats_favorites_is_flag_counterexample :
  let w' := snd (process_photo (sample_rt "photo" (JList [])) sample_photo PHOTOS_DIR
                   false empty_world) in
  (exists md,
     files w' !! path_join (path_join PHOTOS_DIR "1") "metadata.json" = Some (CJson md) /\
     sub "stats" md >>> sub "favorites" = Ok (JInt 0)) /\
  (exists favorites,
     files w' !! path_join (path_join PHOTOS_DIR "1") "favorites.json"
       = Some (CJson (JList favorites)) /\
     length favorites = 2%nat).
Proof. split; eexists; split; vm_compute; reflexivity. Qed.

(** C8 (amended): for every photo record the pipeline builds and persists,
    the embedded stats sub-record holds the photo's view count, its comment
    count, and under [favorites] the [isfavorite] flag of the photo info
    (whether the calling user has favorited the photo), each read with
    [int()] and 0 when missing. *)
Theorem stats_record (rt : runtime) (photo : json) (pid base : string)
    (fav : bool) (w w' : world)
    (Hid : sub "id" photo = Ok (JStr pid))
    (Hnew : unarchived base pid w)
    (Hrun : process_photo rt photo base fav w = (Ok tt, w')) :
  exists info p md stats,
    flickr rt (clock w) (photos_getInfo (JStr pid)) = Ok info /\
    sub "photo" info = Ok p /\
    files w' !! path_join (path_join base pid) "metadata.json" = Some (CJson md) /\
    sub "stats" md = Ok stats /\
    stats_of p stats.
Proof.
  destruct (persisted_metadata _ _ _ _ _ _ _ Hid Hnew Hrun)
    as (info & md0 & md & Hinfo & Hmd0 & Hsame & Hfile).
  apply build_metadata_stats in Hmd0 as (p & stats & Hp & Hstats & Hsub & _).
  exists info, p, md, stats. repeat (split; [done|]). split; [|done].
  rewrite Hsame; [done|]. simpl. intros [?|[?|[?|[]]]]; done.
Qed.

Lemma stats_record_witness :
  exists md stats,
    files (snd (process_photo (sample_rt "photo" (JList [])) sample_photo PHOTOS_DIR
                  false empty_world))
      !! path_join (path_join PHOTOS_DIR "1") "metadata.json" = Some (CJson md) /\
    sub "stats" md = Ok stats /\
    stats_of (JDict [("views", JStr "42"); ("isfavorite", JInt 0);
                     ("comments", JDict [("_content", JStr "3")])]) stats.
Proof.
  destruct (stats_record (sample_rt "photo" (JList [])) sample_photo "1" PHOTOS_DIR false
              empty_world
              (snd (process_photo (sample_rt "photo" (JList [])) sample_photo PHOTOS_DIR
                      false empty_world))
              eq_refl (empty_world_unarchived _ _))
    as (info & p & md & stats & Hinfo & Hp & Hfile & Hstats & v & c & f & Hv & Hc & Hf & ->).
  - vm_compute. reflexivity.
  - simpl in Hinfo. injection Hinfo as <-. simpl in Hp. injection Hp as <-.
    exists md, (JDict [("views", JInt v); ("comments", JInt c); ("favorites", JInt f)]).
    split; [exact Hfile|]. split; [exact Hstats|].
    exists v, c, f. vm_compute in Hv, Hc, Hf. injection Hv as <-. injection Hc as <-.
    injection Hf as <-. repeat split; reflexivity.
Defined.

(* ===================================================================== *)
(** ** Properties: a photo with no sizes *)
(* ===================================================================== *)

Lemma gets_of_app es es' : gets_of (es ++ es') = gets_of es ++ gets_of es'.
Proof. unfold gets_of. apply omap_app. Qed.

Lemma gets_of_quiet ps es : Forall (touches ps false) es -> gets_of es = [].
Proof.
  induction 1 as [|e es He _ IH]; [done|].
  destruct e; simpl in *; try done.
Qed.

Lemma sizes_not_record photo_dir :
  ~ In (path_join photo_dir "sizes.json") (record_paths photo_dir).
Proof.
  unfold record_paths. simpl.
  intros H. repeat destruct H as [H|H]; try done; apply path_join_inj in H; done.
Qed.

Lemma archive_media_empty rt pid photo_dir info md w sizes media :
  sub "photo" info >>> get "media" (JStr "photo") = Ok media ->
  eq_str "video" media = false ->
  flickr rt (clock w) (photos_getSizes pid) = Ok sizes ->
  sub "sizes" sizes >>> sub "size" = Ok (JList []) ->
  archive_media rt pid photo_dir info md w =
  (Ok tt, advance 1 [EvCall (photos_getSizes pid)] w).
Proof.
  intros Hmedia Hphoto Hsizes Hlist.
  unfold archive_media, mbind, M_bind, lift. rewrite Hmedia, Hphoto.
  unfold archive_original, get_photo_sizes, mbind, M_bind, lift.
  rewrite call_run, Hsizes, Hlist. reflexivity.
Qed.

(** C9: for a photo that is not a video and whose fetched size list is
    empty, once the records of lines 97-222 are written, [process_photo]
    returns without an error; the whole run attempts no binary download and
    writes no sizes.json, which stays as it was; and the completion marker is
    written all the same, the disk permitting. *)
Theorem empty_size_list_completes (rt : runtime) (photo : json) (pid base : string)
    (fav : bool) (w w2 : world) (info md sizes media : json)
    (Hid : sub "id" photo = Ok (JStr pid))
    (Hnew : unarchived base pid w) :
  let photo_dir := path_join base pid in
  let marker := path_join photo_dir "complete.flag" in
  let sizes_json := path_join photo_dir "sizes.json" in
  let run := process_photo rt photo base fav w in
  archive_records rt photo (JStr pid) photo_dir fav (advance 0 [EvSleep RATE_DELAY] w)
    = (Ok (info, md), w2) ->
  sub "photo" info >>> get "media" (JStr "photo") = Ok media ->
  eq_str "video" media = false ->
  flickr rt (clock w2) (photos_getSizes (JStr pid)) = Ok sizes ->
  sub "sizes" sizes >>> sub "size" = Ok (JList []) ->
  disk rt (S (clock w2)) marker = DiskOk ->
  fst run = Ok tt /\
  exists es,
    trace (snd run) = trace w ++ es /\
    gets_of es = [] /\
    ~ In (EvWrite sizes_json) es /\
    files (snd run) !! sizes_json = files w !! sizes_json /\
    files (snd run) !! marker = Some (CText (now_iso rt (S (clock w2)))).
Proof.
  intros photo_dir marker sizes_json run Hrec Hmedia Hphoto Hsizes Hlist Hdisk.
  subst run. rewrite (process_photo_run _ _ _ _ _ _ Hid), (unarchived_not_skipped _ _ _ Hnew).
  fold photo_dir. set (w1 := advance 0 [EvSleep RATE_DELAY] w) in *.
  destruct (confined_archive_records rt (touches (record_paths photo_dir) false)
              (touches_quiet _ _) photo (JStr pid) photo_dir fav ltac:(done) w1)
    as (es0 & Ht0 & Hal0 & Hf0 & _).
  rewrite Hrec in Ht0, Hf0. simpl in Ht0, Hf0.
  unfold archive_steps, mbind, M_bind. rewrite Hrec.
  rewrite (archive_media_empty _ _ _ _ _ _ _ _ Hmedia Hphoto Hsizes Hlist).
  rewrite write_marker_run. fold photo_dir. fold marker. simpl clock. rewrite Hdisk.
  split; [done|].
  exists (EvSleep RATE_DELAY :: es0 ++
          [EvCall (photos_getSizes (JStr pid)); EvWrite marker; EvSleep 500]).
  split; [simpl; rewrite Ht0; by rewrite <- !app_assoc|].
  split; [simpl; rewrite gets_of_app, (gets_of_quiet _ _ Hal0); done|].
  split.
  - intros [?|Hin]; [done|]. apply in_app_or in Hin as [Hin|Hin].
    + revert Hin. eapply not_written; [exact Hal0|]. apply sizes_not_record.
    + simpl in Hin. destruct Hin as [?|[Heq|[?|[]]]]; try done.
      injection Heq as Heq. by apply path_join_inj in Heq.
  - simpl. split; [|apply lookup_insert_eq].
    rewrite lookup_insert_ne.
    2:{ intros Heq. by apply path_join_inj in Heq. }
    rewrite Hf0; [done|]. apply sizes_not_record.
Qed.

Lemma empty_size_list_completes_witness :
  let rt := sample_rt "photo" (JList []) in
  let run := process_photo rt sample_photo PHOTOS_DIR false empty_world in
  fst run = Ok tt /\
  files (snd run) !! path_join (path_join PHOTOS_DIR "1") "sizes.json" = None /\
  exists t,
    files (snd run) !! path_join (path_join PHOTOS_DIR "1") "complete.flag"
    = Some (CText (now_iso rt t)).
Proof.
  intros rt run.
  pose (rec := archive_records rt sample_photo (JStr "1") (path_join PHOTOS_DIR "1") false
                 (advance 0 [EvSleep RATE_DELAY] empty_world)).
  destruct (empty_size_list_completes rt sample_photo "1" PHOTOS_DIR false empty_world
              (snd rec) (sample_info "photo" 0)
              (match fst rec with Ok (_, m) => m | Raise _ => JNull end)
              (JDict [("sizes", JDict [("size", JList [])])]) (JStr "photo")
              eq_refl (empty_world_unarchived _ _))
    as (Hok & es & _ & _ & _ & Hsizes & Hmarker); try (vm_compute; reflexivity).
  split; [exact Hok|]. split; [etrans; [exact Hsizes|reflexivity]|].
  eexists. exact Hmarker.
Defined.

(** The photo branch on a width that is [None]: the run aborts with a
    [TypeError] and leaves no marker. *)
Example none_width_aborts_photo :
  let run := process_photo
               (sample_rt "photo" (JList [sample_size "Large" JNull "https://x/1_b.jpg"]))
               sample_photo PHOTOS_DIR false empty_world in
  fst run = Raise TypeError /\
  files (snd run) !! path_join (path_join PHOTOS_DIR "1") "complete.flag" = None.
Proof. split; vm_compute; reflexivity. Qed.

(* ===================================================================== *)
(** ** Further properties: the gateway and the retry decorator *)
(* ===================================================================== *)

(** One turn of the loop in [wrapper], for any wrapped function. *)
Lemma retry_loop_turn rt (func : M json) m attempt rest w :
  retry_loop rt func m (attempt :: rest) w =
  match func w with
  | (Ok v, w1) => (Ok v, w1)
  | (Raise e, w1) =>
      if retryable (Raise e) && (attempt <? m - 1)%nat
      then retry_loop rt func m rest
             (advance 0 [EvPrint (retry_message rt attempt e);
                         EvSleep (backoff attempt (Raise e))] w1)
      else (Raise e, w1)
  end.
Proof.
  simpl. unfold try_except. destruct (func w) as [[v|e] w1]; [done|].
  assert (Hw : forall msg ms,
    advance 0 [EvSleep ms] (advance 0 [EvPrint msg] w1) =
    advance 0 [EvPrint msg; EvSleep ms] w1).
  { intros. by rewrite advance_advance. }
  destruct e; simpl; try (destruct (attempt <? m - 1)%nat; simpl; [|done];
    unfold mbind, M_bind, print, sleep, emit; simpl; by rewrite <- Hw).
  destruct (transient msg); simpl; [|done].
  destruct (attempt <? m - 1)%nat; simpl; [|done].
  unfold mbind, M_bind, print, sleep, emit; simpl. by rewrite <- Hw.
Qed.

Lemma retry_loop_ends_in_attempt rt (func : M json) m attempts a_last w :
  last attempts = Some a_last -> (a_last <? m - 1)%nat = false ->
  exists w_last, retry_loop rt func m attempts w = func w_last.
Proof.
  revert w. induction attempts as [|a rest IH]; intros w Hlast Hstop; [done|].
  rewrite retry_loop_turn. destruct (func w) as [[v|e] w1] eqn:E.
  { by exists w. }
  destruct (retryable (Raise e) && (a <? m - 1)%nat) eqn:Hretry; [|by exists w].
  destruct rest as [|b rest].
  - simpl in Hlast. injection Hlast as ->. by rewrite Hstop, andb_false_r in Hretry.
  - apply IH; [|done]. by rewrite last_cons_cons in Hlast.
Qed.

(** X1: whatever the wrapped function does, [retry_on_error] hands back
    what one of its invocations returned or raised, together with the world
    that invocation left: the [return None] after the loop is never reached;
    and when the first invocation succeeds the decorator is transparent. *)
Theorem retry_returns_an_attempt (rt : runtime) (func : M json) (w : world) :
  (exists w_last, retry_on_error rt func w = func w_last) /\
  (is_ok (fst (func w)) = true -> retry_on_error rt func w = func w).
Proof.
  unfold retry_on_error. split.
  - by apply (retry_loop_ends_in_attempt rt func 3 (seq 0 3) 2%nat).
  - simpl seq. rewrite retry_loop_turn. by destruct (func w) as [[v|e] w1].
Qed.

(* ===================================================================== *)
(** ** Further properties: downloads and saved files *)
(* ===================================================================== *)

Lemma makedirs_run rt d w :
  makedirs rt d w =
  if String.eqb d "" then (Raise FileNotFoundError, w)
  else match disk rt (clock w) d with
       | DiskOk => (Ok tt, World (files w) (list_to_set (parents "" d) ∪ dirs w)
                             (USER_CACHE w) (S (clock w)) (trace w))
       | _ => (Raise OSError, advance 1 [] w)
       end.
Proof.
  unfold makedirs. destruct (String.eqb d ""); [done|].
  unfold mbind, M_bind, tick. simpl.
  destruct (disk rt (clock w) d); unfold advance; simpl; by rewrite ?app_nil_r.
Qed.

Lemma download_photo_run rt u path w :
  let failed e w' :=
    (Ok false, advance 0 [EvPrint ("  Error downloading photo: " +:+ exn_text rt e)] w') in
  download_photo rt (JStr u) path w =
  match http_get rt (clock w) u with
  | Raise e => failed e (advance 1 [EvHttpGet u] w)
  | Ok response =>
      match makedirs rt (dirname path) (advance 1 [EvHttpGet u] w) with
      | (Raise e, w2) => failed e w2
      | (Ok _, w2) =>
          match open_write rt path (fun _ => CBytes (received_of response)) w2 with
          | (Raise e, w3) => failed e w3
          | (Ok _, w3) =>
              match response with
              | Whole _ => (Ok true, w3)
              | Broken _ e => failed e w3
              end
          end
      end
  end.
Proof.
  intros failed. subst failed. unfold download_photo, try_except.
  rewrite bind_run, bind_run. unfold emit at 1. cbn beta iota.
  rewrite bind_run. unfold tick at 1. cbn beta iota. simpl clock.
  rewrite lift_run.
  change (World (files w) (dirs w) (USER_CACHE w) (S (clock w)) (trace w ++ [EvHttpGet u]))
    with (advance 1 [EvHttpGet u] w).
  destruct (http_get rt (clock w) u) as [response|e].
  2:{ by rewrite bind_run, print_run, ret_run. }
  rewrite bind_run.
  destruct (makedirs rt (dirname path) _) as [[[]|e] w2].
  2:{ by rewrite bind_run, print_run, ret_run. }
  rewrite bind_run.
  destruct (open_write rt path _ w2) as [[[]|e] w3].
  2:{ by rewrite bind_run, print_run, ret_run. }
  destruct response as [body|received e]; [by rewrite ret_run|].
  unfold raise. by rewrite bind_run, print_run, ret_run.
Qed.

(** X3: [download_photo] never raises: it returns a bool.  It returns [True]
    only when the URL is a string, the whole body arrived and the file now
    holds exactly that body.  When no response was obtained (the URL is not
    a string, or the GET failed) it returns [False] and leaves files and
    directories as they were.  When the connection breaks in the middle of
    the body it returns [False] as well, every other file is as before, and
    the file itself, opened before the first chunk, is left holding the part
    that was received. *)
Theorem download_photo_total (rt : runtime) (url : json) (path : string) (w : world) :
  let run := download_photo rt url path w in
  exists b, fst run = Ok b /\
    (b = true ->
       exists u body, url = JStr u /\ http_get rt (clock w) u = Ok (Whole body) /\
                      files (snd run) !! path = Some (CBytes body)) /\
    (match url with
     | JStr u => is_ok (http_get rt (clock w) u) = false
     | _ => True
     end ->
       b = false /\ files (snd run) = files w /\ dirs (snd run) = dirs w) /\
    (forall u received e,
       url = JStr u -> http_get rt (clock w) u = Ok (Broken received e) ->
       b = false /\
       (forall q, q <> path -> files (snd run) !! q = files w !! q) /\
       (String.eqb (dirname path) "" = false ->
        disk rt (S (clock w)) (dirname path) = DiskOk ->
        disk rt (S (S (clock w))) path = DiskOk ->
        files (snd run) !! path = Some (CBytes received))).
Proof.
  intros run. subst run.
  destruct url as [| | |u| |];
    try (eexists; split; [reflexivity|]; split; [done|]; split; done).
  rewrite download_photo_run.
  destruct (http_get rt (clock w) u) as [[body|received e]|e0] eqn:Eget.
  - (* the whole body arrives *)
    assert (Hno : forall b : bool, forall fs : gmap string content,
      forall u' received e, JStr u = JStr u' ->
      http_get rt (clock w) u' = Ok (Broken received e) ->
      b = false /\ (forall q, q <> path -> fs !! q = files w !! q) /\
      (String.eqb (dirname path) "" = false ->
       disk rt (S (clock w)) (dirname path) = DiskOk ->
       disk rt (S (S (clock w))) path = DiskOk -> fs !! path = Some (CBytes received))).
    { intros b fs u' received e [= <-] Hb. congruence. }
    rewrite makedirs_run. simpl clock.
    destruct (String.eqb (dirname path) "").
    { exists false. split; [done|]. split; [done|]. split; [done|]. apply Hno. }
    destruct (disk rt (S (clock w)) (dirname path));
      try (exists false; split; [done|]; split; [done|]; split; [done|]; apply Hno).
    rewrite open_write_run. simpl clock.
    destruct (disk rt (S (S (clock w))) path);
      try (exists false; split; [done|]; split; [done|]; split; [done|]; apply Hno).
    exists true. split; [done|]. split; [|split; [done|apply Hno]].
    intros _. exists u, body. split; [done|]. split; [done|]. apply lookup_insert_eq.
  - (* the connection breaks in the middle of the body *)
    assert (Hyes : forall fs : gmap string content,
      (forall q, q <> path -> fs !! q = files w !! q) ->
      (String.eqb (dirname path) "" = false ->
       disk rt (S (clock w)) (dirname path) = DiskOk ->
       disk rt (S (S (clock w))) path = DiskOk -> fs !! path = Some (CBytes received)) ->
      forall u' received' e', JStr u = JStr u' ->
      http_get rt (clock w) u' = Ok (Broken received' e') ->
      false = false /\ (forall q, q <> path -> fs !! q = files w !! q) /\
      (String.eqb (dirname path) "" = false ->
       disk rt (S (clock w)) (dirname path) = DiskOk ->
       disk rt (S (S (clock w))) path = DiskOk -> fs !! path = Some (CBytes received'))).
    { intros fs Hother Hpath u' received' e' [= <-] Hb.
      rewrite Eget in Hb. injection Hb as <- <-. done. }
    rewrite makedirs_run. simpl clock.
    destruct (String.eqb (dirname path) "") eqn:Edir.
    { exists false. split; [done|]. split; [done|]. split; [done|]. by apply Hyes. }
    destruct (disk rt (S (clock w)) (dirname path)) eqn:Emk;
      try (exists false; split; [done|]; split; [done|]; split; [done|]; by apply Hyes).
    rewrite open_write_run. simpl clock.
    destruct (disk rt (S (S (clock w))) path) eqn:Eopen;
      exists false; (split; [done|]); (split; [done|]); (split; [done|]); apply Hyes.
    + intros q Hq. by apply lookup_insert_ne.
    + intros _ _ _. apply lookup_insert_eq.
    + done.
    + done.
    + intros q Hq. by apply lookup_insert_ne.
    + done.
  - (* no response *)
    exists false. split; [done|]. split; [done|]. split; [done|].
    intros u' received e [= <-] Hb. congruence.
Qed.

(* ===================================================================== *)
(** ** Further properties: the user cache *)
(* ===================================================================== *)

(** The two ways [get_cached_user_info] returns: from the cache, untouched,
    or after one remote call, with the new entry appended. *)
Lemma get_cached_user_info_ok rt user_id w entry w' :
  get_cached_user_info rt user_id w = (Ok entry, w') ->
  hashable user_id = true /\
  ((cache_find user_id (USER_CACHE w) = Some entry /\ w' = w) \/
   (cache_find user_id (USER_CACHE w) = None /\
    w' = World (files w) (dirs w) (USER_CACHE w ++ [(user_id, entry)])
               (S (clock w)) (trace w ++ [EvCall (people_getInfo user_id)]))).
Proof.
  unfold get_cached_user_info. intros H.
  apply bind_ok in H as (hit & w0 & Hhit & H).
  unfold cache_lookup in Hhit. destruct (hashable user_id); [|done].
  injection Hhit as <- <-. split; [done|].
  destruct (cache_find user_id (USER_CACHE w)) as [e|].
  - left. by injection H as <- <-.
  - right. split; [done|].
    apply bind_ok in H as (user_info & w1 & Hinfo & H).
    unfold get_user_info in Hinfo. rewrite try_except_call in Hinfo.
    injection Hinfo as _ <-.
    apply bind_ok in H as (has_person & w2 & Hp & H). apply lift_ok in Hp as [_ ->].
    apply bind_ok in H as (entry' & w3 & He & H). apply lift_ok in He as [_ ->].
    apply bind_ok in H as ([] & w4 & Hput & H).
    injection Hput as <-. injection H as <- <-.
    unfold advance. simpl. done.
Qed.

(** X4: a user id that was resolved once is answered from the cache ever
    after: the first resolution makes at most one remote call, and any later
    one, in a world whose cache has only grown since, returns the same entry
    and changes nothing, with no remote call. *)
Theorem user_resolved_once (rt : runtime) (user_id entry : json) (w w1 : world)
    (Hfirst : get_cached_user_info rt user_id w = (Ok entry, w1)) :
  (trace w1 = trace w \/ trace w1 = trace w ++ [EvCall (people_getInfo user_id)]) /\
  forall w2 ext, USER_CACHE w2 = USER_CACHE w1 ++ ext ->
    get_cached_user_info rt user_id w2 = (Ok entry, w2).
Proof.
  apply get_cached_user_info_ok in Hfirst as (Hh & Hcase).
  assert (Hfound : cache_find user_id (USER_CACHE w1) = Some entry).
  { destruct Hcase as [[Hc ->]|[Hc ->]]; [done|].
    simpl. rewrite cache_find_app, Hc. simpl. by rewrite key_eqb_refl. }
  split.
  - destruct Hcase as [[_ ->]|[_ ->]]; [by left|by right].
  - intros w2 ext Hext. unfold get_cached_user_info, cache_lookup.
    unfold mbind, M_bind. by rewrite Hh, Hext, cache_find_app, Hfound.
Qed.

Lemma user_resolved_once_witness :
  let rt := sample_rt "photo" (JList []) in
  let first := get_cached_user_info rt (JStr "u1") empty_world in
  get_cached_user_info rt (JStr "u1") (snd first) = (Ok (fallback_user rt (JStr "u1")), snd first).
Proof.
  intros rt first.
  apply (proj2 (user_resolved_once rt (JStr "u1") (fallback_user rt (JStr "u1"))
                  empty_world (snd first) eq_refl) (snd first) []).
  by rewrite app_nil_r.
Defined.

Lemma cache_grows_pure {A} (f : world -> result A) : cache_grows (fun w => (f w, w)).
Proof. intros w. exists []. simpl. by rewrite app_nil_r. Qed.

Lemma cache_grows_still {A} (m : M A) :
  (forall w, USER_CACHE (snd (m w)) = USER_CACHE w) -> cache_grows m.
Proof. intros H w. exists []. by rewrite H, app_nil_r. Qed.

Lemma cache_grows_ret {A} (a : A) : cache_grows (mret a : M A).
Proof. apply (cache_grows_pure (fun _ => Ok a)). Qed.

Lemma cache_grows_lift {A} (r : result A) : cache_grows (lift r).
Proof. apply (cache_grows_pure (fun _ => r)). Qed.

Lemma cache_grows_raise {A} e : cache_grows (raise e : M A).
Proof. apply (cache_grows_pure (fun _ => Raise e)). Qed.

Lemma cache_grows_path_exists p : cache_grows (path_exists p).
Proof. by apply cache_grows_still. Qed.

Lemma cache_grows_cache_lookup k : cache_grows (cache_lookup k).
Proof. apply cache_grows_still. intros w. unfold cache_lookup. by destruct (hashable k). Qed.

Lemma cache_grows_listdir d : cache_grows (listdir d).
Proof. apply cache_grows_still. intros w. unfold listdir. by destruct (bool_decide _). Qed.

Lemma cache_grows_load_file loads p : cache_grows (load_file loads p).
Proof. apply cache_grows_still. intros w. unfold load_file. by destruct (files w !! p). Qed.

Lemma cache_grows_read_cache : cache_grows read_cache.
Proof. by apply cache_grows_still. Qed.

Lemma cache_grows_tick : cache_grows tick.
Proof. by apply cache_grows_still. Qed.

Lemma cache_grows_add_dirs ds : cache_grows (add_dirs ds).
Proof. by apply cache_grows_still. Qed.

Lemma cache_grows_emit e : cache_grows (emit e).
Proof. by apply cache_grows_still. Qed.

Lemma cache_grows_set_file p c : cache_grows (set_file p c).
Proof. by apply cache_grows_still. Qed.

Lemma cache_grows_cache_put k v : user_entry_ok v -> cache_grows (cache_put k v).
Proof. intros Hv w. exists [(k, v)]. split; [done|]. constructor; [exact Hv|constructor]. Qed.

Lemma cache_grows_bind {A B} (m : M A) (k : A -> M B) :
  cache_grows m -> (forall a, cache_grows (k a)) -> cache_grows (m ≫= k).
Proof.
  intros Hm Hk w. destruct (Hm w) as (ext1 & E1 & H1).
  unfold mbind, M_bind. destruct (m w) as [[a|e] w1]; simpl in *.
  - destruct (Hk a w1) as (ext2 & E2 & H2). exists (ext1 ++ ext2).
    split; [by rewrite E2, E1, app_assoc|]. by apply Forall_app.
  - by exists ext1.
Qed.

Lemma cache_grows_bind_lift {A B} (r : result A) (k : A -> M B) :
  (forall a, r = Ok a -> cache_grows (k a)) -> cache_grows (lift r ≫= k).
Proof.
  intros Hk w. unfold mbind, M_bind, lift. destruct r as [a|e]; simpl.
  - by apply Hk.
  - exists []. by rewrite app_nil_r.
Qed.

Lemma cache_grows_try_except {A} (m : M A) (h : exn -> M A) :
  cache_grows m -> (forall e, cache_grows (h e)) -> cache_grows (try_except m h).
Proof.
  intros Hm Hh w. destruct (Hm w) as (ext1 & E1 & H1).
  unfold try_except. destruct (m w) as [[a|e] w1]; simpl in *.
  - by exists ext1.
  - destruct (Hh e w1) as (ext2 & E2 & H2). exists (ext1 ++ ext2).
    split; [by rewrite E2, E1, app_assoc|]. by apply Forall_app.
Qed.

Lemma cache_grows_mapM {A B} (f : A -> M B) l :
  (forall x, cache_grows (f x)) -> cache_grows (mapM f l).
Proof.
  intros Hf. induction l as [|x l IH]; simpl; [apply cache_grows_ret|].
  apply cache_grows_bind; [apply Hf|]. intros y.
  apply cache_grows_bind; [apply IH|]. intros ys. apply cache_grows_ret.
Qed.

(** Walks through a computation, leaving the goals [leaf] cannot close. *)
Ltac grow_with leaf :=
  repeat first
    [ solve [leaf]
    | apply cache_grows_ret | apply cache_grows_lift | apply cache_grows_raise
    | apply cache_grows_tick | apply cache_grows_add_dirs | apply cache_grows_emit
    | apply cache_grows_set_file | apply cache_grows_cache_lookup
    | apply cache_grows_path_exists | apply cache_grows_listdir
    | apply cache_grows_load_file | apply cache_grows_read_cache
    | (apply cache_grows_bind; [|intros ?])
    | (apply cache_grows_try_except; [|intros ?])
    | (apply cache_grows_mapM; intros ?)
    | match goal with
      | |- cache_grows (if ?b then _ else _) => destruct b
      | |- cache_grows (match ?x with _ => _ end) => destruct x
      end ].

Ltac grow := grow_with ltac:(fail).

Lemma cache_grows_get_cached_user_info rt user_id :
  cache_grows (get_cached_user_info rt user_id).
Proof.
  unfold get_cached_user_info.
  apply cache_grows_bind; [apply cache_grows_cache_lookup|]. intros [hit|].
  { apply cache_grows_ret. }
  apply cache_grows_bind; [unfold get_user_info, call; grow|]. intros user_info.
  apply cache_grows_bind; [apply cache_grows_lift|]. intros has_person.
  apply cache_grows_bind_lift. intros entry Hentry.
  apply cache_grows_bind; [|intros _; apply cache_grows_ret].
  apply cache_grows_cache_put.
  destruct has_person.
  - repeat (apply result_bind_ok in Hentry as (? & _ & Hentry)).
    injection Hentry as <-. unfold user_entry_ok, user_fields. by repeat constructor.
  - injection Hentry as <-. unfold user_entry_ok, user_fields. by repeat constructor.
Qed.

Lemma cache_grows_call rt r : cache_grows (call rt r).
Proof. unfold call. grow. Qed.

Lemma cache_grows_makedirs rt d : cache_grows (makedirs rt d).
Proof. unfold makedirs. grow. Qed.

Lemma cache_grows_open_write rt p c : cache_grows (open_write rt p c).
Proof. unfold open_write. grow. Qed.

Lemma cache_grows_save_json rt data p : cache_grows (save_json rt data p).
Proof.
  unfold save_json.
  grow_with ltac:(first [apply cache_grows_makedirs | apply cache_grows_open_write]).
Qed.

Lemma cache_grows_download_photo rt url p : cache_grows (download_photo rt url p).
Proof.
  unfold download_photo, print.
  grow_with ltac:(first [apply cache_grows_makedirs | apply cache_grows_open_write]).
Qed.

(** The leaves of the pipeline, as far as the cache is concerned. *)
Ltac grow_leaf :=
  first [ apply cache_grows_call | apply cache_grows_save_json
        | apply cache_grows_download_photo | apply cache_grows_get_cached_user_info
        | apply cache_grows_makedirs | apply cache_grows_open_write ].

Lemma cache_grows_archive_records rt photo photo_id photo_dir fav :
  cache_grows (archive_records rt photo photo_id photo_dir fav).
Proof.
  unfold archive_records, get_photo_info, add_location, add_albums, archive_comments,
    archive_favorites, archive_exif, comment_of, favorite_of, get_photo_geo,
    get_photo_contexts, get_photo_comments, get_photo_favorites, get_photo_exif, print.
  grow_with grow_leaf.
Qed.

Lemma cache_grows_archive_media rt photo_id photo_dir info metadata :
  cache_grows (archive_media rt photo_id photo_dir info metadata).
Proof.
  unfold archive_media, archive_video, archive_original, get_photo_sizes, print.
  grow_with grow_leaf.
Qed.

Lemma cache_grows_process_photo rt photo base fav :
  cache_grows (process_photo rt photo base fav).
Proof.
  unfold process_photo, archive_steps, write_marker, sleep, print.
  grow_with ltac:(first [ apply cache_grows_archive_records
                        | apply cache_grows_archive_media | grow_leaf ]).
Qed.

Lemma cache_grows_photo_loop rt ids photos_data total i photos :
  cache_grows (photo_loop rt ids photos_data total i photos).
Proof.
  revert i. induction photos as [|photo photos IH]; intros i; simpl.
  - apply cache_grows_ret.
  - apply cache_grows_bind; [apply cache_grows_lift|]. intros photo_id.
    apply cache_grows_bind; [apply cache_grows_lift|]. intros seen.
    apply cache_grows_bind; [|intros _; apply IH].
    destruct seen; [apply cache_grows_ret|].
    apply cache_grows_bind; [apply cache_grows_lift|]. intros total'.
    apply cache_grows_bind; [apply cache_grows_emit|]. intros _.
    apply cache_grows_process_photo.
Qed.

Lemma cache_grows_download_my_photos rt fuel : cache_grows (download_my_photos rt fuel).
Proof.
  unfold download_my_photos.
  assert (Hpages : forall ids page total, cache_grows (download_pages rt fuel ids page total)).
  { induction fuel as [|fuel IH]; intros ids page total; simpl.
    - apply cache_grows_ret.
    - unfold get_photos, print.
      grow_with ltac:(first [apply cache_grows_photo_loop | apply IH | grow_leaf]). }
  unfold print. grow_with ltac:(apply Hpages).
Qed.

Lemma cache_grows_favorite_loop rt faves_data total i photos :
  cache_grows (favorite_loop rt faves_data total i photos).
Proof.
  revert i. induction photos as [|photo photos IH]; intros i; simpl.
  - apply cache_grows_ret.
  - apply cache_grows_bind; [apply cache_grows_lift|]. intros total'.
    apply cache_grows_bind; [apply cache_grows_emit|]. intros _.
    apply cache_grows_bind; [apply cache_grows_process_photo|]. intros _. apply IH.
Qed.

Lemma cache_grows_download_favorites rt fuel : cache_grows (download_favorites rt fuel).
Proof.
  unfold download_favorites.
  assert (Hpages : forall page total, cache_grows (favorite_pages rt fuel page total)).
  { induction fuel as [|fuel IH]; intros page total; simpl.
    - apply cache_grows_ret.
    - unfold get_favorites, print.
      grow_with ltac:(first [apply cache_grows_favorite_loop | apply IH | grow_leaf]). }
  unfold print. grow_with ltac:(apply Hpages).
Qed.

Lemma cache_grows_index_loop rt loads summary base names :
  cache_grows (index_loop rt loads summary base names).
Proof.
  induction names as [|name names IH]; simpl; [apply cache_grows_ret|].
  unfold read_json. grow_with ltac:(apply IH).
Qed.

Lemma cache_grows_create_index rt loads : cache_grows (create_index rt loads).
Proof.
  unfold create_index, index_of, get_photosets, print.
  grow_with ltac:(first [apply cache_grows_index_loop | grow_leaf]).
Qed.

Lemma cache_grows_main rt loads fuel : cache_grows (main rt loads fuel).
Proof.
  unfold main, print.
  grow_with ltac:(first [ apply cache_grows_download_my_photos
                        | apply cache_grows_download_favorites
                        | apply cache_grows_create_index | grow_leaf ]).
Qed.

(** X5: across a whole run, and so across every photo and both walks, the
    user cache only grows: an entry, once stored for a user id, is found
    unchanged ever after, and every entry added carries the six fields
    (display_name, username, realname, avatar_url, is_pro, profile_url)
    that comments and favorites are enriched with. *)
Theorem user_cache_only_grows (rt : runtime) (loads : string -> result json)
    (fuel : nat) (photo : json) (base : string) (fav : bool) (w : world) :
  let stable (w' : world) :=
    (exists ext, USER_CACHE w' = USER_CACHE w ++ ext /\
                 Forall (fun kv => user_entry_ok (snd kv)) ext) /\
    forall k v, cache_find k (USER_CACHE w) = Some v ->
                cache_find k (USER_CACHE w') = Some v in
  stable (snd (process_photo rt photo base fav w)) /\
  stable (snd (download_my_photos rt fuel w)) /\
  stable (snd (download_favorites rt fuel w)) /\
  stable (snd (main rt loads fuel w)).
Proof.
  assert (Hstable : forall A (m : M A), cache_grows m ->
    (exists ext, USER_CACHE (snd (m w)) = USER_CACHE w ++ ext /\
                 Forall (fun kv => user_entry_ok (snd kv)) ext) /\
    forall k v, cache_find k (USER_CACHE w) = Some v ->
                cache_find k (USER_CACHE (snd (m w))) = Some v).
  { intros A m Hm. destruct (Hm w) as (ext & E & Hext). split; [by exists ext|].
    intros k v Hk. by rewrite E, cache_find_app, Hk. }
  simpl. repeat split; try apply Hstable;
    first [ apply cache_grows_process_photo | apply cache_grows_download_my_photos
          | apply cache_grows_download_favorites | apply cache_grows_main ].
Qed.

(* ===================================================================== *)
(** ** Further properties: the two media branches *)
(* ===================================================================== *)

Lemma confined_bind_post {A B} allowed must1 must2 (m : M A) (k : A -> M B)
    (P : A -> Prop) :
  (forall w a w', m w = (Ok a, w') -> P a) ->
  confined allowed must1 m ->
  (forall a, P a -> confined allowed must2 (k a)) ->
  confined allowed (must1 ++ must2) (m ≫= k).
Proof.
  intros HP Hm Hk w. destruct (Hm w) as (es1 & Ht1 & Ha1 & Hf1 & Hs1).
  unfold mbind, M_bind. destruct (m w) as [[a|e] w1] eqn:Em; simpl in *.
  - destruct (Hk a (HP _ _ _ Em) w1) as (es2 & Ht2 & Ha2 & Hf2 & Hs2).
    exists (es1 ++ es2). split; [by rewrite Ht2, Ht1, app_assoc|].
    split; [by apply Forall_app|]. split.
    + intros q Hq. by rewrite Hf2, Hf1.
    + intros Hok. apply sublist_app; auto.
  - exists es1. by repeat (split; [done|]).
Qed.

Section Branches.

Context (rt : runtime) (allowed : event -> Prop).
Hypothesis quiet_allowed : forall e, touches [] false e -> allowed e.
Hypothesis get_allowed : forall u, allowed (EvHttpGet u).

Lemma confined_video_only photo_id photo_dir info metadata :
  (forall p, In p (video_paths photo_dir) -> allowed (EvWrite p)) ->
  confined allowed [] (archive_video rt photo_id photo_dir info metadata).
Proof.
  intros Hp. unfold archive_video, get_photo_sizes.
  assert (allowed (EvWrite (path_join photo_dir "sizes.json"))) by (apply Hp; simpl; tauto).
  assert (allowed (EvWrite (path_join photo_dir "poster.jpg"))) by (apply Hp; simpl; tauto).
  quiet_with ltac:(first [ apply confined_print; assumption
                         | eapply confined_drop; apply confined_call; assumption
                         | by apply confined_download_photo
                         | eapply confined_drop; by apply confined_save_json ]).
Qed.

Lemma confined_original_only photo_id photo_dir :
  (forall p, In p (original_paths photo_dir) -> allowed (EvWrite p)) ->
  confined allowed [] (archive_original rt photo_id photo_dir).
Proof.
  intros Hp. unfold archive_original, get_photo_sizes.
  assert (allowed (EvWrite (path_join photo_dir "sizes.json"))) by (apply Hp; simpl; tauto).
  apply confined_bind_nil; [eapply confined_drop; by apply confined_call|]. intros sizes.
  apply confined_bind_nil; [apply confined_lift|]. intros size_list.
  apply confined_bind_nil; [apply confined_lift|]. intros [o|]; [|apply confined_ret].
  destruct (truthy o); [|apply confined_ret].
  apply confined_bind_nil; [apply confined_lift|]. intros photo_url.
  apply confined_bind_lift. intros ext Hext.
  assert (allowed (EvWrite (path_join photo_dir ("original." +:+ ext)))).
  { apply Hp. destruct photo_url; try done. injection Hext as <-. right.
    apply (in_map (fun e => path_join photo_dir ("original." +:+ e))), file_ext_allowed. }
  quiet_with ltac:(first [ apply confined_print; assumption
                         | by apply confined_download_photo
                         | eapply confined_drop; by apply confined_save_json ]).
Qed.

Lemma confined_process_photo_kind photo pid base fav (video : bool) :
  sub "id" photo = Ok (JStr pid) ->
  (forall p, In p (unit_paths video (path_join base pid)) -> allowed (EvWrite p)) ->
  (forall t info, flickr rt t (photos_getInfo (JStr pid)) = Ok info ->
                  reported_video info = video) ->
  confined allowed [] (process_photo rt photo base fav).
Proof.
  intros Hid Hp Hkind. set (photo_dir := path_join base pid) in *.
  unfold process_photo.
  apply confined_bind_lift. intros photo_id Hphoto_id.
  rewrite Hid in Hphoto_id. injection Hphoto_id as <-.
  apply confined_bind_nil; [by apply confined_sleep|]. intros _.
  apply confined_bind_lift. intros d Hd. injection Hd as <-. fold photo_dir.
  apply confined_bind_nil; [apply confined_path_exists|]. intros [|].
  { by apply confined_print. }
  apply confined_bind_nil.
  2:{ intros _. apply confined_bind_nil; [|intros _; by apply confined_sleep].
      eapply confined_drop. apply confined_open_write. apply Hp.
      unfold unit_paths. apply in_or_app. right. apply in_or_app. right. by left. }
  unfold archive_steps.
  apply (confined_bind_post allowed [] [] _ _
           (fun im => reported_video (fst im) = video)).
  - intros w [info md] w' Hrec. apply archive_records_ok in Hrec as (Hinfo & _).
    by apply (Hkind _ _ Hinfo).
  - eapply confined_drop. apply confined_archive_records; [done|].
    intros p Hin. apply Hp. unfold unit_paths. apply in_or_app. by left.
  - intros [info md] Hvideo. simpl in Hvideo. unfold archive_media.
    apply confined_bind_lift. intros media Hmedia.
    unfold reported_video in Hvideo. rewrite Hmedia in Hvideo. rewrite Hvideo.
    destruct video.
    + apply confined_bind_nil; [|intros _; apply confined_ret].
      apply confined_video_only. intros p Hin. apply Hp. unfold unit_paths.
      apply in_or_app. right. apply in_or_app. by left.
    + apply confined_original_only. intros p Hin. apply Hp. unfold unit_paths.
      apply in_or_app. right. apply in_or_app. by left.
Qed.

End Branches.

Lemma original_not_video_unit photo_dir ext :
  ~ In (path_join photo_dir ("original." +:+ ext)) (unit_paths true photo_dir).
Proof.
  unfold unit_paths, record_paths, video_paths. simpl.
  intros H. repeat destruct H as [H|H]; try done; apply path_join_inj in H; done.
Qed.

Lemma poster_not_photo_unit photo_dir :
  ~ In (path_join photo_dir "poster.jpg") (unit_paths false photo_dir).
Proof.
  unfold unit_paths, record_paths, original_paths, allowed_ext. simpl.
  intros H. repeat destruct H as [H|H]; try done; apply path_join_inj in H; done.
Qed.

Lemma process_photo_footprint rt photo pid base fav (video : bool) w :
  sub "id" photo = Ok (JStr pid) ->
  (forall t info, flickr rt t (photos_getInfo (JStr pid)) = Ok info ->
                  reported_video info = video) ->
  exists es,
    trace (snd (process_photo rt photo base fav w)) = trace w ++ es /\
    Forall (touches (unit_paths video (path_join base pid)) true) es /\
    forall q, ~ In q (unit_paths video (path_join base pid)) ->
      files (snd (process_photo rt photo base fav w)) !! q = files w !! q.
Proof.
  intros Hid Hkind.
  destruct (confined_process_photo_kind rt
              (touches (unit_paths video (path_join base pid)) true)
              (touches_quiet _ _) ltac:(done) photo pid base fav video Hid
              ltac:(done) Hkind w) as (es & Ht & Hal & Hf & _).
  exists es. by repeat (split; [done|]).
Qed.

(** X6: what a run of [process_photo] writes follows the media kind the
    service reports.  For a video it never opens an [original.*] file for
    writing, whatever the extension, and leaves any such file as it was; for
    any other photo the same holds of [poster.jpg]. *)
Theorem media_branch_exclusive (rt : runtime) (photo : json) (pid base : string)
    (fav : bool) (w : world) (video : bool)
    (Hid : sub "id" photo = Ok (JStr pid))
    (Hkind : forall t info, flickr rt t (photos_getInfo (JStr pid)) = Ok info ->
                            reported_video info = video) :
  let photo_dir := path_join base pid in
  let run := process_photo rt photo base fav w in
  exists es, trace (snd run) = trace w ++ es /\
    forall q,
      (if video then exists ext, q = path_join photo_dir ("original." +:+ ext)
       else q = path_join photo_dir "poster.jpg") ->
      ~ In (EvWrite q) es /\ files (snd run) !! q = files w !! q.
Proof.
  simpl. destruct (process_photo_footprint rt photo pid base fav video w Hid Hkind)
    as (es & Ht & Hal & Hf).
  exists es. split; [done|]. intros q Hq.
  assert (Hout : ~ In q (unit_paths video (path_join base pid))).
  { destruct video.
    - destruct Hq as [ext ->]. apply original_not_video_unit.
    - subst q. apply poster_not_photo_unit. }
  split; [by eapply not_written|by apply Hf].
Qed.

Lemma media_branch_exclusive_witness :
  let sizes := JList [sample_size "Thumbnail" (JInt 100) "https://x/1_t.jpg"] in
  let run := process_photo (sample_rt "video" sizes) sample_photo PHOTOS_DIR false
               empty_world in
  files (snd run) !! path_join (path_join PHOTOS_DIR "1") "original.jpg" = None.
Proof.
  intros sizes run.
  destruct (media_branch_exclusive (sample_rt "video" sizes) sample_photo "1" PHOTOS_DIR
              false empty_world true eq_refl) as (es & _ & Hq).
  - intros t info Hinfo. simpl in Hinfo. by injection Hinfo as <-.
  - destruct (Hq (path_join (path_join PHOTOS_DIR "1") "original.jpg")) as [_ Hfile].
    + by exists "jpg".
    + exact Hfile.
Defined.

(* ===================================================================== *)
(** ** Further properties: what the metadata file records *)
(* ===================================================================== *)

Lemma assoc_set_eq {A} k (v : A) d : assoc k (assoc_set k v d) = Some v.
Proof.
  induction d as [|[k0 v0] d IH]; simpl.
  - by rewrite String.eqb_refl.
  - destruct (String.eqb k k0) eqn:E; simpl; [by rewrite String.eqb_refl|].
    by rewrite E.
Qed.

Lemma build_metadata_no_owner_name rt photo_id info md0 :
  build_metadata rt photo_id info = Ok md0 ->
  exists d, md0 = JDict d /\ assoc "owner_name" d = None.
Proof.
  unfold build_metadata. intros H.
  repeat (apply result_bind_ok in H as (? & _ & H)).
  injection H as <-. by eexists.
Qed.

(** The record a completed run leaves in metadata.json is the one
    [archive_records] returned. *)
Lemma persisted_record rt photo pid base fav w w' :
  sub "id" photo = Ok (JStr pid) ->
  unarchived base pid w ->
  process_photo rt photo base fav w = (Ok tt, w') ->
  exists info md w2,
    archive_records rt photo (JStr pid) (path_join base pid) fav
      (advance 0 [EvSleep RATE_DELAY] w) = (Ok (info, md), w2) /\
    files w' !! path_join (path_join base pid) "metadata.json" = Some (CJson md).
Proof.
  intros Hid Hun Hrun.
  destruct (process_photo_ok _ _ _ _ _ _ _ Hid Hun Hrun)
    as (info & md & w2 & w3 & Hrec & Hmedia & _ & ->).
  exists info, md, w2. split; [done|].
  apply archive_records_ok in Hrec as (_ & _ & Hfile).
  simpl. rewrite lookup_insert_ne.
  2:{ intros Heq. by apply path_join_inj in Heq. }
  destruct (confined_archive_media rt (touches (media_paths (path_join base pid)) true)
              (touches_quiet _ _) (JStr pid) (path_join base pid) info md
              ltac:(done) ltac:(done) w2) as (_ & _ & _ & Hf & _).
  rewrite Hmedia in Hf. simpl in Hf. rewrite Hf; [done|].
  apply metadata_not_media.
Qed.

Lemma archive_records_owner rt photo photo_id photo_dir (fav : bool) w info md w2 :
  archive_records rt photo photo_id photo_dir fav w = (Ok (info, md), w2) ->
  sub "owner_name" md =
  if fav then get "ownername" (JStr "") photo else Raise (KeyError "owner_name").
Proof.
  unfold archive_records. intros H.
  apply bind_ok in H as ([] & wa & _ & H).
  apply bind_ok in H as (info' & wb & _ & H).
  apply bind_ok in H as (md0 & wc & Hmd0 & H). apply lift_ok in Hmd0 as [Hmd0 ->].
  apply bind_ok in H as (md1 & wc & Hmd1 & H). apply lift_ok in Hmd1 as [Hmd1 ->].
  apply bind_ok in H as (md2 & wd & Hmd2 & H).
  apply bind_ok in H as (md3 & we & Hmd3 & H).
  apply bind_ok in H as ([] & wf & _ & H).
  apply bind_ok in H as ([] & wg & _ & H).
  apply bind_ok in H as ([] & wh & _ & H).
  apply bind_ok in H as ([] & wi & _ & H).
  injection H as _ <- _.
  rewrite (add_albums_ok _ _ _ _ _ _ ["albums"] ltac:(simpl; tauto) Hmd3)
    by (simpl; intros [?|[]]; done).
  rewrite (add_location_ok _ _ _ _ _ _ ["location"] ltac:(simpl; tauto) Hmd2)
    by (simpl; intros [?|[]]; done).
  apply build_metadata_no_owner_name in Hmd0 as (d & -> & Hnone).
  destruct fav.
  - apply result_bind_ok in Hmd1 as (o & Ho & Hmd1). injection Hmd1 as <-.
    rewrite Ho. simpl. by rewrite assoc_set_eq.
  - injection Hmd1 as <-. simpl. by rewrite Hnone.
Qed.

(** X7: the metadata file of a favorite records, under [owner_name], the
    [ownername] the favorites listing supplied for it, or an empty string
    when the listing gave none; the metadata file of an owned photo has no
    [owner_name] entry. *)
Theorem owner_name_recorded (rt : runtime) (photo : json) (pid base : string)
    (fav : bool) (w w' : world)
    (Hid : sub "id" photo = Ok (JStr pid))
    (Hnew : unarchived base pid w)
    (Hrun : process_photo rt photo base fav w = (Ok tt, w')) :
  exists md,
    files w' !! path_join (path_join base pid) "metadata.json" = Some (CJson md) /\
    sub "owner_name" md =
    if fav then get "ownername" (JStr "") photo else Raise (KeyError "owner_name").
Proof.
  destruct (persisted_record _ _ _ _ _ _ _ Hid Hnew Hrun) as (info & md & w2 & Hrec & Hfile).
  exists md. split; [done|]. by eapply archive_records_owner.
Qed.

Lemma owner_name_recorded_witness :
  let photo := JDict [("id", JStr "9"); ("ownername", JStr "bob")] in
  let w' := snd (process_photo (sample_rt "photo" (JList [])) photo FAVORITES_DIR true
                   empty_world) in
  exists md,
    files w' !! path_join (path_join FAVORITES_DIR "9") "metadata.json" = Some (CJson md) /\
    sub "owner_name" md = Ok (JStr "bob").
Proof.
  intros photo w'.
  apply (owner_name_recorded (sample_rt "photo" (JList [])) photo "9" FAVORITES_DIR true
           empty_world w' eq_refl (empty_world_unarchived _ _)).
  vm_compute. reflexivity.
Defined.



(* ===================================================================== *)
(** ** Further properties: the walks *)
(* ===================================================================== *)

Lemma strip_prefix_app p s : strip_prefix p (p +:+ s) = Some s.
Proof. induction p as [|a p IH]; simpl; [done|]. by rewrite Ascii.eqb_refl. Qed.

(** A subdirectory of [PHOTOS_DIR] shows up in its listing. *)
Lemma listdir_has_subdir w names pid :
  listdir PHOTOS_DIR w = (Ok names, w) ->
  pid <> "" -> occurs "/" pid = false ->
  path_join PHOTOS_DIR pid ∈ dirs w ->
  existsb (String.eqb pid) names = true.
Proof.
  unfold listdir. destruct (bool_decide _); [|done]. intros [= <-] Hne Hslash Hin.
  apply existsb_exists. exists pid. split; [|apply String.eqb_refl].
  apply list_elem_of_In, list_elem_of_omap.
  exists (path_join PHOTOS_DIR pid). split.
  - apply elem_of_elements, elem_of_union. by left.
  - unfold entry_of, path_join.
    assert (starts_with "/" pid = false) as ->.
    { destruct pid as [|a pid]; [done|]. cbn [occurs] in Hslash. cbn [starts_with].
      apply orb_false_iff in Hslash as [Ha _]. by rewrite Ascii.eqb_sym, Ha. }
    change (ends_with_slash PHOTOS_DIR) with false.
    change (String.eqb PHOTOS_DIR "" || false) with false. cbv iota.
    replace (PHOTOS_DIR +:+ "/" +:+ pid) with ((PHOTOS_DIR +:+ "/") +:+ pid) by done.
    rewrite strip_prefix_app, Hslash.
    destruct (String.eqb pid "") eqn:E; [|done]. by apply String.eqb_eq in E.
Qed.

Lemma page_numbers_S first k :
  page_numbers first (S k) = first :: page_numbers (first + 1) k.
Proof.
  unfold page_numbers. simpl. rewrite Z.add_0_r. f_equal.
  rewrite <- seq_shift, map_map. apply map_ext. intros i. lia.
Qed.

Lemma photo_loop_all_seen rt ids photos_data total i photos w :
  Forall (fun photo => exists pid, sub "id" photo = Ok (JStr pid) /\
                                   existsb (String.eqb pid) ids = true) photos ->
  photo_loop rt ids photos_data total i photos w = (Ok tt, w).
Proof.
  intros Hall. revert i. induction Hall as [|photo photos (pid & Hid & Hseen) _ IH];
    intros i; simpl; [done|].
  unfold mbind, M_bind, lift. rewrite Hid. simpl. rewrite Hseen. simpl. apply IH.
Qed.

Section OwnedWalk.

Context (rt : runtime) (ids : list string).

(** Every photo the service lists is among the names in [ids]. *)
Hypothesis all_seen :
  forall t page resp photos items,
    flickr rt t (people_getPhotos (USER_ID rt) 100 page) = Ok resp ->
    sub "photos" resp >>> sub "photo" = Ok photos ->
    iter photos = Ok items ->
    Forall (fun photo => exists pid, sub "id" photo = Ok (JStr pid) /\
                                     existsb (String.eqb pid) ids = true) items.

Lemma download_pages_all_seen fuel page total w :
  exists k es,
    (k <= fuel)%nat /\
    snd (download_pages rt fuel ids page total w) = advance k es w /\
    Forall walk_only es /\
    calls_of es = map (people_getPhotos (USER_ID rt) 100) (page_numbers page k).
Proof.
  revert page total w. induction fuel as [|fuel IH]; intros page total w.
  { exists 0%nat, []. simpl. rewrite advance_zero. by repeat split. }
  set (req := people_getPhotos (USER_ID rt) 100 page).
  set (m1 := EvPrint ("Fetching page " +:+ pretty page +:+ "...")).
  assert (Hexit : forall (r : result (option Z)) (w' : world),
    w' = advance 1 [m1; EvCall req] w \/
    (exists msg, w' = advance 1 [m1; EvCall req; EvPrint msg] w) ->
    exists k es,
      (k <= S fuel)%nat /\ snd (r, w') = advance k es w /\ Forall walk_only es /\
      calls_of es = map (people_getPhotos (USER_ID rt) 100) (page_numbers page k)).
  { intros r w' [->|[msg ->]]; eexists 1%nat, _; (split; [lia|]); (split; [reflexivity|]);
      (split; [by repeat constructor|]); unfold page_numbers; simpl; by rewrite Z.add_0_r. }
  cbn [download_pages]. rewrite bind_run, print_run, bind_run.
  unfold get_photos. rewrite call_run, advance_advance.
  change (clock (advance 0 _ w)) with (clock w). fold req. fold m1.
  change ([EvPrint ("Fetching page " +:+ pretty page +:+ "...")] ++ [EvCall req])
    with [m1; EvCall req].
  destruct (flickr rt (clock w) req) as [photos_data|e] eqn:Eresp.
  2:{ apply Hexit. by left. }
  rewrite bind_run, lift_run.
  destruct (sub "photos" photos_data >>> sub "photo") as [photos|e] eqn:Ephotos.
  2:{ apply Hexit. by left. }
  destruct (negb (truthy photos)).
  { rewrite ret_run. apply Hexit. by left. }
  rewrite bind_run, lift_run.
  destruct (py_len photos) as [n|e].
  2:{ apply Hexit. by left. }
  rewrite bind_run, print_run, advance_advance.
  set (msg := "Found " +:+ pretty n +:+ " photos on page " +:+ pretty page).
  change ([m1; EvCall req] ++ [EvPrint msg]) with [m1; EvCall req; EvPrint msg].
  change (0 + 1)%nat with 1%nat.
  rewrite bind_run, lift_run.
  destruct (iter photos) as [items|e] eqn:Eitems.
  2:{ apply Hexit. right. by exists msg. }
  rewrite bind_run.
  rewrite (photo_loop_all_seen _ _ _ _ _ _ _ (all_seen _ _ _ _ _ Eresp Ephotos Eitems)).
  rewrite bind_run, lift_run.
  destruct (sub "photos" photos_data >>> sub "pages") as [pages|e].
  2:{ apply Hexit. right. by exists msg. }
  rewrite bind_run, lift_run.
  destruct (py_ge page pages) as [stop|e].
  2:{ apply Hexit. right. by exists msg. }
  destruct stop.
  { rewrite ret_run. apply Hexit. right. by exists msg. }
  destruct (IH (page + 1) (total + n) (advance 1 [m1; EvCall req; EvPrint msg] w))
    as (k & es & Hk & Hw & Hes & Hcalls).
  exists (S k), ([m1; EvCall req; EvPrint msg] ++ es).
  split; [lia|]. split.
  { change (advance (0 + (1 + 0)) _ w) with (advance 1 [m1; EvCall req; EvPrint msg] w).
    rewrite Hw, advance_advance. f_equal. lia. }
  split; [apply Forall_app; split; [by repeat constructor|done]|].
  unfold calls_of in *. rewrite omap_app, Hcalls, page_numbers_S. done.
Qed.

End OwnedWalk.

(** X9: the owned-photos walk filters on directory names alone.  When every
    photo the service lists already has a directory under [PHOTOS_DIR],
    completion marker or not, the walk never enters [process_photo]: it
    makes no pause, no per-photo call and no write, and leaves files,
    directories and cache as they were.  All it does is log and request the
    listing pages 1, 2, ... one after the other, at most one per unit of
    fuel. *)
Theorem owned_walk_skips_existing_dirs (rt : runtime) (fuel : nat) (w : world)
    (Hlisted : forall t page resp photos items,
       flickr rt t (people_getPhotos (USER_ID rt) 100 page) = Ok resp ->
       sub "photos" resp >>> sub "photo" = Ok photos ->
       iter photos = Ok items ->
       Forall (on_disk (dirs w)) items) :
  exists k es,
    (k <= fuel)%nat /\
    snd (download_my_photos rt fuel w) = advance k es w /\
    Forall walk_only es /\
    calls_of es = map (people_getPhotos (USER_ID rt) 100) (page_numbers 1 k).
Proof.
  unfold download_my_photos. rewrite bind_run, print_run, bind_run.
  set (m0 := EvPrint ("Downloading photos for user " +:+ py_str rt (USER_ID rt))).
  set (w1 := advance 0 [m0] w).
  destruct (listdir PHOTOS_DIR w1) as [[names|e] w1'] eqn:Elist.
  2:{ assert (w1' = w1) as ->.
      { unfold listdir in Elist. destruct (bool_decide _); by injection Elist. }
      exists 0%nat, [m0]. split; [lia|]. split; [done|]. split; [by repeat constructor|done]. }
  assert (w1' = w1) as ->.
  { unfold listdir in Elist. destruct (bool_decide _); by injection Elist. }
  assert (Hseen : forall t page resp photos items,
    flickr rt t (people_getPhotos (USER_ID rt) 100 page) = Ok resp ->
    sub "photos" resp >>> sub "photo" = Ok photos ->
    iter photos = Ok items ->
    Forall (fun photo => exists pid, sub "id" photo = Ok (JStr pid) /\
                                     existsb (String.eqb pid) names = true) items).
  { intros t page resp photos items Hr Hp Hi.
    eapply Forall_impl; [exact (Hlisted _ _ _ _ _ Hr Hp Hi)|].
    intros photo (pid & Hid & Hne & Hslash & Hdir). exists pid. split; [done|].
    by apply (listdir_has_subdir w1 names pid Elist). }
  destruct (download_pages_all_seen rt names Hseen fuel 1 0 w1)
    as (k & es & Hk & Hw & Hes & Hcalls).
  rewrite bind_run.
  destruct (download_pages rt fuel names 1 0 w1) as [[[total|]|e] w2]; simpl in Hw; subst w2.
  - rewrite bind_run, print_run, ret_run. unfold w1. rewrite !advance_advance.
    set (m1 := EvPrint _).
    exists k, (([m0] ++ es) ++ [m1]). split; [done|]. split; [simpl; f_equal; lia|].
    split.
    + rewrite !Forall_app. split; [split|]; [by repeat constructor|done|by repeat constructor].
    + unfold calls_of in *. by rewrite !omap_app, Hcalls, app_nil_r.
  - rewrite ret_run. unfold w1. rewrite advance_advance.
    exists k, ([m0] ++ es). split; [done|]. split; [simpl; f_equal; lia|].
    split; [rewrite Forall_app; split; [by repeat constructor|done]|].
    unfold calls_of in *. by rewrite omap_app, Hcalls.
  - unfold w1. rewrite advance_advance.
    exists k, ([m0] ++ es). split; [done|]. split; [simpl; f_equal; lia|].
    split; [rewrite Forall_app; split; [by repeat constructor|done]|].
    unfold calls_of in *. by rewrite omap_app, Hcalls.
Qed.

Lemma owned_walk_skips_existing_dirs_witness :
  exists k es,
    (k <= 5)%nat /\
    snd (download_my_photos listing_rt 5 interrupted_world) = advance k es interrupted_world /\
    Forall walk_only es /\
    calls_of es = map (people_getPhotos (USER_ID listing_rt) 100) (page_numbers 1 k).
Proof.
  apply (owned_walk_skips_existing_dirs listing_rt 5 interrupted_world).
  intros t page resp photos items Hresp Hphotos Hitems.
  simpl in Hresp. injection Hresp as <-. simpl in Hphotos. injection Hphotos as <-.
  simpl in Hitems. injection Hitems as <-.
  constructor; [|constructor].
  exists "1". split; [reflexivity|]. split; [done|]. split; [reflexivity|].
  vm_compute. set_solver.
Defined.

(* --------------------------------------------------------------------- *)
(** *** [save_json] *)

Lemma dirname_no_slash p : occurs "/" p = false -> dirname p = "".
Proof.
  intros Hp. unfold dirname. destruct p as [|a p']; [done|].
  cbn [occurs] in Hp. apply orb_false_iff in Hp as [Ha Hp'].
  cbn [head_to_last_slash]. by rewrite Hp', Ha.
Qed.

Lemma append_snoc pre a d : (pre +:+ String a "") +:+ d = pre +:+ String a d.
Proof.
  induction pre as [|b pre IH].
  - done.
  - change (String b ((pre +:+ String a "") +:+ d) = String b (pre +:+ String a d)).
    by rewrite IH.
Qed.

Lemma parents_self pre d : pre +:+ d ∈ parents pre d.
Proof.
  revert pre. induction d as [|a d IH]; intros pre; cbn [parents].
  - replace (pre +:+ "") with pre; [apply list_elem_of_here|].
    induction pre as [|b pre IHp]; [done|].
    change (String b pre = String b (pre +:+ "")). by rewrite <- IHp.
  - apply elem_of_app. right. rewrite <- append_snoc. apply IH.
Qed.

(** X10: what a call of [save_json] leaves behind.  When it returns, the path
    had a directory part, that directory now exists, no directory was
    removed, and the files are the old ones with the path holding the data.
    When it raises, every other file is as before and the path itself is
    either as before or holds a dump that was cut short; for a path without
    a directory part the exception is [FileNotFoundError], raised before
    anything was attempted. *)
Theorem save_json_outcome (rt : runtime) (data : json) (p : string) (w : world) :
  match save_json rt data p w with
  | (Ok _, w') =>
      occurs "/" p = true /\
      files w' = <[p := CJson data]> (files w) /\
      dirname p ∈ dirs w' /\ dirs w ⊆ dirs w'
  | (Raise e, w') =>
      (forall q, q <> p -> files w' !! q = files w !! q) /\
      (files w' !! p = files w !! p \/ files w' !! p = Some CPartial) /\
      (occurs "/" p = false -> e = FileNotFoundError /\ w' = w)
  end.
Proof.
  unfold save_json. rewrite bind_run, makedirs_run.
  destruct (String.eqb (dirname p) "") eqn:Ed.
  { split; [done|]. split; [by left|]. done. }
  assert (Hslash : occurs "/" p = true).
  { destruct (occurs "/" p) eqn:Ho; [done|].
    rewrite (dirname_no_slash p Ho) in Ed. done. }
  rewrite Hslash.
  destruct (disk rt (clock w) (dirname p)).
  2,3: split; [done|]; split; [by left|done].
  unfold open_write. rewrite bind_run. unfold emit at 1. cbn beta iota.
  rewrite bind_run. unfold tick at 1. cbn beta iota. simpl clock.
  destruct (disk rt _ p); simpl.
  - split; [done|]. split; [done|]. split; [|set_solver].
    apply elem_of_union_l, elem_of_list_to_set. apply (parents_self "" (dirname p)).
  - split; [done|]. split; [by left|done].
  - split; [intros q Hq; by apply lookup_insert_ne|].
    split; [right; apply lookup_insert_eq|done].
Qed.

(* ===================================================================== *)
(** ** Further properties: the favorites walk *)
(* ===================================================================== *)

Lemma favorite_loop_completed rt faves_data total i photos w :
  is_ok (sub "photos" faves_data >>> sub "total") = true ->
  Forall (completed FAVORITES_DIR (files w)) photos ->
  exists es,
    favorite_loop rt faves_data total i photos w = (Ok tt, advance 0 es w) /\
    Forall pause_or_log es /\
    sleeps_of es = repeat RATE_DELAY (length photos).
Proof.
  intros Htotal Hall. revert i w Hall.
  induction photos as [|photo photos IH]; intros i w Hall.
  { exists []. simpl. rewrite advance_zero. by repeat split. }
  apply Forall_cons in Hall as [(pid & c & Hid & Hmarker) Hall].
  cbn [favorite_loop]. rewrite bind_run, lift_run.
  destruct (sub "photos" faves_data >>> sub "total") as [tot|e]; [|done].
  rewrite bind_run, print_run, bind_run.
  set (m1 := EvPrint _).
  rewrite (process_photo_run _ _ _ _ _ _ Hid).
  change (files (advance 0 [m1] w)) with (files w). rewrite Hmarker.
  rewrite bool_decide_eq_true_2 by (by eexists). cbn [orb].
  rewrite advance_advance.
  set (w1 := advance _ _ w).
  destruct (IH (i + 1) w1 Hall) as (es & Hrun & Hes & Hsleeps).
  rewrite Hrun. unfold w1. rewrite advance_advance.
  eexists. split; [reflexivity|]. split.
  - rewrite Forall_app. split; [by repeat constructor|done].
  - unfold sleeps_of in *. rewrite omap_app, Hsleeps. done.
Qed.

Section FavoritesWalk.

Context (rt : runtime) (fs : gmap string content).

Lemma frame_ret {A} (a : A) : frame_run favorites_listing_only fs (mret a : M A).
Proof. intros w _. exists 0%nat, []. simpl. by rewrite advance_zero. Qed.

Lemma frame_print msg : frame_run favorites_listing_only fs (print msg).
Proof. intros w _. exists 0%nat, [EvPrint msg]. split; [done|]. by repeat constructor. Qed.

Lemma frame_bind {A B} (m : M A) (k : A -> M B) :
  frame_run favorites_listing_only fs m ->
  (forall a, frame_run favorites_listing_only fs (k a)) ->
  frame_run favorites_listing_only fs (m ≫= k).
Proof.
  intros Hm Hk w Hw. destruct (Hm w Hw) as (n1 & es1 & E1 & H1).
  rewrite bind_run. destruct (m w) as [[a|e] w1]; simpl in E1; subst w1.
  - destruct (Hk a (advance n1 es1 w) Hw) as (n2 & es2 & E2 & H2).
    exists (n2 + n1)%nat, (es1 ++ es2). rewrite E2, advance_advance.
    split; [done|]. by apply Forall_app.
  - by exists n1, es1.
Qed.

Lemma frame_bind_lift {A B} (r : result A) (k : A -> M B) :
  (forall a, r = Ok a -> frame_run favorites_listing_only fs (k a)) ->
  frame_run favorites_listing_only fs (lift r ≫= k).
Proof.
  intros Hk w Hw. rewrite bind_run, lift_run. destruct r as [a|e].
  - by apply Hk.
  - exists 0%nat, []. by rewrite advance_zero.
Qed.

Lemma frame_bind_get_favorites {B} user_id per_page page (k : json -> M B) :
  (forall t v, flickr rt t (favorites_getList user_id per_page page) = Ok v ->
               frame_run favorites_listing_only fs (k v)) ->
  frame_run favorites_listing_only fs (get_favorites rt user_id per_page page ≫= k).
Proof.
  intros Hk w Hw. rewrite bind_run. unfold get_favorites. rewrite call_run.
  set (r := favorites_getList user_id per_page page) in *.
  destruct (flickr rt (clock w) r) as [v|e] eqn:E.
  - destruct (Hk _ _ E (advance 1 [EvCall r] w) Hw) as (n & es & E2 & H2).
    exists (n + 1)%nat, ([EvCall r] ++ es). rewrite E2, advance_advance.
    split; [done|]. apply Forall_app. split; [by repeat constructor|done].
  - exists 1%nat, [EvCall r]. split; [done|]. by repeat constructor.
Qed.

Lemma frame_favorite_loop faves_data total i photos :
  Forall (completed FAVORITES_DIR fs) photos ->
  frame_run favorites_listing_only fs (favorite_loop rt faves_data total i photos).
Proof.
  intros Hall. revert i. induction Hall as [|photo photos Hphoto _ IH]; intros i.
  { apply frame_ret. }
  cbn [favorite_loop]. apply frame_bind_lift. intros tot _.
  apply frame_bind; [apply frame_print|]. intros _.
  apply frame_bind; [|intros _; apply IH].
  destruct Hphoto as (pid & c & Hid & Hmarker). intros w Hw.
  rewrite (process_photo_run _ _ _ _ _ _ Hid), Hw, Hmarker.
  rewrite bool_decide_eq_true_2 by (by eexists). simpl.
  eexists 0%nat, _. split; [reflexivity|]. by repeat constructor.
Qed.

(** Every favorite the service lists for the user is already archived. *)
Hypothesis all_completed :
  forall t page resp photos items,
    flickr rt t (favorites_getList (USER_ID rt) 100 page) = Ok resp ->
    sub "photos" resp >>> sub "photo" = Ok photos ->
    iter photos = Ok items ->
    Forall (completed FAVORITES_DIR fs) items.

Lemma frame_favorite_pages fuel page total_processed :
  frame_run favorites_listing_only fs (favorite_pages rt fuel page total_processed).
Proof.
  revert page total_processed. induction fuel as [|fuel IH]; intros page total.
  { apply frame_ret. }
  cbn [favorite_pages].
  apply frame_bind; [apply frame_print|]. intros _.
  apply frame_bind_get_favorites. intros t faves_data Hresp.
  apply frame_bind_lift. intros photos Hphotos.
  destruct (negb (truthy photos)); [apply frame_ret|].
  apply frame_bind_lift. intros n _.
  apply frame_bind; [apply frame_print|]. intros _.
  apply frame_bind_lift. intros items Hitems.
  apply frame_bind.
  { apply frame_favorite_loop. eapply all_completed; eauto. }
  intros _. apply frame_bind_lift. intros pages _.
  apply frame_bind_lift. intros stop _.
  destruct stop; [apply frame_ret|apply IH].
Qed.

Lemma frame_download_favorites fuel :
  frame_run favorites_listing_only fs (download_favorites rt fuel).
Proof.
  unfold download_favorites.
  apply frame_bind; [apply frame_print|]. intros _.
  apply frame_bind; [apply frame_favorite_pages|]. intros [total|].
  - apply frame_bind; [apply frame_print|]. intros _. apply frame_ret.
  - apply frame_ret.
Qed.

End FavoritesWalk.

(** X11: the favorites walk has no filter of its own: every listed favorite
    goes through [process_photo].  Over favorites whose completion marker
    exists, one page's loop returns having only logged and paused, with one
    pause of [RATE_DELAY] per favorite listed; and when every favorite the
    service lists is in that state, the whole walk, however far it gets,
    makes no remote call other than the page listings and leaves files,
    directories and cache as they were. *)
Theorem favorites_rerun_only_pauses (rt : runtime) (w : world) :
  (forall faves_data total i photos,
     is_ok (sub "photos" faves_data >>> sub "total") = true ->
     Forall (completed FAVORITES_DIR (files w)) photos ->
     exists es,
       favorite_loop rt faves_data total i photos w = (Ok tt, advance 0 es w) /\
       Forall pause_or_log es /\
       sleeps_of es = repeat RATE_DELAY (length photos)) /\
  (forall fuel,
     (forall t page resp photos items,
        flickr rt t (favorites_getList (USER_ID rt) 100 page) = Ok resp ->
        sub "photos" resp >>> sub "photo" = Ok photos ->
        iter photos = Ok items ->
        Forall (completed FAVORITES_DIR (files w)) items) ->
     exists n es,
       snd (download_favorites rt fuel w) = advance n es w /\
       Forall favorites_listing_only es).
Proof.
  split.
  - intros. by apply favorite_loop_completed.
  - intros fuel Hall. by apply (frame_download_favorites rt (files w) Hall fuel w).
Qed.

Lemma favorites_rerun_only_pauses_witness :
  (exists es,
     favorite_loop favorites_rt
       (JDict [("photos", JDict [("total", JInt 1)])]) 0 1 [sample_photo] favorites_world =
     (Ok tt, advance 0 es favorites_world) /\
     Forall pause_or_log es /\
     sleeps_of es = [RATE_DELAY]) /\
  (exists n es,
     snd (download_favorites favorites_rt 5 favorites_world) =
     advance n es favorites_world /\
     Forall favorites_listing_only es).
Proof.
  assert (Hdone : completed FAVORITES_DIR (files favorites_world) sample_photo).
  { exists "1", (CText "2023-12-31T10:00:00"). split; reflexivity. }
  destruct (favorites_rerun_only_pauses favorites_rt favorites_world) as [Hloop Hwalk].
  split.
  - apply (Hloop (JDict [("photos", JDict [("total", JInt 1)])]) 0 1 [sample_photo]).
    + reflexivity.
    + by repeat constructor.
  - apply Hwalk. intros t page resp photos items Hresp Hphotos Hitems.
    simpl in Hresp. injection Hresp as <-. simpl in Hphotos. injection Hphotos as <-.
    simpl in Hitems. injection Hitems as <-.
    by repeat constructor.
Defined.

(* ===================================================================== *)
(** ** Further properties: the index *)
(* ===================================================================== *)

Section IndexReads.

Context (rt : runtime) (loads : string -> result json) (allowed : event -> Prop).

Lemma confined_load_file p : confined allowed [] (load_file loads p).
Proof.
  intros w. exists []. unfold load_file. destruct (files w !! p); simpl;
    rewrite app_nil_r; (split; [done|]); (split; [constructor|]);
    (split; [done|]); intros _; constructor.
Qed.

Lemma confined_read_json p : confined allowed [] (read_json rt loads p).
Proof.
  unfold read_json. apply confined_bind_nil; [apply confined_tick|]. intros t.
  destruct (disk rt t p); first [apply confined_load_file | apply confined_raise].
Qed.

Lemma confined_index_loop summary base names :
  confined allowed [] (index_loop rt loads summary base names).
Proof.
  induction names as [|photo_id names IH]; cbn [index_loop].
  { apply confined_ret. }
  apply confined_bind_nil; [apply confined_path_exists|]. intros [|]; [|exact IH].
  apply confined_bind_nil; [apply confined_read_json|]. intros metadata.
  apply confined_bind_nil; [apply confined_lift|]. intros entry.
  apply confined_bind_nil; [exact IH|]. intros entries. apply confined_ret.
Qed.

Lemma confined_index_of summary base :
  confined allowed [] (index_of rt loads summary base).
Proof.
  unfold index_of. apply confined_bind_nil; [apply confined_path_exists|].
  intros [|]; [|apply confined_ret].
  apply confined_bind_nil; [apply confined_listdir|]. intros names.
  apply confined_index_loop.
Qed.

End IndexReads.

Section IndexFootprint.

Context (rt : runtime) (loads : string -> result json).

Lemma index_only_print msg : confined (index_only rt) [] (print msg).
Proof. eapply confined_drop. by apply confined_emit. Qed.

Lemma index_only_save_json data p :
  In p index_paths -> confined (index_only rt) [EvWrite p] (save_json rt data p).
Proof. intros Hp. by apply confined_save_json. Qed.

Lemma index_only_create_index :
  confined (index_only rt)
    [EvWrite my_photos_index_path; EvWrite favorites_index_path;
     EvCall (photosets_getList (USER_ID rt) 500); EvWrite albums_index_path]
    (create_index rt loads).
Proof.
  unfold create_index.
  apply confined_bind_r; [apply index_only_print|]. intros _.
  apply confined_bind_r; [apply confined_index_of|]. intros my_photos_index.
  apply (confined_bind _ [EvWrite my_photos_index_path]).
  { apply index_only_save_json. simpl. tauto. }
  intros _.
  apply confined_bind_r; [apply confined_index_of|]. intros favorites_index.
  apply (confined_bind _ [EvWrite favorites_index_path]).
  { apply index_only_save_json. simpl. tauto. }
  intros _.
  apply confined_bind_r; [apply index_only_print|]. intros _.
  apply (confined_bind _ [EvCall (photosets_getList (USER_ID rt) 500)]).
  { unfold get_photosets, call.
    apply confined_bind_r; [apply confined_tick|]. intros t.
    apply confined_bind_l; [by apply confined_emit|]. intros _. apply confined_lift. }
  intros albums_data.
  apply confined_bind_r; [apply confined_lift|]. intros albums_index.
  apply confined_bind_l.
  { apply index_only_save_json. simpl. tauto. }
  intros _.
  apply confined_bind_nil; [apply index_only_print|]. intros _.
  apply confined_bind_nil; [apply (confined_pure _ (fun w => Ok (USER_CACHE w)))|].
  intros [|kv cache]; [apply confined_ret|].
  apply confined_bind_nil; [|intros _; apply index_only_print].
  eapply confined_drop. apply index_only_save_json. simpl. tauto.
Qed.

End IndexFootprint.

(** X12: the footprint of [create_index].  Whatever it returns, it only logs,
    lists the user's albums and opens the four index files under [DATA_DIR]
    for writing: it neither pauses nor downloads, and every other file, the
    archive units it reads included, is left as it was.  When it returns
    normally, the owned-photos index was written first, then the favorites
    index, then the albums were listed, then the albums index was
    written. *)
Theorem create_index_footprint (rt : runtime) (loads : string -> result json)
    (w : world) :
  let run := create_index rt loads w in
  exists es,
    trace (snd run) = trace w ++ es /\
    Forall (index_only rt) es /\
    (forall q, ~ In q index_paths -> files (snd run) !! q = files w !! q) /\
    (is_ok (fst run) = true ->
     sublist [EvWrite my_photos_index_path; EvWrite favorites_index_path;
              EvCall (photosets_getList (USER_ID rt) 500);
              EvWrite albums_index_path] es).
Proof.
  simpl. destruct (index_only_create_index rt loads w) as (es & Ht & Hal & Hf & Hs).
  exists es. split; [done|]. split; [done|]. split; [|done].
  intros q Hq. apply Hf. exact Hq.
Qed.

Lemma read_json_run rt loads p w :
  read_json rt loads p w =
  match disk rt (clock w) p with
  | DiskOk => match files w !! p with
              | Some c => (json_load loads c, advance 1 [] w)
              | None => (Raise OSError, advance 1 [] w)
              end
  | _ => (Raise OSError, advance 1 [] w)
  end.
Proof.
  unfold read_json. rewrite bind_run. unfold tick at 1. cbn beta iota. simpl clock.
  unfold advance. rewrite app_nil_r.
  destruct (disk rt (clock w) p); [|done|done].
  unfold load_file. simpl. by destruct (files w !! p).
Qed.

(** The loop over a listing stops at the first metadata file that cannot be
    read, having changed nothing but the clock. *)
Lemma index_loop_blocked rt loads summary base names pid c e0 w :
  In pid names ->
  files w !! metadata_path base pid = Some c ->
  json_load loads c = Raise e0 ->
  exists e n, index_loop rt loads summary base names w = (Raise e, advance n [] w).
Proof.
  intros Hin Hfile Hbad. revert w Hfile.
  induction names as [|name names IH]; intros w Hfile; [done|].
  cbn [index_loop]. rewrite bind_run. unfold path_exists at 1. cbn beta iota.
  fold (metadata_path base name).
  assert (Hrest : In pid names ->
    exists e n, index_loop rt loads summary base names w = (Raise e, advance n [] w)).
  { intros Hin'. by apply IH. }
  destruct (bool_decide (is_Some (files w !! metadata_path base name))
            || bool_decide (metadata_path base name ∈ dirs w)) eqn:Ethere.
  2:{ destruct Hin as [->|Hin]; [|by apply Hrest].
      rewrite Hfile in Ethere. rewrite bool_decide_eq_true_2 in Ethere by (by eexists).
      done. }
  rewrite bind_run, read_json_run.
  destruct (disk rt (clock w) (metadata_path base name)); [|by eexists _, 1%nat..].
  destruct (files w !! metadata_path base name) as [c'|] eqn:Ec'; [|by eexists _, 1%nat].
  destruct (json_load loads c') as [metadata|e] eqn:Eload; [|by eexists _, 1%nat].
  destruct Hin as [->|Hin]; [congruence|].
  rewrite bind_run, lift_run.
  destruct (summary name metadata) as [entry|e]; [|by eexists _, 1%nat].
  rewrite bind_run.
  destruct (IH Hin (advance 1 [] w) Hfile) as (e & n & ->).
  rewrite advance_advance. by eexists e, (n + 1)%nat.
Qed.

(** X13: a metadata file that does not parse blocks the index.  If some
    subdirectory of [PHOTOS_DIR] holds a [metadata.json] on which [json.load]
    raises, for one because its dump was cut short, then [create_index]
    raises before it has written any index file: it has logged its first
    line and read files, and nothing else has changed. *)
Theorem unreadable_metadata_blocks_index (rt : runtime) (loads : string -> result json)
    (w : world) (pid : string) (c : content) (e0 : exn)
    (Hroot : PHOTOS_DIR ∈ dirs w)
    (Hname : pid <> "" /\ occurs "/" pid = false)
    (Hdir : path_join PHOTOS_DIR pid ∈ dirs w)
    (Hfile : files w !! metadata_path PHOTOS_DIR pid = Some c)
    (Hbad : json_load loads c = Raise e0) :
  exists e n,
    create_index rt loads w = (Raise e, advance n [EvPrint "Creating index files..."] w).
Proof.
  destruct Hname as [Hne Hslash].
  unfold create_index. rewrite bind_run, print_run, bind_run.
  set (w1 := advance 0 _ w).
  unfold index_of. rewrite bind_run. unfold path_exists at 1. cbn beta iota.
  change (dirs w1) with (dirs w). change (files w1) with (files w).
  rewrite (bool_decide_eq_true_2 (PHOTOS_DIR ∈ dirs w) Hroot), orb_true_r.
  rewrite bind_run.
  destruct (listdir PHOTOS_DIR w1) as [[names|e] w1'] eqn:Elist.
  2:{ unfold listdir in Elist. change (dirs w1) with (dirs w) in Elist.
      rewrite (bool_decide_eq_true_2 _ Hroot) in Elist. done. }
  assert (w1' = w1) as ->.
  { unfold listdir in Elist. destruct (bool_decide _); by injection Elist. }
  assert (Hin : In pid names).
  { pose proof (listdir_has_subdir w1 names pid Elist Hne Hslash Hdir) as Hex.
    apply existsb_exists in Hex as (x & Hx & Heq). apply String.eqb_eq in Heq.
    by subst x. }
  destruct (index_loop_blocked rt loads photo_summary PHOTOS_DIR names pid c e0 w1
              Hin Hfile Hbad) as (e & n & ->).
  exists e, n. unfold w1. rewrite advance_advance. f_equal. f_equal. lia.
Qed.

Lemma unreadable_metadata_blocks_index_witness :
  exists e n,
    create_index listing_rt (fun _ => Raise ValueError) cut_world =
    (Raise e, advance n [EvPrint "Creating index files..."] cut_world).
Proof.
  apply (unreadable_metadata_blocks_index listing_rt (fun _ => Raise ValueError)
           cut_world "1" CPartial ValueError).
  - vm_compute. set_solver.
  - split; [done|reflexivity].
  - vm_compute. set_solver.
  - reflexivity.
  - reflexivity.
Defined.

Lemma index_loop_ok rt loads summary base names w entries w' :
  index_loop rt loads summary base names w = (Ok entries, w') ->
  Forall2 (summarises loads summary base (files w))
          (List.filter (has_metadata base (files w)) names) entries /\
  w' = advance (length entries) [] w.
Proof.
  revert w entries w'. induction names as [|name names IH]; intros w entries w' Hrun.
  { injection Hrun as <- <-. split; [constructor|]. by rewrite advance_zero. }
  cbn [index_loop] in Hrun. rewrite bind_run in Hrun.
  unfold path_exists at 1 in Hrun. cbn beta iota in Hrun.
  fold (metadata_path base name) in Hrun.
  cbn [List.filter]. unfold has_metadata at 1.
  destruct (bool_decide (is_Some (files w !! metadata_path base name))) eqn:Efile.
  - cbn [orb] in Hrun. rewrite bind_run, read_json_run in Hrun.
    destruct (disk rt (clock w) (metadata_path base name)); [|done..].
    destruct (files w !! metadata_path base name) as [c|] eqn:Ec; [|done].
    destruct (json_load loads c) as [metadata|e] eqn:Eload; [|done].
    rewrite bind_run, lift_run in Hrun.
    destruct (summary name metadata) as [entry|e] eqn:Esum; [|done].
    rewrite bind_run in Hrun.
    destruct (index_loop rt loads summary base names (advance 1 [] w))
      as [[rest|e] w1] eqn:Erest; [|done].
    injection Hrun as <- <-.
    destruct (IH _ _ _ Erest) as [Hall ->].
    split.
    + constructor; [by exists c, metadata|exact Hall].
    + rewrite advance_advance. simpl. f_equal. lia.
  - cbn [orb] in Hrun.
    destruct (bool_decide (metadata_path base name ∈ dirs w)).
    + rewrite bind_run, read_json_run in Hrun.
      apply bool_decide_eq_false in Efile.
      destruct (disk rt (clock w) (metadata_path base name)); [|done..].
      destruct (files w !! metadata_path base name) as [c|] eqn:Ec; [|done].
      exfalso. apply Efile. by eexists.
    + by apply IH.
Qed.

(** X14: what an index lists.  When the loop over a base directory returns,
    its entries are, in listing order, the summaries of exactly those
    entries of the directory that hold a [metadata.json] file; whether a
    completion marker exists plays no part.  Building them has changed
    nothing but the clock, which moved once per file read. *)
Theorem index_lists_metadata_files (rt : runtime) (loads : string -> result json)
    (summary : string -> json -> result json) (base : string) (w w' : world)
    (entries : list json)
    (Hbase : base ∈ dirs w)
    (Hrun : index_of rt loads summary base w = (Ok entries, w')) :
  exists names,
    listdir base w = (Ok names, w) /\
    Forall2 (summarises loads summary base (files w))
            (List.filter (has_metadata base (files w)) names) entries /\
    w' = advance (length entries) [] w.
Proof.
  unfold index_of in Hrun. rewrite bind_run in Hrun.
  unfold path_exists at 1 in Hrun. cbn beta iota in Hrun.
  rewrite (bool_decide_eq_true_2 (base ∈ dirs w) Hbase), orb_true_r, bind_run in Hrun.
  destruct (listdir base w) as [[names|e] w1] eqn:Elist; [|done].
  assert (w1 = w) as ->.
  { unfold listdir in Elist. destruct (bool_decide _); by injection Elist. }
  exists names. split; [done|]. by apply (index_loop_ok rt).
Qed.

Lemma index_lists_metadata_files_witness :
  exists names,
    listdir PHOTOS_DIR unfinished_world = (Ok names, unfinished_world) /\
    Forall2 (summarises (fun _ => Raise ValueError) photo_summary PHOTOS_DIR
               (files unfinished_world))
            (List.filter (has_metadata PHOTOS_DIR (files unfinished_world)) names)
            [JDict [("id", JStr "1"); ("title", JStr "Dawn"); ("date_taken", JStr "");
                    ("date_uploaded", JStr ""); ("tags", JList []);
                    ("media", JStr "photo"); ("views", JInt 0); ("albums", JList [])]] /\
    advance 1 [] unfinished_world = advance 1 [] unfinished_world.
Proof.
  apply (index_lists_metadata_files listing_rt (fun _ => Raise ValueError) photo_summary
           PHOTOS_DIR unfinished_world (advance 1 [] unfinished_world)).
  - vm_compute. set_solver.
  - vm_compute. reflexivity.
Defined.

(* ===================================================================== *)
(** ** Further properties: the entry point *)
(* ===================================================================== *)

Lemma save_json_inv rt data p w w' :
  save_json rt data p w = (Ok tt, w') ->
  files w' = <[p := CJson data]> (files w) /\ USER_CACHE w' = USER_CACHE w.
Proof.
  unfold save_json. rewrite bind_run, makedirs_run.
  destruct (String.eqb (dirname p) ""); [done|].
  destruct (disk rt (clock w) (dirname p)); [|done..].
  unfold open_write. rewrite bind_run. unfold emit at 1. cbn beta iota.
  rewrite bind_run. unfold tick at 1. cbn beta iota. simpl clock.
  destruct (disk rt _ p); simpl; [|done..].
  by intros [= <-].
Qed.

Lemma print_inv msg w w' :
  print msg w = (Ok tt, w') -> files w' = files w /\ USER_CACHE w' = USER_CACHE w.
Proof. rewrite print_run. by intros [= <-]. Qed.

Lemma index_of_inv rt loads summary base w entries w' :
  index_of rt loads summary base w = (Ok entries, w') ->
  files w' = files w /\ USER_CACHE w' = USER_CACHE w.
Proof.
  unfold index_of. rewrite bind_run. unfold path_exists at 1. cbn beta iota.
  destruct (_ || _).
  - rewrite bind_run. destruct (listdir base w) as [[names|e] w1] eqn:Elist; [|done].
    assert (w1 = w) as ->.
    { unfold listdir in Elist. destruct (bool_decide _); by injection Elist. }
    intros Hloop. by apply index_loop_ok in Hloop as [_ ->].
  - by intros [= _ <-].
Qed.

Lemma create_index_ok rt loads w w' :
  create_index rt loads w = (Ok tt, w') ->
  USER_CACHE w' = USER_CACHE w /\
  exists my_photos_index favorites_index albums_index,
    files w' !! my_photos_index_path = Some (CJson (JList my_photos_index)) /\
    files w' !! favorites_index_path = Some (CJson (JList favorites_index)) /\
    files w' !! albums_index_path = Some (CJson (JList albums_index)) /\
    (USER_CACHE w <> [] ->
     files w' !! users_cache_path = Some (CJson (cache_json rt (USER_CACHE w)))).
Proof.
  unfold create_index. intros Hrun.
  apply bind_ok in Hrun as ([] & w1 & [Hf1 Hc1]%print_inv & Hrun).
  apply bind_ok in Hrun as (my & w2 & [Hf2 Hc2]%index_of_inv & Hrun).
  apply bind_ok in Hrun as ([] & w3 & [Hf3 Hc3]%save_json_inv & Hrun).
  apply bind_ok in Hrun as (fav & w4 & [Hf4 Hc4]%index_of_inv & Hrun).
  apply bind_ok in Hrun as ([] & w5 & [Hf5 Hc5]%save_json_inv & Hrun).
  apply bind_ok in Hrun as ([] & w6 & [Hf6 Hc6]%print_inv & Hrun).
  apply bind_ok in Hrun as (albums_data & w7 & Hcall & Hrun).
  unfold get_photosets in Hcall. rewrite call_run in Hcall.
  assert (Hw7 : files w7 = files w6 /\ USER_CACHE w7 = USER_CACHE w6).
  { destruct (flickr rt (clock w6) _); [|done]. by injection Hcall as _ <-. }
  destruct Hw7 as [Hf7 Hc7]. clear Hcall.
  apply bind_ok in Hrun as (albums & w8 & [_ ->]%lift_ok & Hrun).
  apply bind_ok in Hrun as ([] & w9 & [Hf9 Hc9]%save_json_inv & Hrun).
  apply bind_ok in Hrun as ([] & w10 & [Hf10 Hc10]%print_inv & Hrun).
  apply bind_ok in Hrun as (cache & w11 & Hread & Hrun).
  unfold read_cache in Hread. injection Hread as <- <-.
  assert (Hcache : USER_CACHE w10 = USER_CACHE w) by congruence.
  assert (Hfiles : files w10 =
    <[albums_index_path := CJson (JList albums)]>
      (<[favorites_index_path := CJson (JList fav)]>
         (<[my_photos_index_path := CJson (JList my)]> (files w)))).
  { rewrite Hf10, Hf9, Hf7, Hf6, Hf5, Hf4, Hf3, Hf2, Hf1. done. }
  assert (Hthree : forall fs : gmap string content,
    (forall q, q <> users_cache_path -> fs !! q = files w10 !! q) ->
    fs !! my_photos_index_path = Some (CJson (JList my)) /\
    fs !! favorites_index_path = Some (CJson (JList fav)) /\
    fs !! albums_index_path = Some (CJson (JList albums))).
  { intros fs Hfs. rewrite !Hfs, Hfiles by done.
    split; [|split].
    - rewrite !lookup_insert_ne by done. apply lookup_insert_eq.
    - rewrite lookup_insert_ne by done. apply lookup_insert_eq.
    - apply lookup_insert_eq. }
  destruct (USER_CACHE w10) as [|kv cache] eqn:Ecache.
  - injection Hrun as <-. rewrite Ecache. split; [congruence|].
    exists my, fav, albums.
    destruct (Hthree (files w10)) as (H1 & H2 & H3); [done|].
    repeat (split; [done|]). by rewrite <- Hcache.
  - apply bind_ok in Hrun as ([] & w12 & [Hf12 Hc12]%save_json_inv & Hrun).
    apply print_inv in Hrun as [Hf13 Hc13].
    split; [congruence|].
    exists my, fav, albums.
    destruct (Hthree (files w')) as (H1 & H2 & H3).
    { intros q Hq. rewrite Hf13, Hf12. by apply lookup_insert_ne. }
    repeat (split; [done|]). intros _.
    rewrite Hf13, Hf12, <- Hcache. apply lookup_insert_eq.
Qed.

(** X15: what a run that reports success leaves behind.  When the entry
    point returns, having reached its last line, the three index files under
    [DATA_DIR] each hold a list, and if any user was resolved during the run
    or before, [users_cache.json] holds the whole user cache, one entry per
    user id. *)
Theorem successful_run_leaves_indexes (rt : runtime) (loads : string -> result json)
    (fuel : nat) (w w' : world)
    (Hrun : main rt loads fuel w = (Ok (Some tt), w')) :
  exists my_photos_index favorites_index albums_index,
    files w' !! my_photos_index_path = Some (CJson (JList my_photos_index)) /\
    files w' !! favorites_index_path = Some (CJson (JList favorites_index)) /\
    files w' !! albums_index_path = Some (CJson (JList albums_index)) /\
    (USER_CACHE w' <> [] ->
     files w' !! users_cache_path = Some (CJson (cache_json rt (USER_CACHE w')))).
Proof.
  unfold main in Hrun.
  apply bind_ok in Hrun as ([] & w1 & _ & Hrun).
  apply bind_ok in Hrun as ([] & w2 & _ & Hrun).
  apply bind_ok in Hrun as ([] & w3 & _ & Hrun).
  apply bind_ok in Hrun as ([] & w4 & _ & Hrun).
  apply bind_ok in Hrun as ([[]|] & w5 & _ & Hrun); [|done].
  apply bind_ok in Hrun as ([[]|] & w6 & _ & Hrun); [|done].
  apply bind_ok in Hrun as ([] & w7 & (Hc & my & fav & albums & H1 & H2 & H3 & H4)%create_index_ok
                            & Hrun).
  apply bind_ok in Hrun as ([] & w8 & [Hf8 Hc8]%print_inv & Hrun).
  apply bind_ok in Hrun as ([] & w9 & [Hf9 Hc9]%print_inv & Hrun).
  injection Hrun as <-.
  exists my, fav, albums. rewrite Hf9, Hf8, Hc9, Hc8, Hc.
  by repeat (split; [done|]).
Qed.

Lemma successful_run_leaves_indexes_witness :
  exists my_photos_index favorites_index albums_index,
    let w' := snd (main bare_rt (fun _ => Raise ValueError) 2 empty_world) in
    files w' !! my_photos_index_path = Some (CJson (JList my_photos_index)) /\
    files w' !! favorites_index_path = Some (CJson (JList favorites_index)) /\
    files w' !! albums_index_path = Some (CJson (JList albums_index)) /\
    (USER_CACHE w' <> [] ->
     files w' !! users_cache_path = Some (CJson (cache_json bare_rt (USER_CACHE w')))).
Proof.
  apply (successful_run_leaves_indexes bare_rt (fun _ => Raise ValueError) 2 empty_world).
  vm_compute. reflexivity.
Defined.

(* ===================================================================== *)
(** ** Further properties: records of a failed fetch *)
(* ===================================================================== *)

(** X16: a comments, favorites or EXIF fetch that fails is archived as an
    empty list.  After the one failed call the stage behaves exactly as
    [save_json] of [[]] to its file: nothing is logged and nothing is raised
    on account of the failure, so the file written is the one a photo
    without comments, favorites or EXIF data gets. *)
Theorem failed_fetch_saved_as_empty (rt : runtime) (photo_id : json)
    (photo_dir : string) (w : world) :
  (forall e, flickr rt (clock w) (photos_comments_getList photo_id) = Raise e ->
     archive_comments rt photo_id photo_dir w =
     save_json rt (JList []) (path_join photo_dir "comments.json")
       (advance 1 [EvCall (photos_comments_getList photo_id)] w)) /\
  (forall e, flickr rt (clock w) (photos_getFavorites photo_id 500) = Raise e ->
     archive_favorites rt photo_id photo_dir w =
     save_json rt (JList []) (path_join photo_dir "favorites.json")
       (advance 1 [EvCall (photos_getFavorites photo_id 500)] w)) /\
  (forall e, flickr rt (clock w) (photos_getExif photo_id) = Raise e ->
     archive_exif rt photo_id photo_dir w =
     save_json rt (JList []) (path_join photo_dir "exif.json")
       (advance 1 [EvCall (photos_getExif photo_id)] w)).
Proof.
  split; [|split]; intros e He.
  - unfold archive_comments, get_photo_comments.
    rewrite bind_run, try_except_call, He. reflexivity.
  - unfold archive_favorites, get_photo_favorites.
    rewrite bind_run, try_except_call, He. reflexivity.
  - unfold archive_exif, get_photo_exif.
    rewrite bind_run, try_except_call, He. reflexivity.
Qed.

Lemma failed_fetch_saved_as_empty_witness :
  files (snd (archive_comments listing_rt (JStr "1") (path_join PHOTOS_DIR "1")
                empty_world))
    !! path_join (path_join PHOTOS_DIR "1") "comments.json" = Some (CJson (JList [])).
Proof.
  rewrite (proj1 (failed_fetch_saved_as_empty listing_rt (JStr "1")
                    (path_join PHOTOS_DIR "1") empty_world)
             (FlickrError "1: not found") eq_refl).
  reflexivity.
Defined.

(* ===================================================================== *)
(** ** Further properties: a photo is processed once *)
(* ===================================================================== *)

Lemma process_photo_needs_str_id rt photo base fav w w' :
  process_photo rt photo base fav w = (Ok tt, w') ->
  exists pid, sub "id" photo = Ok (JStr pid).
Proof.
  unfold process_photo. intros Hrun.
  apply bind_ok in Hrun as (photo_id & w1 & [Hid ->]%lift_ok & Hrun).
  apply bind_ok in Hrun as ([] & w2 & _ & Hrun).
  apply bind_ok in Hrun as (photo_dir & w3 & [Hdir _]%lift_ok & _).
  destruct photo_id; try done. by eexists.
Qed.

(** X17: processing is idempotent.  Once [process_photo] has returned for a
    photo, whether it archived the photo or found it archived, a further
    call for the same photo and base directory in the world it left, with
    whatever the service would answer by then, only pauses, logs that the
    photo is skipped and returns: it makes no remote call and writes
    nothing. *)
Theorem processed_photo_skipped_next (rt rt' : runtime) (photo : json) (base : string)
    (fav fav' : bool) (w w' : world)
    (Hrun : process_photo rt photo base fav w = (Ok tt, w')) :
  exists msg,
    process_photo rt' photo base fav' w' =
    (Ok tt, advance 0 [EvSleep RATE_DELAY; EvPrint msg] w').
Proof.
  destruct (process_photo_needs_str_id _ _ _ _ _ _ Hrun) as [pid Hid].
  rewrite (process_photo_run _ _ _ _ _ _ Hid) in Hrun.
  rewrite (process_photo_run _ _ _ _ _ _ Hid).
  set (marker := path_join (path_join base pid) "complete.flag") in *.
  assert (Hthere : bool_decide (is_Some (files w' !! marker))
                   || bool_decide (marker ∈ dirs w') = true).
  { destruct (bool_decide (is_Some (files w !! marker)) || bool_decide (marker ∈ dirs w))
      eqn:Ethere.
    - injection Hrun as <-. exact Ethere.
    - apply bind_ok in Hrun as ([] & w3 & _ & Hrun).
      apply bind_ok in Hrun as ([] & w4 & Hmarker & Hsleep).
      rewrite write_marker_run in Hmarker. fold marker in Hmarker.
      destruct (disk rt (clock w3) marker); try done.
      injection Hmarker as <-. rewrite sleep_run in Hsleep. injection Hsleep as <-.
      apply orb_true_iff. left. apply bool_decide_eq_true.
      simpl. rewrite lookup_insert_eq. by eexists. }
  rewrite Hthere. by eexists.
Qed.

Lemma processed_photo_skipped_next_witness :
  let rt := sample_rt "photo" (JList []) in
  let w' := snd (process_photo rt sample_photo PHOTOS_DIR false empty_world) in
  exists msg,
    process_photo listing_rt sample_photo PHOTOS_DIR true w' =
    (Ok tt, advance 0 [EvSleep RATE_DELAY; EvPrint msg] w').
Proof.
  intros rt w'.
  apply (processed_photo_skipped_next rt listing_rt sample_photo PHOTOS_DIR false true
           empty_world w').
  vm_compute. reflexivity.
Defined.

(* ===================================================================== *)
(** ** Further properties: the walks end *)
(* ===================================================================== *)

Lemma py_ge_bounded (P page : Z) (pages : json) (stop : bool) :
  1 <= page ->
  (forall z, pages = JInt z -> z <= P) ->
  py_ge page pages = Ok stop ->
  stop = false -> page < P.
Proof.
  intros Hpage Hbound Hge ->. destruct pages as [|b|z| | |]; simpl in Hge; try done.
  - injection Hge as Hb. apply Z.leb_gt in Hb. destruct b; lia.
  - injection Hge as Hz. apply Z.leb_gt in Hz. specialize (Hbound z eq_refl). lia.
Qed.

Section WalksEnd.

Context (rt : runtime) (P : Z).

Lemma download_pages_ends fuel ids page total w :
  (forall t page resp z,
     flickr rt t (people_getPhotos (USER_ID rt) 100 page) = Ok resp ->
     sub "photos" resp >>> sub "pages" = Ok (JInt z) -> z <= P) ->
  1 <= page -> (0 < fuel)%nat -> P - page < Z.of_nat fuel ->
  fst (download_pages rt fuel ids page total w) <> Ok None.
Proof.
  intros Hbound. revert page total w.
  induction fuel as [|fuel IH]; intros page total w Hpage Hpos Hfuel; [lia|].
  cbn [download_pages]. rewrite bind_run, print_run, bind_run.
  unfold get_photos. rewrite call_run.
  destruct (flickr rt _ _) as [photos_data|e] eqn:Eresp; [|done].
  rewrite bind_run, lift_run.
  destruct (sub "photos" photos_data >>> sub "photo") as [photos|e]; [|done].
  destruct (negb (truthy photos)); [done|].
  rewrite bind_run, lift_run. destruct (py_len photos) as [n|e]; [|done].
  rewrite bind_run, print_run, bind_run, lift_run.
  destruct (iter photos) as [items|e]; [|done].
  rewrite bind_run.
  destruct (photo_loop rt ids photos_data total 1 items _) as [[[]|e] w2]; [|done].
  rewrite bind_run, lift_run.
  destruct (sub "photos" photos_data >>> sub "pages") as [pages|e] eqn:Epages; [|done].
  rewrite bind_run, lift_run.
  destruct (py_ge page pages) as [stop|e] eqn:Ege; [|done].
  destruct stop; [done|].
  assert (page < P).
  { eapply py_ge_bounded; [exact Hpage| |exact Ege|done].
    intros z ->. by eapply Hbound. }
  apply IH; lia.
Qed.

Lemma favorite_pages_ends fuel page total w :
  (forall t page resp z,
     flickr rt t (favorites_getList (USER_ID rt) 100 page) = Ok resp ->
     sub "photos" resp >>> sub "pages" = Ok (JInt z) -> z <= P) ->
  1 <= page -> (0 < fuel)%nat -> P - page < Z.of_nat fuel ->
  fst (favorite_pages rt fuel page total w) <> Ok None.
Proof.
  intros Hbound. revert page total w.
  induction fuel as [|fuel IH]; intros page total w Hpage Hpos Hfuel; [lia|].
  cbn [favorite_pages]. rewrite bind_run, print_run, bind_run.
  unfold get_favorites. rewrite call_run.
  destruct (flickr rt _ _) as [faves_data|e] eqn:Eresp; [|done].
  rewrite bind_run, lift_run.
  destruct (sub "photos" faves_data >>> sub "photo") as [photos|e]; [|done].
  destruct (negb (truthy photos)); [done|].
  rewrite bind_run, lift_run. destruct (py_len photos) as [n|e]; [|done].
  rewrite bind_run, print_run, bind_run, lift_run.
  destruct (iter photos) as [items|e]; [|done].
  rewrite bind_run.
  destruct (favorite_loop rt faves_data total 1 items _) as [[[]|e] w2]; [|done].
  rewrite bind_run, lift_run.
  destruct (sub "photos" faves_data >>> sub "pages") as [pages|e] eqn:Epages; [|done].
  rewrite bind_run, lift_run.
  destruct (py_ge page pages) as [stop|e] eqn:Ege; [|done].
  destruct stop; [done|].
  assert (page < P).
  { eapply py_ge_bounded; [exact Hpage| |exact Ege|done].
    intros z ->. by eapply Hbound. }
  apply IH; lia.
Qed.

End WalksEnd.

(** X18: the [while True] loops of the two walks end.  If the page count the
    service reports in its listings never exceeds [P], then each walk leaves
    its loop, by a [break] or an exception, within [max 1 P] turns: with that
    many turns allowed, the walk returns or raises, and is never cut off
    for want of fuel. *)
Theorem walks_end_by_page_count (rt : runtime) (P : Z) (fuel : nat) (w : world)
    (Hfuel : (0 < fuel)%nat /\ P <= Z.of_nat fuel) :
  ((forall t page resp z,
      flickr rt t (people_getPhotos (USER_ID rt) 100 page) = Ok resp ->
      sub "photos" resp >>> sub "pages" = Ok (JInt z) -> z <= P) ->
   fst (download_my_photos rt fuel w) <> Ok None) /\
  ((forall t page resp z,
      flickr rt t (favorites_getList (USER_ID rt) 100 page) = Ok resp ->
      sub "photos" resp >>> sub "pages" = Ok (JInt z) -> z <= P) ->
   fst (download_favorites rt fuel w) <> Ok None).
Proof.
  destruct Hfuel as [Hpos Hfuel]. split; intros Hbound.
  - unfold download_my_photos. rewrite bind_run, print_run, bind_run.
    destruct (listdir PHOTOS_DIR _) as [[ids|e] w1]; [|done].
    rewrite bind_run.
    pose proof (download_pages_ends rt P fuel ids 1 0 w1 Hbound) as Hend.
    destruct (download_pages rt fuel ids 1 0 w1) as [[[total|]|e] w2]; [done| |done].
    exfalso. apply Hend; [lia|done|lia|done].
  - unfold download_favorites. rewrite bind_run, print_run, bind_run.
    pose proof (favorite_pages_ends rt P fuel 1 0 (advance 0
      [EvPrint ("Downloading favorited photos for user " +:+ py_str rt (USER_ID rt))] w)
      Hbound) as Hend.
    destruct (favorite_pages rt fuel 1 0 _) as [[[total|]|e] w2]; [done| |done].
    exfalso. apply Hend; [lia|done|lia|done].
Qed.

Lemma walks_end_by_page_count_witness :
  fst (download_my_photos listing_rt 1 archived_world) <> Ok None /\
  fst (download_favorites favorites_rt 1 favorites_world) <> Ok None.
Proof.
  split.
  - apply (proj1 (walks_end_by_page_count listing_rt 1 1 archived_world
                    (conj (le_n 1) (Z.le_refl 1)))).
    intros t page resp z Hresp Hpages. simpl in Hresp. injection Hresp as <-.
    simpl in Hpages. injection Hpages as <-. lia.
  - apply (proj2 (walks_end_by_page_count favorites_rt 1 1 favorites_world
                    (conj (le_n 1) (Z.le_refl 1)))).
    intros t page resp z Hresp Hpages. simpl in Hresp. injection Hresp as <-.
    simpl in Hpages. injection Hpages as <-. lia.
Defined.

(* ===================================================================== *)
(** ** Further properties: comments and favorites, one for one *)
(* ===================================================================== *)

Lemma mapM_ok {A B} (f : A -> M B) (P : A -> B -> Prop) l w ys w' :
  (forall x w1 y w2, f x w1 = (Ok y, w2) -> P x y) ->
  mapM f l w = (Ok ys, w') -> Forall2 P l ys.
Proof.
  intros Hf. revert w ys w'. induction l as [|x l IH]; intros w ys w' Hrun.
  - injection Hrun as <- _. constructor.
  - cbn [mapM] in Hrun.
    apply bind_ok in Hrun as (y & w1 & Hy & Hrun).
    apply bind_ok in Hrun as (ys' & w2 & Hys & Hrun).
    injection Hrun as <- _. constructor; [by eapply Hf|by eapply IH].
Qed.

Lemma sub_contains k v x : sub k v = Ok x -> contains k v = Ok true.
Proof.
  destruct v; simpl; try done. destruct (assoc k d) eqn:E; [|done].
  intros _. f_equal.
Qed.

(** The guarded walk down a response: [d[k1][k2]] when both keys are there. *)
Lemma guarded_items k1 k2 (data : json) (raw : list json) :
  sub k1 data >>> sub k2 >>> iter = Ok raw ->
  (has ← contains k1 data;
   has' ← (if (has : bool) then sub k1 data >>> contains k2 else Ok false);
   if (has' : bool) then sub k1 data >>> sub k2 >>> iter else Ok []) = Ok raw.
Proof.
  intros Hraw.
  pose proof Hraw as H. apply and_then_ok in H as (c2 & H & _).
  apply and_then_ok in H as (c1 & H1 & H2).
  rewrite (sub_contains _ _ _ H1). cbn [mbind result_bind].
  rewrite H1. cbn [and_then]. rewrite (sub_contains _ _ _ H2). cbn [mbind result_bind].
  rewrite <- Hraw, H1. reflexivity.
Qed.

Lemma comment_of_ok rt comment w entry w' :
  comment_of rt comment w = (Ok entry, w') -> archived_comment comment entry.
Proof.
  unfold comment_of. intros Hrun.
  apply bind_ok in Hrun as (author_id & w1 & [Hauthor ->]%lift_ok & Hrun).
  apply bind_ok in Hrun as (comment_obj & w1 & [Hobj ->]%lift_ok & Hrun).
  apply result_bind_ok in Hobj as (id & Hid & Hobj).
  apply result_bind_ok in Hobj as (author_name & Hname & Hobj).
  apply result_bind_ok in Hobj as (date_created & Hdate & Hobj).
  apply result_bind_ok in Hobj as (permalink & Hlink & Hobj).
  apply result_bind_ok in Hobj as (text & Htext & Hobj).
  injection Hobj as <-.
  assert (Hbase : archived_comment comment
            (JDict [("id", id); ("author", author_id); ("author_name", author_name);
                    ("date_created", date_created); ("permalink", permalink);
                    ("text", text)])).
  { unfold archived_comment. rewrite Hid, Hauthor, Hname, Hdate, Hlink, Htext.
    by repeat split. }
  destruct (truthy author_id).
  - apply bind_ok in Hrun as (user_info & w2 & _ & Hrun).
    apply lift_ok in Hrun as [Hrun _].
    apply result_bind_ok in Hrun as (avatar & _ & Hrun).
    apply result_bind_ok in Hrun as (is_pro & _ & Hrun).
    apply result_bind_ok in Hrun as (display_name & _ & Hrun).
    injection Hrun as <-.
    unfold archived_comment. rewrite Hid, Hauthor, Hname, Hdate, Hlink, Htext.
    by repeat split.
  - by injection Hrun as <- _.
Qed.

Lemma favorite_of_ok rt person w entry w' :
  favorite_of rt person w = (Ok entry, w') -> archived_favorite person entry.
Proof.
  unfold favorite_of. intros Hrun.
  apply bind_ok in Hrun as (nsid & w1 & [Hnsid ->]%lift_ok & Hrun).
  apply bind_ok in Hrun as (fav_obj & w1 & [Hobj ->]%lift_ok & Hrun).
  apply result_bind_ok in Hobj as (username & Hname & Hobj).
  apply result_bind_ok in Hobj as (favedate & Hdate & Hobj).
  injection Hobj as <-.
  assert (Hbase : archived_favorite person
            (JDict [("nsid", nsid); ("username", username); ("favedate", favedate)])).
  { unfold archived_favorite. rewrite Hnsid, Hname, Hdate. by repeat split. }
  destruct (truthy nsid).
  - apply bind_ok in Hrun as (user_info & w2 & _ & Hrun).
    apply lift_ok in Hrun as [Hrun _].
    apply result_bind_ok in Hrun as (display_name & _ & Hrun).
    apply result_bind_ok in Hrun as (realname & _ & Hrun).
    apply result_bind_ok in Hrun as (avatar & _ & Hrun).
    apply result_bind_ok in Hrun as (is_pro & _ & Hrun).
    apply result_bind_ok in Hrun as (profile_url & _ & Hrun).
    injection Hrun as <-.
    unfold archived_favorite. rewrite Hnsid, Hname, Hdate. by repeat split.
  - by injection Hrun as <- _.
Qed.

(** X19: comments and favorites are archived one for one.  When the service
    answers with a list of comments and the comments stage returns,
    [comments.json] holds exactly one entry per listed comment, in the
    order listed, each with the id, author, author name, date, permalink and
    text of its comment, whatever the user lookup added; and likewise
    [favorites.json] holds one entry per listed person with its nsid,
    username and favedate. *)
Theorem comments_and_favorites_one_for_one (rt : runtime) (photo_id : json)
    (photo_dir : string) (w w' : world) (resp : json) (raw : list json) :
  (flickr rt (clock w) (photos_comments_getList photo_id) = Ok resp ->
   sub "comments" resp >>> sub "comment" >>> iter = Ok raw ->
   archive_comments rt photo_id photo_dir w = (Ok tt, w') ->
   exists entries,
     files w' !! path_join photo_dir "comments.json" = Some (CJson (JList entries)) /\
     Forall2 archived_comment raw entries) /\
  (flickr rt (clock w) (photos_getFavorites photo_id 500) = Ok resp ->
   sub "photo" resp >>> sub "person" >>> iter = Ok raw ->
   archive_favorites rt photo_id photo_dir w = (Ok tt, w') ->
   exists entries,
     files w' !! path_join photo_dir "favorites.json" = Some (CJson (JList entries)) /\
     Forall2 archived_favorite raw entries).
Proof.
  split; intros Hresp Hraw Hrun.
  - unfold archive_comments, get_photo_comments in Hrun.
    rewrite bind_run, try_except_call, Hresp in Hrun.
    rewrite bind_run, lift_run, (guarded_items _ _ _ _ Hraw) in Hrun.
    apply bind_ok in Hrun as (entries & w1 & Hmap & Hsave).
    exists entries. split; [by eapply save_json_ok|].
    eapply mapM_ok; [|exact Hmap]. intros x w2 y w3. apply comment_of_ok.
  - unfold archive_favorites, get_photo_favorites in Hrun.
    rewrite bind_run, try_except_call, Hresp in Hrun.
    rewrite bind_run, lift_run, (guarded_items _ _ _ _ Hraw) in Hrun.
    apply bind_ok in Hrun as (entries & w1 & Hmap & Hsave).
    exists entries. split; [by eapply save_json_ok|].
    eapply mapM_ok; [|exact Hmap]. intros x w2 y w3. apply favorite_of_ok.
Qed.

Lemma comments_and_favorites_one_for_one_witness :
  let photo_dir := path_join PHOTOS_DIR "1" in
  let w' := snd (archive_comments comments_rt (JStr "1") photo_dir empty_world) in
  exists entries,
    files w' !! path_join photo_dir "comments.json" = Some (CJson (JList entries)) /\
    Forall2 archived_comment
      [JDict [("id", JStr "c1"); ("author", JStr "u1");
              ("authorname", JStr "Ann"); ("_content", JStr "Nice")];
       JDict [("id", JStr "c2"); ("_content", JStr "Hm")]]
      entries.
Proof.
  intros photo_dir w'.
  eapply (proj1 (comments_and_favorites_one_for_one comments_rt (JStr "1") photo_dir
                   empty_world w' _ _)).
  - reflexivity.
  - reflexivity.
  - vm_compute. reflexivity.
Defined.

(* ===================================================================== *)
(** ** Further properties: a download that fails *)
(* ===================================================================== *)

Lemma save_json_frame rt data p q w :
  q <> p -> files (snd (save_json rt data p w)) !! q = files w !! q.
Proof.
  intros Hq. unfold save_json. rewrite bind_run, makedirs_run.
  destruct (String.eqb (dirname p) ""); [done|].
  destruct (disk rt (clock w) (dirname p)); [|done..].
  rewrite open_write_run.
  destruct (disk rt _ p); simpl; [|done|]; by apply lookup_insert_ne.
Qed.

Lemma original_not_sizes photo_dir ext :
  path_join photo_dir ("original." +:+ ext) <> path_join photo_dir "sizes.json".
Proof. intros H. by apply path_join_inj in H. Qed.

(** X20: a failed download of the original is not fatal, and is recorded
    nowhere but in the log.  When the sizes are fetched and a size is
    selected, a GET of its source that fails before a response arrives
    leaves no [original.*] file; a connection that breaks in the middle of
    the body leaves [original.*] holding the part received.  Either way the
    photo branch logs the error and goes on exactly as [save_json] of the
    sizes record, which names the selected size as the original, and the
    truncated file is still there afterwards. *)
Theorem failed_download_not_fatal (rt : runtime) (photo_id : json) (photo_dir : string)
    (w : world) (sizes size_list o : json) (u : string)
    (Hsizes : flickr rt (clock w) (photos_getSizes photo_id) = Ok sizes)
    (Hlist : sub "sizes" sizes >>> sub "size" = Ok size_list)
    (Hselected : select_original size_list = Ok (Some o) /\ truthy o = true)
    (Hsource : sub "source" o = Ok (JStr u)) :
  let path := path_join photo_dir ("original." +:+ file_ext u) in
  let record := JDict [("original", o); ("all_sizes", size_list)] in
  let sizes_path := path_join photo_dir "sizes.json" in
  let error e := EvPrint ("  Error downloading photo: " +:+ exn_text rt e) in
  (forall e, http_get rt (S (clock w)) u = Raise e ->
     archive_original rt photo_id photo_dir w =
     save_json rt record sizes_path
       (advance 2 [EvCall (photos_getSizes photo_id); EvHttpGet u; error e] w)) /\
  (forall received e,
     http_get rt (S (clock w)) u = Ok (Broken received e) ->
     String.eqb (dirname path) "" = false ->
     disk rt (S (S (clock w))) (dirname path) = DiskOk ->
     disk rt (S (S (S (clock w)))) path = DiskOk ->
     exists w1,
       archive_original rt photo_id photo_dir w = save_json rt record sizes_path w1 /\
       files w1 = <[path := CBytes received]> (files w) /\
       trace w1 = trace w ++ [EvCall (photos_getSizes photo_id); EvHttpGet u;
                              EvWrite path; error e] /\
       files (snd (archive_original rt photo_id photo_dir w)) !! path
       = Some (CBytes received)).
Proof.
  intros path record sizes_path error.
  destruct Hselected as [Hsel Htruthy].
  assert (Hrun : archive_original rt photo_id photo_dir w =
    match download_photo rt (JStr u) path
            (advance 1 [EvCall (photos_getSizes photo_id)] w) with
    | (Ok ok, w1) =>
        save_json rt record sizes_path
          (if ok then advance 0 [EvPrint "    Downloaded photo"] w1 else w1)
    | (Raise e, w1) => (Raise e, w1)
    end).
  { unfold archive_original, get_photo_sizes.
    rewrite bind_run, call_run, Hsizes.
    rewrite bind_run, lift_run, Hlist.
    rewrite bind_run, lift_run, Hsel, Htruthy.
    rewrite bind_run, lift_run, Hsource.
    rewrite bind_run, lift_run, bind_run. fold path.
    destruct (download_photo rt (JStr u) path _) as [[[|]|e] w1]; [| |done].
    - by rewrite bind_run, print_run.
    - by rewrite bind_run, ret_run. }
  rewrite Hrun, download_photo_run. simpl clock. split.
  - intros e Hget. rewrite Hget, !advance_advance. reflexivity.
  - intros received e Hget Hdir Hmk Hopen. rewrite Hget.
    rewrite makedirs_run, Hdir. simpl clock. rewrite Hmk.
    rewrite open_write_run. simpl clock. rewrite Hopen.
    eexists. split; [reflexivity|]. split; [reflexivity|].
    split; [simpl; by rewrite <- !app_assoc|].
    rewrite save_json_frame by apply original_not_sizes. apply lookup_insert_eq.
Qed.

Lemma failed_download_not_fatal_witness :
  let rt := Runtime (flickr (sample_rt "photo"
                      (JList [sample_size "Original" (JInt 100) "https://x/1_o.jpg"])))
              (fun _ _ => Ok (Broken "byt" (Exception_ "connection reset")))
              (fun _ _ => DiskOk) (fun _ => "2024-01-01T00:00:00")
              (fun _ => Ok "2017-07-14T02:40:00") (fun _ => "connection reset")
              (fun _ => "") (JStr "me") in
  let photo_dir := path_join PHOTOS_DIR "1" in
  let run := archive_original rt (JStr "1") photo_dir empty_world in
  files (snd run) !! path_join photo_dir "original.jpg" = Some (CBytes "byt").
Proof.
  intros rt photo_dir run. subst run.
  destruct (proj2 (failed_download_not_fatal rt (JStr "1") photo_dir empty_world
             (JDict [("sizes", JDict [("size",
                JList [sample_size "Original" (JInt 100) "https://x/1_o.jpg"])])])
             (JList [sample_size "Original" (JInt 100) "https://x/1_o.jpg"])
             (sample_size "Original" (JInt 100) "https://x/1_o.jpg")
             "https://x/1_o.jpg"
             eq_refl eq_refl (conj eq_refl eq_refl) eq_refl)
             "byt" (Exception_ "connection reset") eq_refl eq_refl eq_refl eq_refl)
    as (w1 & _ & _ & _ & Hfile).
  exact Hfile.
Defined.
